(** * filesystem.h: a shallow embedding and its verification

    The development follows [src/filesystem.h].  C strings are lists of
    characters (the bytes before the terminator); the fixed-size [char]
    arrays the library builds paths in are lists of cells with explicit
    bounds, so that a write past the end of an array is visible as a
    fault instead of being silently absorbed.  The operating system
    (stat, fopen, fwrite, fread, fclose, mkdir, remove, malloc) is a small
    executable POSIX model over a finite map of directory entries. *)

From Stdlib Require Import ZArith Ascii String List Lia.
From Stdlib.Strings Require Import Byte.
From stdpp Require Import gmap strings list fin_maps.

Open Scope Z_scope.
Open Scope nat_scope.

(** ** C strings *)

Abbreviation cstring := (list ascii).

(** [cs "./?"] is the C string literal ["./?"]. *)
Definition cs (s : string) : cstring := list_ascii_of_string s.

Definition strlen (s : cstring) : nat := length s.

(** [strchr s c]: offset of the first [c] in [s] (C returns the pointer
    [s + offset], or NULL). *)
Fixpoint strchr (s : cstring) (c : ascii) : option nat :=
  match s with
  | [] => None
  | x :: s' => if decide (x = c) then Some 0 else S <$> strchr s' c
  end.

(** [strrchr s c]: offset of the last [c] in [s]. *)
Fixpoint strrchr (s : cstring) (c : ascii) : option nat :=
  match s with
  | [] => None
  | x :: s' =>
      match strrchr s' c with
      | Some i => Some (S i)
      | None => if decide (x = c) then Some 0 else None
      end
  end.

Fixpoint starts_with (p s : cstring) : bool :=
  match p, s with
  | [], _ => true
  | _ :: _, [] => false
  | a :: p', b :: s' => if decide (a = b) then starts_with p' s' else false
  end.

(** [strstr s p]: offset of the first occurrence of [p] in [s]. *)
Fixpoint strstr (s p : cstring) : option nat :=
  if starts_with p s then Some 0
  else match s with
       | [] => None
       | _ :: s' => S <$> strstr s' p
       end.

(** ** Configuration macros and error codes *)

Definition FS_MAX_PATH : nat := 256.
Definition FS_PATH_SEP : cstring := cs ";".
Definition FS_PATH_MARK : cstring := cs "?".

Definition FS_ESUCCESS : Z := 0.
Definition FS_EFAILURE : Z := -1.
Definition FS_ETOOLONG : Z := -2.
Definition FS_ENOWRITEDIR : Z := -3.
Definition FS_EWRITEFAIL : Z := -4.
Definition FS_EMKDIRFAIL : Z := -5.
Definition FS_ENOSEARCHPATH : Z := -6.
Definition FS_EREMOVE : Z := -7.

(** The first character of a one-character macro string ([*FS_PATH_SEP]). *)
Definition deref (s : cstring) : ascii := default zero (head s).

(** ** Character arrays with bounds

    A cell of a [char] array is indeterminate (never written), a
    character of a string, or the terminator.  Characters of C strings are
    never the terminator, which is why it is a cell of its own. *)

Inductive cell := Indet | Chr (c : ascii) | NUL.

Abbreviation buffer := (list cell).

(** [char buf[n];] on the stack. *)
Definition char_array (n : nat) : buffer := replicate n Indet.

(** What can go wrong outside the C semantics, and the one artefact of the
    embedding ([Exhausted]: a loop ran out of its iteration bound, proved
    unreachable below). *)
Inductive fault :=
  | Overrun     (* a write past the end of an array *)
  | Overread    (* a read past the end of an array *)
  | Uninit      (* a read of an indeterminate value *)
  | Exhausted.

Inductive outcome (A : Type) : Type :=
  | Ret (a : A)
  | Fault (f : fault).
Arguments Ret {A} a.
Arguments Fault {A} f.

Global Instance outcome_ret : MRet outcome := fun A a => Ret a.

Global Instance outcome_bind : MBind outcome := fun A B k m =>
  match m with
  | Ret a => k a
  | Fault f => Fault f
  end.

(** [memcpy(&b[n], src, l)]: the [l] cells from index [n] on must lie
    inside the array. *)
Definition memcpy (b : buffer) (n : nat) (src : cstring) (l : nat) : outcome buffer :=
  if decide (n + l <= length b)
  then Ret (take n b ++ (Chr <$> take l src) ++ drop (n + l) b)
  else Fault Overrun.

(** [b[n] = '\0'] *)
Definition store_nul (b : buffer) (n : nat) : outcome buffer :=
  if decide (n < length b) then Ret (<[n := NUL]> b) else Fault Overrun.

(** Reading an array as a C string: the characters before the first
    terminator. *)
Fixpoint c_str (b : buffer) : outcome cstring :=
  match b with
  | [] => Fault Overread
  | Indet :: _ => Fault Uninit
  | NUL :: _ => Ret []
  | Chr c :: b' => s ← c_str b'; Ret (c :: s)
  end.

(** ** Template engine *)

(** The [CONCAT(b, n, s, l)] macro of [_fs_concat_path]. *)
Definition CONCAT (b : buffer) (n : nat) (s : cstring) (l : nat) : outcome (buffer * nat) :=
  match l with
  | 0 => Ret (b, n)
  | _ => b' ← memcpy b n s l; Ret (b', n + l)
  end.

(** The [while (pch != NULL)] loop of [_fs_concat_path] together with the
    two statements after it.  [s] is the rest of the template, [n] the
    number of bytes accumulated in [buf]; each round consumes at least the
    marker, so [fuel] bounds the rounds. *)
Fixpoint _fs_concat_path_loop (fuel : nat) (buf : buffer) (n : nat)
    (s r : cstring) : outcome (Z * buffer) :=
  match strstr s FS_PATH_MARK with
  | None =>
      buf' ← store_nul buf n;
      Ret (FS_ESUCCESS, buf')
  | Some k =>
      match fuel with
      | 0 => Fault Exhausted
      | S fuel' =>
          '(buf1, n1) ← CONCAT buf n s k;
          '(buf2, n2) ← CONCAT buf1 n1 r (strlen r);
          if decide (FS_MAX_PATH <= n2) then Ret (FS_ETOOLONG, buf2)
          else _fs_concat_path_loop fuel' buf2 n2 (drop (k + strlen FS_PATH_MARK) s) r
      end
  end.

Definition _fs_concat_path (buf : buffer) (path filename : cstring) : outcome (Z * buffer) :=
  _fs_concat_path_loop (S (strlen path)) buf 0 path filename.

(** The loop that skips any separators at the head of [path]. *)
Fixpoint skip_separators (path : cstring) : cstring :=
  match path with
  | c :: path' => if decide (c = deref FS_PATH_SEP) then skip_separators path' else path
  | [] => []
  end.

(** [_fs_get_template(path, buf)]: [path] is the unread rest of the search
    path.  Returns the rest after the template copied into [buf], or
    [None] for NULL. *)
Definition _fs_get_template (path : cstring) (buf : buffer) : outcome (option cstring * buffer) :=
  let path := skip_separators path in
  match path with
  | [] => Ret (None, buf)
  | _ =>
      let t := match strchr path (deref FS_PATH_SEP) with
               | Some i => i
               | None => strlen path
               end in
      buf1 ← memcpy buf 0 path t;
      buf2 ← store_nul buf1 t;
      Ret (Some (drop t path), buf2)
  end.

(** *** The substitution the documentation speaks of *)

(** Global substitution: every marker character of [s] replaced by [r]. *)
Fixpoint gsub (s r : cstring) : cstring :=
  match s with
  | [] => []
  | c :: s' => if decide ([c] = FS_PATH_MARK) then r ++ gsub s' r else c :: gsub s' r
  end.

(** The template up to and including its last marker (empty when it has
    none). *)
Definition upto_last_mark (s : cstring) : cstring :=
  match strrchr s (deref FS_PATH_MARK) with
  | Some i => take (S i) s
  | None => []
  end.

(** What [_fs_concat_path] accumulates: the text after the last marker is
    never copied. *)
Definition expand (s r : cstring) : cstring := gsub (upto_last_mark s) r.

(** ** The operating system

    A directory entry is addressed by the names on the way from it up to
    the root, innermost first; the root is the empty list.  There are no
    symbolic links and no permissions, stdio is unbuffered, and the heap
    and the disk have a budget so that [malloc] and [fwrite] can fall
    short. *)

Abbreviation loc := (list cstring).
Abbreviation block := (list (option byte)).

Inductive node :=
  | File (mtime : Z) (content : list byte)
  | Dir (mtime : Z).

Inductive st_mode_t := S_IFREG | S_IFDIR | S_IFLNK | S_IFIFO.

Record stat_t := { st_mode : st_mode_t; st_size : nat; st_mtime : Z }.

Global Instance st_mode_t_eq_dec : EqDecision st_mode_t.
Proof. solve_decision. Defined.

Global Instance stat_t_eq_dec : EqDecision stat_t.
Proof. solve_decision. Defined.

Definition S_ISREG (m : st_mode_t) : bool := if m is S_IFREG then true else false.
Definition S_ISDIR (m : st_mode_t) : bool := if m is S_IFDIR then true else false.
Definition S_ISLNK (m : st_mode_t) : bool := if m is S_IFLNK then true else false.

(** The [_FS_MREAD], [_FS_MWRITE] and [_FS_MAPPEND] mode strings. *)
Inductive fmode := _FS_MREAD | _FS_MWRITE | _FS_MAPPEND.

Record stream := { s_loc : loc; s_mode : fmode; s_pos : nat }.

Inductive oscall :=
  | sys_stat (p : cstring)
  | sys_fopen (p : cstring) (m : fmode)
  | sys_fwrite (fp n : nat)
  | sys_fread (fp n : nat)
  | sys_fclose (fp : nat)
  | sys_mkdir (p : cstring)
  | sys_remove (p : cstring)
  | sys_malloc (n : nat).

(** The state a call runs in: the two globals of the library and the
    operating system around it.  [calls] records the system calls made,
    latest first. *)
Record world := {
  _fs_search_path : cstring;
  _fs_write_dir : cstring;
  files : gmap loc node;
  cwd : loc;
  streams : gmap nat stream;
  next_fp : nat;
  heap_free : nat;
  disk_free : nat;
  now : Z;
  calls : list oscall;
}.

Definition set_search_path (s : cstring) (w : world) : world :=
  {| _fs_search_path := s; _fs_write_dir := _fs_write_dir w; files := files w;
     cwd := cwd w; streams := streams w; next_fp := next_fp w;
     heap_free := heap_free w; disk_free := disk_free w; now := now w;
     calls := calls w |}.

Definition set_write_dir (s : cstring) (w : world) : world :=
  {| _fs_search_path := _fs_search_path w; _fs_write_dir := s; files := files w;
     cwd := cwd w; streams := streams w; next_fp := next_fp w;
     heap_free := heap_free w; disk_free := disk_free w; now := now w;
     calls := calls w |}.

Definition set_files (f : gmap loc node) (w : world) : world :=
  {| _fs_search_path := _fs_search_path w; _fs_write_dir := _fs_write_dir w;
     files := f; cwd := cwd w; streams := streams w; next_fp := next_fp w;
     heap_free := heap_free w; disk_free := disk_free w; now := now w;
     calls := calls w |}.

Definition set_streams (s : gmap nat stream) (n : nat) (w : world) : world :=
  {| _fs_search_path := _fs_search_path w; _fs_write_dir := _fs_write_dir w;
     files := files w; cwd := cwd w; streams := s; next_fp := n;
     heap_free := heap_free w; disk_free := disk_free w; now := now w;
     calls := calls w |}.

Definition set_heap_free (n : nat) (w : world) : world :=
  {| _fs_search_path := _fs_search_path w; _fs_write_dir := _fs_write_dir w;
     files := files w; cwd := cwd w; streams := streams w; next_fp := next_fp w;
     heap_free := n; disk_free := disk_free w; now := now w;
     calls := calls w |}.

Definition set_disk_free (n : nat) (w : world) : world :=
  {| _fs_search_path := _fs_search_path w; _fs_write_dir := _fs_write_dir w;
     files := files w; cwd := cwd w; streams := streams w; next_fp := next_fp w;
     heap_free := heap_free w; disk_free := n; now := now w;
     calls := calls w |}.

Definition log_call (c : oscall) (w : world) : world :=
  {| _fs_search_path := _fs_search_path w; _fs_write_dir := _fs_write_dir w;
     files := files w; cwd := cwd w; streams := streams w; next_fp := next_fp w;
     heap_free := heap_free w; disk_free := disk_free w; now := now w;
     calls := c :: calls w |}.

(** *** Path resolution *)

(** The pieces of [s] between occurrences of [c]. *)
Fixpoint split_on (c : ascii) (s : cstring) : list cstring :=
  match s with
  | [] => [[]]
  | x :: s' =>
      if decide (x = c) then [] :: split_on c s'
      else match split_on c s' with
           | comp :: rest => (x :: comp) :: rest
           | [] => [[x]]
           end
  end.

Definition is_dir (fs : gmap loc node) (l : loc) : bool :=
  match fs !! l with
  | Some (Dir _) => true
  | _ => false
  end.

(** An empty component (a doubled or trailing slash) and ["."] stand for
    the directory itself, [".."] for its parent (the root is its own
    parent). *)
Definition dotlike (c : cstring) : bool :=
  bool_decide (c = [] \/ c = cs "." \/ c = cs "..").

Definition step (cur : loc) (c : cstring) : loc :=
  if decide (c = [] \/ c = cs ".") then cur
  else if decide (c = cs "..") then tail cur
  else c :: cur.

(** One component of a path, which has to name a directory. *)
Definition enter (fs : gmap loc node) (cur : loc) (c : cstring) : option loc :=
  if is_dir fs (step cur c) then Some (step cur c) else None.

Fixpoint walk (fs : gmap loc node) (cur : loc) (comps : list cstring) : option loc :=
  match comps with
  | [] => Some cur
  | c :: comps' => cur' ← enter fs cur c; walk fs cur' comps'
  end.

Inductive resolution :=
  | Found (l : loc) (n : node)     (* the path names an existing entry *)
  | Creatable (l : loc)            (* its directory exists, the entry does not *)
  | NoEnt.                         (* ENOENT, ENOTDIR *)

(** Where resolution starts: the root for an absolute path. *)
Definition path_start (cwd : loc) (p : cstring) : loc :=
  match p with
  | c0 :: _ => if decide (c0 = "/"%char) then [] else cwd
  | [] => cwd
  end.

Definition path_leaf (p : cstring) : cstring := default [] (last (split_on "/" p)).

(** The directory the last component of [p] is looked up in: every
    component before it has to name an existing directory. *)
Definition path_dir (fs : gmap loc node) (cwd : loc) (p : cstring) : option loc :=
  match p with
  | [] => None
  | _ =>
      if is_dir fs (path_start cwd p)
      then walk fs (path_start cwd p) (removelast (split_on "/" p))
      else None
  end.

Definition resolve (fs : gmap loc node) (cwd : loc) (p : cstring) : resolution :=
  match path_dir fs cwd p with
  | None => NoEnt
  | Some d =>
      match fs !! step d (path_leaf p) with
      | Some n => Found (step d (path_leaf p)) n
      | None => if dotlike (path_leaf p) then NoEnt else Creatable (step d (path_leaf p))
      end
  end.

(** A well-formed file system: every entry but the root lies in a
    directory. *)
Definition wf (fs : gmap loc node) : Prop :=
  map_Forall (fun (l : loc) (_ : node) => l = [] \/ is_dir fs (tail l) = true) fs.

Global Instance wf_dec (fs : gmap loc node) : Decision (wf fs).
Proof. unfold wf. apply _. Defined.

(** *** The state monad the library runs in *)

Definition M (A : Type) : Type := world -> outcome (A * world).

Global Instance M_ret : MRet M := fun A a w => Ret (a, w).

Global Instance M_bind : MBind M := fun A B k m w =>
  match m w with
  | Ret (a, w') => k a w'
  | Fault f => Fault f
  end.

(** A computation without access to the world. *)
Definition lift {A} (o : outcome A) : M A := fun w =>
  match o with
  | Ret a => Ret (a, w)
  | Fault f => Fault f
  end.

Definition get_world : M world := fun w => Ret (w, w).
Definition modify (f : world -> world) : M unit := fun w => Ret (tt, f w).
Definition syscall (c : oscall) : M unit := modify (log_call c).

(** *** System calls *)

Definition dir_size : nat := 4096.

Definition stat_of (n : node) : stat_t :=
  match n with
  | File t c => {| st_mode := S_IFREG; st_size := length c; st_mtime := t |}
  | Dir t => {| st_mode := S_IFDIR; st_size := dir_size; st_mtime := t |}
  end.

(** What [stat] finds at [p]. *)
Definition probe (fs : gmap loc node) (cwd : loc) (p : cstring) : option stat_t :=
  match resolve fs cwd p with
  | Found _ n => Some (stat_of n)
  | _ => None
  end.

(** [stat(p, &st) == 0] is [Some st]. *)
Definition stat (p : cstring) : M (option stat_t) :=
  _ ← syscall (sys_stat p);
  w ← get_world;
  mret (probe (files w) (cwd w) p).

(** [mkdir(p, S_IRWXU)]: 0 or -1. *)
Definition mkdir (p : cstring) : M Z :=
  _ ← syscall (sys_mkdir p);
  w ← get_world;
  match resolve (files w) (cwd w) p with
  | Creatable l =>
      _ ← modify (set_files (<[l := Dir (now w)]> (files w)));
      mret 0%Z
  | _ => mret (-1)%Z
  end.

Definition open_stream (l : loc) (m : fmode) : M (option nat) :=
  w ← get_world;
  _ ← modify (set_streams (<[next_fp w := {| s_loc := l; s_mode := m; s_pos := 0 |}]> (streams w))
                          (S (next_fp w)));
  mret (Some (next_fp w)).

(** [fopen(p, mode)]: the stream, or [None] for NULL. *)
Definition fopen (p : cstring) (m : fmode) : M (option nat) :=
  _ ← syscall (sys_fopen p m);
  w ← get_world;
  match resolve (files w) (cwd w) p, m with
  | Found l _, _FS_MREAD => open_stream l m
  | Found l (File _ _), _FS_MWRITE =>
      _ ← modify (set_files (<[l := File (now w) []]> (files w)));
      open_stream l m
  | Found l (File _ _), _FS_MAPPEND => open_stream l m
  | Creatable l, (_FS_MWRITE | _FS_MAPPEND) =>
      _ ← modify (set_files (<[l := File (now w) []]> (files w)));
      open_stream l m
  | _, _ => mret None
  end.

(** [fwrite(data, 1, size, fp)]: the number of bytes written, short when
    the disk fills up. *)
Definition fwrite (data : list byte) (size : nat) (fp : nat) : M nat :=
  _ ← syscall (sys_fwrite fp size);
  w ← get_world;
  if decide (length data < size) then lift (Fault Overread) else
  match streams w !! fp with
  | Some st =>
      match s_mode st, files w !! s_loc st with
      | _FS_MREAD, _ => mret 0
      | m, Some (File _ c) =>
          let k := size `min` disk_free w in
          let c' := match m with
                    | _FS_MAPPEND => c ++ take k data
                    | _ => take (s_pos st) c ++ take k data ++ drop (s_pos st + k) c
                    end in
          _ ← modify (set_files (<[s_loc st := File (now w) c']> (files w)));
          _ ← modify (set_disk_free (disk_free w - k));
          _ ← modify (set_streams (<[fp := {| s_loc := s_loc st; s_mode := m;
                                              s_pos := s_pos st + k |}]> (streams w))
                                  (next_fp w));
          mret k
      | _, _ => mret 0
      end
  | None => mret 0
  end.

(** [fread(b, 1, size, fp)]: the block with the bytes read, and their
    number. *)
Definition fread (b : block) (size : nat) (fp : nat) : M (nat * block) :=
  _ ← syscall (sys_fread fp size);
  w ← get_world;
  if decide (length b < size) then lift (Fault Overrun) else
  match streams w !! fp with
  | Some st =>
      match files w !! s_loc st with
      | Some (File _ c) =>
          let got := take size (drop (s_pos st) c) in
          _ ← modify (set_streams (<[fp := {| s_loc := s_loc st; s_mode := s_mode st;
                                              s_pos := s_pos st + length got |}]> (streams w))
                                  (next_fp w));
          mret (length got, (Some <$> got) ++ drop (length got) b)
      | _ => mret (0, b)
      end
  | None => mret (0, b)
  end.

Definition fclose (fp : nat) : M unit :=
  _ ← syscall (sys_fclose fp);
  w ← get_world;
  modify (set_streams (delete fp (streams w)) (next_fp w)).

(** [FS_MALLOC(n)]: a fresh block of indeterminate bytes, or [None] for
    NULL when the heap cannot supply it. *)
Definition malloc (n : nat) : M (option block) :=
  _ ← syscall (sys_malloc n);
  w ← get_world;
  if decide (n <= heap_free w)
  then _ ← modify (set_heap_free (heap_free w - n)); mret (Some (replicate n None))
  else mret None.

Definition has_children (fs : gmap loc node) (l : loc) : bool :=
  bool_decide (Exists (fun k : loc => k <> [] /\ tail k = l) (map fst (map_to_list fs))).

(** [remove(p)]: unlink for a file, rmdir for an empty directory; 0 or -1. *)
Definition remove (p : cstring) : M Z :=
  _ ← syscall (sys_remove p);
  w ← get_world;
  match resolve (files w) (cwd w) p with
  | Found l (File _ _) =>
      _ ← modify (set_files (delete l (files w))); mret 0%Z
  | Found l (Dir _) =>
      if dotlike (path_leaf p) || has_children (files w) l
         || bool_decide (l = [])
      then mret (-1)%Z
      else _ ← modify (set_files (delete l (files w))); mret 0%Z
  | _ => mret (-1)%Z
  end.

(** ** The library *)

Inductive fs_file_type :=
  | FS_FILETYPE_NONE
  | FS_FILETYPE_REG
  | FS_FILETYPE_DIR
  | FS_FILETYPE_SYM.

Global Instance fs_file_type_eq_dec : EqDecision fs_file_type.
Proof. solve_decision. Defined.

Record fs_info := { info_type : fs_file_type; info_size : nat; info_modtime : Z }.

Record fs_write_desc := { desc_data : list byte; desc_size : nat }.

(** The loop of [_fs_check_search_path]: [path] is the unread rest of the
    search path, [str] the array the current template is copied into. *)
Fixpoint _fs_check_search_path_loop (fuel : nat) (filename path : cstring)
    (str buf : buffer) (fstat : option stat_t) : M (Z * buffer * option stat_t) :=
  '(t, str) ← lift (_fs_get_template path str);
  match t with
  | None => mret (FS_EFAILURE, buf, fstat)
  | Some path' =>
      match fuel with
      | 0 => lift (Fault Exhausted)
      | S fuel' =>
          tpl ← lift (c_str str);
          '(err, buf) ← lift (_fs_concat_path buf tpl filename);
          if decide (err <> 0%Z) then mret (err, buf, fstat) else
          p ← lift (c_str buf);
          st ← stat p;
          match st with
          | Some s => mret (FS_ESUCCESS, buf, Some s)
          | None => _fs_check_search_path_loop fuel' filename path' str buf fstat
          end
      end
  end.

(** [buf] and [fstat] are the caller's array and [struct stat]; the
    result carries what they hold afterwards. *)
Definition _fs_check_search_path (filename : cstring) (buf : buffer)
    (fstat : option stat_t) : M (Z * buffer * option stat_t) :=
  w ← get_world;
  if decide (_fs_search_path w = []) then mret (FS_ENOSEARCHPATH, buf, fstat) else
  _fs_check_search_path_loop (S (strlen (_fs_search_path w))) filename
    (_fs_search_path w) (char_array FS_MAX_PATH) buf fstat.

(** Reading a local [struct stat] that may never have been filled in. *)
Definition the_stat (fstat : option stat_t) : M stat_t :=
  match fstat with
  | Some st => mret st
  | None => lift (Fault Uninit)
  end.

Definition _fs_get_type (filename : cstring) : M fs_file_type :=
  '(err, _, fstat) ← _fs_check_search_path filename (char_array FS_MAX_PATH) None;
  if decide (err <> FS_ESUCCESS) then mret FS_FILETYPE_NONE else
  st ← the_stat fstat;
  if S_ISREG (st_mode st) then mret FS_FILETYPE_REG
  else if S_ISDIR (st_mode st) then mret FS_FILETYPE_DIR
  else if S_ISLNK (st_mode st) then mret FS_FILETYPE_SYM
  else mret FS_FILETYPE_NONE.

(** [_fs_make_dirs(path)] cuts [path] at its last slash, recurses on the
    shorter path and restores the slash; every round drops at least the
    slash, so [fuel] bounds the depth. *)
Fixpoint _fs_make_dirs_rec (fuel : nat) (path : cstring) : M Z :=
  _ ← match strrchr path "/" with
      | Some i =>
          match fuel with
          | 0 => lift (Fault Exhausted)
          | S fuel' => _fs_make_dirs_rec fuel' (take i path)
          end
      | None => mret 0%Z
      end;
  r ← mkdir path;
  mret (if decide (r = (-1)%Z) then FS_EMKDIRFAIL else FS_ESUCCESS).

Definition _fs_make_dirs (path : cstring) : M Z :=
  _fs_make_dirs_rec (strlen path) path.

(** The [_FS_CREATE_DIR_TREE()] macro: [tree] is the copy of [buf] cut at
    its last slash. *)
Definition _FS_CREATE_DIR_TREE (buf : buffer) : M unit :=
  p ← lift (c_str buf);
  match strrchr p "/" with
  | Some i => _ ← _fs_make_dirs (take i p); mret tt
  | None => mret tt
  end.

Definition fs_set_search_path (path : cstring) : M Z :=
  if decide (FS_MAX_PATH <= strlen path) then mret FS_ETOOLONG else
  _ ← modify (set_search_path path);
  mret FS_ESUCCESS.

Definition fs_set_write_dir (path : cstring) : M Z :=
  if decide (FS_MAX_PATH <= strlen path) then mret FS_ETOOLONG else
  _ ← modify (set_write_dir path);
  mret FS_ESUCCESS.

Definition fs_exists (path : cstring) : M Z :=
  w ← get_world;
  if decide (_fs_search_path w = []) then mret FS_ENOSEARCHPATH else
  t ← _fs_get_type path;
  mret (if decide (t <> FS_FILETYPE_NONE) then FS_ESUCCESS else FS_EFAILURE).

(** [fs_read(name, &size)]: the block returned ([None] for NULL) and what
    the caller's [size] holds afterwards. *)
Definition fs_read (name : cstring) (size : option nat) : M (option block * option nat) :=
  '(err, path, fstat) ← _fs_check_search_path name (char_array FS_MAX_PATH) None;
  if decide (err <> FS_ESUCCESS) then mret (None, size) else
  p ← lift (c_str path);
  fp ← fopen p _FS_MREAD;
  match fp with
  | None => mret (None, size)
  | Some fp =>
      st ← the_stat fstat;
      let size := st_size st in
      b ← malloc size;
      match b with
      | None => mret (None, Some size)
      | Some b =>
          '(_, b) ← fread b size fp;
          _ ← fclose fp;
          mret (Some b, Some size)
      end
  end.

(** [int wsize = fwrite(...)] and [wsize == desc->size] on an LP64
    machine: [int] has 32 bits, [size_t] has 64. *)
Definition int_of_size_t (n : nat) : Z :=
  let m := (Z.of_nat n mod 2 ^ 32)%Z in
  if (m <? 2 ^ 31)%Z then m else (m - 2 ^ 32)%Z.

Definition size_t_of_int (i : Z) : Z := (i mod 2 ^ 64)%Z.

Definition INT_MAX : Z := (2 ^ 31 - 1)%Z.

Definition _fs_write_to_file_ext (path : cstring) (mode : fmode)
    (desc : fs_write_desc) : M Z :=
  if strstr path (cs "..") is Some _ then mret FS_EWRITEFAIL else
  fp ← fopen path mode;
  match fp with
  | None => mret FS_EWRITEFAIL
  | Some fp =>
      k ← fwrite (desc_data desc) (desc_size desc) fp;
      let wsize := int_of_size_t k in
      _ ← fclose fp;
      mret (if decide (size_t_of_int wsize = Z.of_nat (desc_size desc))
            then FS_ESUCCESS else FS_EWRITEFAIL)
  end.

Definition fs_write (name : cstring) (desc : fs_write_desc) : M Z :=
  w ← get_world;
  if decide (_fs_write_dir w = []) then mret FS_ENOWRITEDIR else
  '(err, buf) ← lift (_fs_concat_path (char_array FS_MAX_PATH) (_fs_write_dir w) name);
  if decide (err <> 0%Z) then mret err else
  _ ← _FS_CREATE_DIR_TREE buf;
  p ← lift (c_str buf);
  _fs_write_to_file_ext p _FS_MWRITE desc.

Definition fs_append (name : cstring) (desc : fs_write_desc) : M Z :=
  w ← get_world;
  if decide (_fs_write_dir w = []) then mret FS_ENOWRITEDIR else
  '(err, buf) ← lift (_fs_concat_path (char_array FS_MAX_PATH) (_fs_write_dir w) name);
  if decide (err <> 0%Z) then mret err else
  _ ← _FS_CREATE_DIR_TREE buf;
  p ← lift (c_str buf);
  _fs_write_to_file_ext p _FS_MAPPEND desc.

(** [fs_get_info(path, &info)]: the code returned and what the caller's
    [info] holds afterwards. *)
Definition fs_get_info (path : cstring) (info : option fs_info) : M (Z * option fs_info) :=
  w ← get_world;
  if decide (_fs_search_path w = []) then mret (FS_ENOSEARCHPATH, info) else
  '(err, _, fstat) ← _fs_check_search_path path (char_array FS_MAX_PATH) None;
  if decide (err <> 0%Z) then mret (err, info) else
  st ← the_stat fstat;
  let t := if S_ISREG (st_mode st) then FS_FILETYPE_REG
           else if S_ISDIR (st_mode st) then FS_FILETYPE_DIR
           else if S_ISLNK (st_mode st) then FS_FILETYPE_SYM
           else FS_FILETYPE_NONE in
  mret (FS_ESUCCESS,
        Some {| info_type := t; info_size := st_size st; info_modtime := st_mtime st |}).

Definition fs_mkdir (path : cstring) : M Z :=
  w ← get_world;
  if decide (_fs_write_dir w = []) then mret FS_ENOWRITEDIR else
  '(err, buf) ← lift (_fs_concat_path (char_array FS_MAX_PATH) (_fs_write_dir w) path);
  if decide (err <> 0%Z) then mret err else
  p ← lift (c_str buf);
  _fs_make_dirs p.

Definition fs_delete (name : cstring) : M Z :=
  w ← get_world;
  if decide (_fs_write_dir w = []) then mret FS_ENOWRITEDIR else
  '(err, buf) ← lift (_fs_concat_path (char_array FS_MAX_PATH) (_fs_write_dir w) name);
  if decide (err <> 0%Z) then mret err else
  p ← lift (c_str buf);
  r ← remove p;
  mret (if decide (r <> 0%Z) then FS_EREMOVE else FS_ESUCCESS).

(** *** Read-side resolution, as its callers see it *)

(** [fs_read], [fs_get_info] and [_fs_get_type] all call
    [_fs_check_search_path] on a fresh array and a fresh [struct stat] and
    look at them only on success: the code, and then the path and the
    metadata. *)
Definition resolve_for_read (name : cstring) : M (Z * option (cstring * stat_t)) :=
  '(err, buf, fstat) ← _fs_check_search_path name (char_array FS_MAX_PATH) None;
  if decide (err <> FS_ESUCCESS) then mret (err, None) else
  p ← lift (c_str buf);
  st ← the_stat fstat;
  mret (err, Some (p, st)).

(** The file type both [_fs_get_type] and [fs_get_info] derive from the
    mode. *)
Definition file_type_of (st : stat_t) : fs_file_type :=
  if S_ISREG (st_mode st) then FS_FILETYPE_REG
  else if S_ISDIR (st_mode st) then FS_FILETYPE_DIR
  else if S_ISLNK (st_mode st) then FS_FILETYPE_SYM
  else FS_FILETYPE_NONE.

(** The templates of a search path in configured order: the non-empty
    pieces between separators. *)
Definition templates (sp : cstring) : list cstring :=
  filter (fun t => t <> []) (split_on ";" sp).

(** The candidate paths for [name], one per template. *)
Definition candidates (sp name : cstring) : list cstring :=
  (fun t => expand t name) <$> templates sp.

(** The first candidate that exists, with its metadata. *)
Fixpoint first_existing (fs : gmap loc node) (cwd : loc) (cands : list cstring)
    : option (cstring * stat_t) :=
  match cands with
  | [] => None
  | p :: cands' =>
      match probe fs cwd p with
      | Some st => Some (p, st)
      | None => first_existing fs cwd cands'
      end
  end.

(** The candidates the search gets to: those up to and including the
    first one that exists. *)
Fixpoint tried (fs : gmap loc node) (cwd : loc) (cands : list cstring) : list cstring :=
  match cands with
  | [] => []
  | p :: cands' =>
      p :: match probe fs cwd p with
           | Some _ => []
           | None => tried fs cwd cands'
           end
  end.

(** [fs_write] and [fs_append] are the same pipeline but for the mode the
    file is opened in. *)
Definition write_pipeline (mode : fmode) (name : cstring) (desc : fs_write_desc) : M Z :=
  w ← get_world;
  if decide (_fs_write_dir w = []) then mret FS_ENOWRITEDIR else
  '(err, buf) ← lift (_fs_concat_path (char_array FS_MAX_PATH) (_fs_write_dir w) name);
  if decide (err <> 0%Z) then mret err else
  _ ← _FS_CREATE_DIR_TREE buf;
  p ← lift (c_str buf);
  _fs_write_to_file_ext p mode desc.

(** The search path and the write directory resolve a name to the same
    place: they are one and the same single template, stored by the
    setters. *)
Definition same_location (w : world) : Prop :=
  _fs_search_path w = _fs_write_dir w /\
  strchr (_fs_write_dir w) ";" = None /\
  strlen (_fs_write_dir w) < FS_MAX_PATH.

(** *** Multi-segment names *)

(** A proper path segment: a name other than ["."] and [".."], without a
    slash. *)
Definition segment (s : cstring) : Prop :=
  s <> [] /\ strchr s "/" = None /\ s <> cs "." /\ s <> cs "..".

(** [join q [s1; ...; sn]] is the path [q/s1/.../sn]. *)
Definition join (q : cstring) (segs : list cstring) : cstring :=
  foldl (fun acc s => acc ++ "/"%char :: s) q segs.

(** The logical name [s1/.../sn]. *)
Definition path_of (segs : list cstring) : cstring :=
  match segs with
  | [] => []
  | s :: segs' => join s segs'
  end.

(** The paths [q/s1], [q/s1/s2], ..., [q/s1/.../sn], outermost first. *)
Fixpoint trail (q : cstring) (segs : list cstring) : list cstring :=
  match segs with
  | [] => []
  | s :: segs' => (q ++ "/"%char :: s) :: trail (q ++ "/"%char :: s) segs'
  end.

(** The directory entries these paths name below the directory [d]. *)
Fixpoint trail_locs (d : loc) (segs : list cstring) : list loc :=
  match segs with
  | [] => []
  | s :: segs' => (s :: d) :: trail_locs (s :: d) segs'
  end.

Definition descend (d : loc) (segs : list cstring) : loc :=
  foldl (fun l s => s :: l) d segs.

(** ** Running a call *)

(** The value a call returns, when it returns. *)
Definition result {A} (m : M A) (w : world) : outcome A :=
  match m w with
  | Ret (a, _) => Ret a
  | Fault f => Fault f
  end.

(** The world a call leaves behind (the world it started in, if it
    faults). *)
Definition after {A} (m : M A) (w : world) : world :=
  match m w with
  | Ret (_, w') => w'
  | Fault _ => w
  end.

(** A process just started in the directory [/sandbox], nothing
    configured. *)
Definition boot : world :=
  {| _fs_search_path := []; _fs_write_dir := [];
     files := {[ [] := Dir 0; [cs "sandbox"] := Dir 0 ]};
     cwd := [cs "sandbox"]; streams := ∅; next_fp := 0;
     heap_free := 4096; disk_free := 4096; now := 1; calls := [] |}.

Definition bytes (s : string) : list byte := list_byte_of_string s.

Definition payload (s : string) : fs_write_desc :=
  {| desc_data := bytes s; desc_size := length (bytes s) |}.

(** The same process once [fs_set_search_path("./?")] and
    [fs_set_write_dir("./?")] have run, as in the test suite. *)
Definition configured : world :=
  set_write_dir (cs "./?") (set_search_path (cs "./?") boot).

(** [configured], with a file [/victim.txt] that lies outside the write
    directory [/sandbox]. *)
Definition with_victim : world :=
  set_files (<[ [cs "victim.txt"] := File 0 (bytes "keep") ]> (files configured)) configured.

(** [configured] after [example.txt] was written, with the heap used up. *)
Definition heap_exhausted : world :=
  set_heap_free 0 (after (fs_write (cs "example.txt") (payload "quick brown fox")) configured).

(** [configured] with the file [f.txt] in the directories [a] and [b] and
    a search path of three templates, the first of which leads nowhere. *)
Definition two_copies : world :=
  after (_ ← fs_write (cs "a/f.txt") (payload "first");
         _ ← fs_write (cs "b/f.txt") (payload "second");
         fs_set_search_path (cs "./none/?;./a/?;./b/?")) configured.

(** A name of exactly [FS_MAX_PATH] characters. *)
Definition long_name : cstring := replicate FS_MAX_PATH "a"%char.

(** [configured] after [example.txt] was written. *)
Definition with_example : world :=
  after (fs_write (cs "example.txt") (payload "quick brown fox")) configured.

(** [configured] after [fs_mkdir("foo")]. *)
Definition with_foo : world := after (fs_mkdir (cs "foo")) configured.

(** ** The rest of the interface *)

(** [fs_strerror(err)]: the [switch] over the error codes. *)
Definition fs_strerror (err : Z) : cstring :=
  if decide (err = FS_ESUCCESS) then cs "success"
  else if decide (err = FS_EFAILURE) then cs "failure"
  else if decide (err = FS_ETOOLONG) then cs "path too long"
  else if decide (err = FS_ENOWRITEDIR) then cs "no write directory"
  else if decide (err = FS_EWRITEFAIL) then cs "could not write to file"
  else if decide (err = FS_EMKDIRFAIL) then cs "could not make directory"
  else if decide (err = FS_ENOSEARCHPATH) then cs "no search path"
  else if decide (err = FS_EREMOVE) then cs "could not delete file or directory"
  else cs "unknown error".

(** The codes of the [enum]. *)
Definition error_codes : list Z :=
  [FS_ESUCCESS; FS_EFAILURE; FS_ETOOLONG; FS_ENOWRITEDIR; FS_EWRITEFAIL;
   FS_EMKDIRFAIL; FS_ENOSEARCHPATH; FS_EREMOVE].

(** [fs_get_search_path()] and [fs_get_write_dir()] return the address of
    the global array; the result here is the string a caller reads there
    on return. *)
Definition fs_get_search_path : M cstring :=
  w ← get_world; mret (_fs_search_path w).

Definition fs_get_write_dir : M cstring :=
  w ← get_world; mret (_fs_write_dir w).

(** The absolute path of a directory entry: the names from the root down,
    each after a slash. *)
Definition abs_path (l : loc) : cstring :=
  match rev l with
  | [] => cs "/"
  | s :: segs => foldl (fun acc s => acc ++ "/"%char :: s) ("/"%char :: s) segs
  end.

(** A C string written to the start of a block: its characters and the
    terminator, the bytes after them as they were. *)
Definition strcpy_block (b : block) (s : cstring) : block :=
  (Some <$> (byte_of_ascii <$> s)) ++ Some x00 :: drop (S (length s)) b.

(** [getcwd(buf, size)]: [buf] filled with the absolute path of the
    working directory, or [None] for NULL when the path and its terminator
    take more than [size] bytes (ERANGE) or the directory is gone
    (ENOENT).  With [buf] NULL the supported platforms have [getcwd]
    allocate [size] bytes itself.  ([calls] has no entry for [getcwd]
    and [free]; the allocation is on record.) *)
Definition getcwd (buf : option block) (size : nat) : M (option block) :=
  buf ← match buf with
        | Some b => mret (Some b)
        | None => malloc size
        end;
  w ← get_world;
  match buf with
  | None => mret None
  | Some b =>
      if negb (is_dir (files w) (cwd w)) then mret None
      else if decide (size <= length (abs_path (cwd w))) then mret None
      else if decide (length b < size) then lift (Fault Overrun)
      else mret (Some (strcpy_block b (abs_path (cwd w))))
  end.

Definition fs_get_cwd : M (option block) :=
  cwd ← malloc FS_MAX_PATH;
  getcwd cwd FS_MAX_PATH.

(** [FS_FREE(p)]: the bytes of the block go back to the heap; freeing
    NULL does nothing. *)
Definition free (p : option block) : M unit :=
  match p with
  | Some b => w ← get_world; modify (set_heap_free (heap_free w + length b))
  | None => mret tt
  end.

Definition fs_free (p : option block) : M unit := free p.

(** *** Observations *)

(** Two worlds that differ at most in the record of system calls. *)
Definition same_state (w w' : world) : Prop :=
  _fs_search_path w' = _fs_search_path w /\ _fs_write_dir w' = _fs_write_dir w /\
  files w' = files w /\ cwd w' = cwd w /\ streams w' = streams w /\
  next_fp w' = next_fp w /\ heap_free w' = heap_free w /\
  disk_free w' = disk_free w /\ now w' = now w.

(** Every call that returns relates the world before to the world
    after. *)
Definition keeps {A} (R : relation world) (m : M A) : Prop :=
  forall w a w', m w = Ret (a, w') -> R w w'.

(** The part of the world an observation [obs] sees is left as it was. *)
Definition unchanged {X} (obs : world -> X) : relation world :=
  fun w w' => obs w' = obs w.

(** What [fs_read] may change is the open streams, the heap and the record
    of calls; this is the rest. *)
Definition beside_streams_and_heap (w : world) :=
  (_fs_search_path w, _fs_write_dir w, files w, cwd w, disk_free w, now w).

(** [fopen(p, mode)] for writing or appending finds the entry [l] to write
    to: a free name in an existing directory, or a regular file, whose
    contents [prior] are kept when appending and dropped when writing. *)
Definition writable (fs : gmap loc node) (cwd : loc) (p : cstring) (mode : fmode)
    (l : loc) (prior : list byte) : Prop :=
  (resolve fs cwd p = Creatable l /\ prior = []) \/
  (exists t0 c0, resolve fs cwd p = Found l (File t0 c0) /\
                 prior = if mode is _FS_MAPPEND then c0 else []).

(** An entry that [remove] takes away: a regular file, or a directory
    other than the root that is empty and is not named through
    a trailing ["."], [".."] or slash. *)
Definition removable (fs : gmap loc node) (p : cstring) (l : loc) (n : node) : Prop :=
  match n with
  | File _ _ => True
  | Dir _ => (forall c, fs !! (c :: l) = None) /\ l <> [] /\ dotlike (path_leaf p) = false
  end.

(** What no call but the setters (and, for the heap, [fs_read],
    [fs_get_cwd] and [fs_free]) has a reason to touch. *)
Definition configuration (w : world) :=
  (_fs_search_path w, _fs_write_dir w, cwd w, heap_free w).

(** The code [_fs_write_to_file_ext] makes of the [k] bytes [fwrite]
    reports for a payload of [size] bytes: [int wsize = k] and then
    [wsize == size]. *)
Definition write_code (k size : nat) : Z :=
  if decide (size_t_of_int (int_of_size_t k) = Z.of_nat size)
  then FS_ESUCCESS else FS_EWRITEFAIL.

(** The most an object can take: [PTRDIFF_MAX] on an LP64 machine. *)
Definition PTRDIFF_MAX : Z := (2 ^ 63 - 1)%Z.

(** *** More worlds *)


(** [configured] after [fs_mkdir("foo/bar")]. *)
Definition with_foo_bar : world := after (fs_mkdir (cs "foo/bar")) configured.

(** A process whose working directory has a name of 300 characters. *)
Definition deep : world :=
  {| _fs_search_path := []; _fs_write_dir := [];
     files := {[ [] := Dir 0; [replicate 300 "d"%char] := Dir 0 ]};
     cwd := [replicate 300 "d"%char]; streams := ∅; next_fp := 0;
     heap_free := 4096; disk_free := 4096; now := 1; calls := [] |}.

(** A payload of [2^31] zero bytes, one more than [INT_MAX], and
    [configured] with room for it on the disk. *)
Definition two_gib : nat := Z.to_nat (2 ^ 31).

Definition huge : fs_write_desc :=
  {| desc_data := replicate two_gib x00; desc_size := two_gib |}.

Definition roomy : world := set_disk_free two_gib configured.

(** * Verification *)

(** ** C string functions *)

Lemma strstr_mark (s : cstring) : strstr s FS_PATH_MARK = strchr s "?".
Proof.
  induction s as [|x s IH]; [done|].
  cbn [strstr strchr]. unfold FS_PATH_MARK at 1. cbn [cs list_ascii_of_string starts_with].
  destruct (decide ("?"%char = x)) as [->|Hne].
  - by rewrite decide_True.
  - rewrite decide_False by congruence. by rewrite IH.
Qed.

Lemma strchr_Some (s : cstring) c k :
  strchr s c = Some k ->
  k < length s /\ s !! k = Some c /\ strchr (take k s) c = None.
Proof.
  revert k. induction s as [|x s IH]; intros k; [done|].
  cbn [strchr]. destruct (decide (x = c)) as [->|Hne].
  - intros [= <-]. cbn. split; [lia|done].
  - destruct (strchr s c) as [j|] eqn:E; [|done].
    intros [= <-]. destruct (IH j eq_refl) as (? & ? & ?).
    cbn. rewrite decide_False by done. rewrite H1. split; [lia|done].
Qed.

Lemma strchr_None (s : cstring) c : strchr s c = None <-> c ∉ s.
Proof.
  induction s as [|x s IH]; cbn [strchr].
  - split; [intros _; apply not_elem_of_nil|done].
  - destruct (decide (x = c)) as [->|Hne].
    + split; [done|]. intros H. destruct H. left.
    + destruct (strchr s c) eqn:E; cbn.
      * split; [done|]. intros H. exfalso. apply H. right.
        destruct (decide (c ∈ s)) as [|Hn]; [done|]. by apply IH in Hn.
      * split; [|done]. intros _ [->%eq_sym|H]%elem_of_cons; [done|].
        by apply IH in H.
Qed.

Lemma strrchr_None (s : cstring) c : strrchr s c = None <-> strchr s c = None.
Proof.
  induction s as [|x s IH]; cbn [strchr strrchr]; [done|].
  destruct (decide (x = c)).
  - destruct (strrchr s c); split; done.
  - destruct (strrchr s c), (strchr s c); cbn; try done.
    + destruct IH as [_ IH]. by specialize (IH eq_refl).
    + destruct IH as [IH _]. by specialize (IH eq_refl).
Qed.

Lemma strrchr_Some (s : cstring) c k :
  strrchr s c = Some k ->
  k < length s /\ s !! k = Some c /\ strchr (drop (S k) s) c = None.
Proof.
  revert k. induction s as [|x s IH]; intros k; [done|].
  cbn [strrchr]. destruct (strrchr s c) as [j|] eqn:E.
  - intros [= <-]. destruct (IH j eq_refl) as (? & ? & ?). cbn. split; [lia|done].
  - destruct (decide (x = c)) as [->|]; [|done].
    intros [= <-]. cbn. rewrite drop_0. split; [lia|]. split; [done|].
    by apply strrchr_None.
Qed.

(** ** The substitution routine *)

Lemma upto_last_mark_cons x (s : cstring) :
  is_Some (strchr (x :: s) "?") ->
  upto_last_mark (x :: s) = x :: upto_last_mark s \/
  (strchr s "?" = None /\ x = "?"%char /\ upto_last_mark (x :: s) = [x]).
Proof.
  unfold upto_last_mark. change (deref FS_PATH_MARK) with "?"%char.
  cbn [strrchr strchr]. intros Hs.
  destruct (strrchr s "?") as [i|] eqn:E.
  - left. done.
  - apply strrchr_None in E. rewrite E in Hs |- *.
    destruct (decide (x = "?"%char)) as [->|]; cbn in *.
    + left. done.
    + by destruct Hs.
Qed.

Lemma expand_nomark (s r : cstring) : strchr s "?" = None -> expand s r = [].
Proof.
  intros H%strrchr_None. unfold expand, upto_last_mark.
  change (deref FS_PATH_MARK) with "?"%char. by rewrite H.
Qed.

Lemma expand_mark (s r : cstring) k :
  strchr s "?" = Some k ->
  expand s r = take k s ++ r ++ expand (drop (S k) s) r.
Proof.
  revert k. induction s as [|x s IH]; intros k Hk; [done|].
  assert (Hup : upto_last_mark (x :: s) = x :: upto_last_mark s).
  { destruct (upto_last_mark_cons x s) as [|(Hn & -> & ->)]; [by rewrite Hk|done|].
    apply strrchr_None in Hn. unfold upto_last_mark.
    change (deref FS_PATH_MARK) with "?"%char. by rewrite Hn. }
  unfold expand in *. rewrite Hup. cbn [gsub strchr] in *.
  unfold FS_PATH_MARK at 1. cbn [cs list_ascii_of_string].
  destruct (decide (x = "?"%char)) as [->|Hne].
  - injection Hk as <-. rewrite decide_True by done. done.
  - rewrite decide_False by (intros [= ->]; done).
    destruct (strchr s "?") as [j|] eqn:E; [|done].
    injection Hk as <-. cbn. by rewrite (IH j eq_refl).
Qed.

Lemma c_str_terminated (s : cstring) (rest : buffer) :
  c_str ((Chr <$> s) ++ NUL :: rest) = Ret s.
Proof. induction s as [|c s IH]; [done|]. cbn. by rewrite IH. Qed.

Lemma memcpy_Ret (b : buffer) n (src : cstring) l :
  n + l <= length b -> l <= length src ->
  exists b', memcpy b n src l = Ret b' /\ length b' = length b /\
             take (n + l) b' = take n b ++ (Chr <$> take l src).
Proof.
  intros Hb Hl. unfold memcpy. rewrite decide_True by done.
  eexists. split; [done|].
  assert (Hlen : length (take n b ++ (Chr <$> take l src)) = n + l).
  { rewrite length_app, length_fmap, !length_take. lia. }
  split.
  - rewrite !length_app, length_fmap, !length_take, length_drop. lia.
  - rewrite app_assoc. rewrite take_app_length'; done.
Qed.

Lemma memcpy_Fault (b : buffer) n (src : cstring) l :
  length b < n + l -> memcpy b n src l = Fault Overrun.
Proof. intros. unfold memcpy. rewrite decide_False; [done|lia]. Qed.

Lemma CONCAT_cases (b : buffer) n (src : cstring) l :
  l <= length src -> n <= length b ->
  (n + l <= length b /\ exists b', CONCAT b n src l = Ret (b', n + l) /\
     length b' = length b /\ take (n + l) b' = take n b ++ (Chr <$> take l src)) \/
  (length b < n + l /\ CONCAT b n src l = Fault Overrun).
Proof.
  intros Hl Hn. destruct (decide (n + l <= length b)) as [Hb|Hb].
  - left. split; [done|]. destruct l as [|l].
    + exists b. cbn. rewrite Nat.add_0_r, app_nil_r. done.
    + destruct (memcpy_Ret b n src (S l) Hb Hl) as (b' & E & ? & ?).
      exists b'. cbn [CONCAT]. rewrite E. done.
  - right. split; [lia|]. destruct l as [|l]; [exfalso; lia|].
    cbn [CONCAT]. rewrite memcpy_Fault by lia. done.
Qed.

(** What the loop does from any point on: with [n] bytes accumulated it
    either terminates the string after the expansion of the rest of the
    template, or reports TooLong, or has written past the array. *)
Lemma concat_path_loop_spec (r : cstring) fuel : forall (s : cstring) (buf : buffer) n,
  length s < fuel -> length buf = FS_MAX_PATH -> n < FS_MAX_PATH ->
  match _fs_concat_path_loop fuel buf n s r with
  | Ret (e, buf') =>
      length buf' = FS_MAX_PATH /\
      ((e = FS_ESUCCESS /\ n + length (expand s r) < FS_MAX_PATH /\
        exists rest, buf' = take n buf ++ (Chr <$> expand s r) ++ NUL :: rest) \/
       (e = FS_ETOOLONG /\ FS_MAX_PATH <= n + length (expand s r)))
  | Fault f => f = Overrun /\ FS_MAX_PATH < n + length (expand s r)
  end.
Proof.
  induction fuel as [|fuel IH]; intros s buf n Hfuel Hbuf Hn; [lia|].
  cbn [_fs_concat_path_loop]. rewrite strstr_mark.
  destruct (strchr s "?") as [k|] eqn:Hk.
  - destruct (strchr_Some _ _ _ Hk) as (Hklt & _ & _).
    rewrite (expand_mark _ _ _ Hk), !length_app, length_take.
    replace (k `min` length s) with k by lia.
    destruct (CONCAT_cases buf n s k) as [(Hb1 & buf1 & -> & Hl1 & Ht1)|(Hb1 & ->)];
      [lia|lia| |cbn; split; [done|lia]].
    cbn [mbind outcome_bind].
    destruct (CONCAT_cases buf1 (n + k) r (strlen r))
      as [(Hb2 & buf2 & -> & Hl2 & Ht2)|(Hb2 & ->)];
      [done|lia| |cbn; split; [done|unfold strlen in *; lia]].
    cbn [mbind outcome_bind]. unfold strlen in *. rewrite firstn_all in Ht2.
    destruct (decide (FS_MAX_PATH <= n + k + length r)) as [Hbig|Hsmall].
    + split; [lia|]. right. split; [done|lia].
    + specialize (IH (drop (k + length FS_PATH_MARK) s) buf2 (n + k + length r)).
      rewrite length_drop in IH. change (length FS_PATH_MARK) with 1 in *.
      replace (k + 1) with (S k) in * by lia.
      specialize (IH ltac:(lia) ltac:(lia) ltac:(lia)).
      destruct (_fs_concat_path_loop _ _ _ _ _) as [[e buf']|f].
      * destruct IH as [Hl' [(-> & Hfit & rest & ->)|(-> & Hlong)]].
        -- split; [done|]. left. split; [done|]. split; [lia|].
           exists rest. rewrite Ht2, Ht1, !fmap_app, <- !app_assoc. done.
        -- split; [done|]. right. split; [done|lia].
      * destruct IH as [-> ?]. split; [done|lia].
  - rewrite (expand_nomark _ _ Hk). cbn [length]. unfold store_nul.
    rewrite decide_True by lia. cbn. rewrite length_insert. split; [done|].
    left. split; [done|]. split; [lia|].
    exists (drop (S n) buf). rewrite <- (take_drop n buf) at 1.
    rewrite insert_app_r_alt by (rewrite length_take; lia).
    rewrite length_take. replace (n - n `min` length buf) with 0 by lia.
    destruct (drop n buf) as [|c rest] eqn:E.
    { apply (f_equal length) in E. rewrite length_drop in E. cbn in E. lia. }
    cbn. do 2 f_equal. replace (S n) with (n + 1) by lia.
    rewrite <- drop_drop, E. done.
Qed.

(** The routine as a whole, on an array of [FS_MAX_PATH] bytes. *)
Lemma concat_path_spec (buf : buffer) (path filename : cstring) :
  length buf = FS_MAX_PATH ->
  match _fs_concat_path buf path filename with
  | Ret (e, buf') =>
      length buf' = FS_MAX_PATH /\
      ((e = FS_ESUCCESS /\ length (expand path filename) < FS_MAX_PATH /\
        c_str buf' = Ret (expand path filename)) \/
       (e = FS_ETOOLONG /\ FS_MAX_PATH <= length (expand path filename)))
  | Fault f => f = Overrun /\ FS_MAX_PATH < length (expand path filename)
  end.
Proof.
  intros Hbuf. unfold _fs_concat_path.
  pose proof (concat_path_loop_spec filename (S (strlen path)) path buf 0) as H.
  specialize (H ltac:(unfold strlen; lia) Hbuf ltac:(unfold FS_MAX_PATH; lia)).
  destruct (_fs_concat_path_loop _ _ _ _ _) as [[e buf']|f]; [|done].
  destruct H as [Hl [(-> & Hfit & rest & ->)|(-> & Hlong)]].
  - split; [done|]. left. split; [done|]. split; [done|].
    rewrite take_0. apply c_str_terminated.
  - split; [done|]. right. done.
Qed.

(** ** Defects, by evaluation *)

(** C1.  The routine does not perform the global substitution of the
    marker: for the template ["?.txt"] and the name ["a"] the result fits
    the array, the substitution is ["a.txt"], and the array holds ["a"]:
    the text after the last marker is never copied. *)
Theorem concat_path_drops_suffix :
  ('(e, buf) ← _fs_concat_path (char_array FS_MAX_PATH) (cs "?.txt") (cs "a");
   p ← c_str buf; mret (e, p)) = Ret (FS_ESUCCESS, cs "a") /\
  gsub (cs "?.txt") (cs "a") = cs "a.txt" /\
  length (gsub (cs "?.txt") (cs "a")) < FS_MAX_PATH.
Proof. split; [|split]; vm_compute; [reflexivity..|lia]. Qed.

(** C3.  The length check comes after the copy: for the template ["?"]
    and a name of 300 characters [memcpy] writes past the
    [FS_MAX_PATH]-byte array before TooLong could be returned, and every
    public operation that builds a path inherits the overrun. *)
Theorem concat_path_overruns :
  _fs_concat_path (char_array FS_MAX_PATH) (cs "?") (replicate 300 "a"%char)
    = Fault Overrun /\
  result (fs_write (replicate 300 "a"%char) (payload "x")) configured = Fault Overrun /\
  result (fs_exists (replicate 300 "a"%char)) configured = Fault Overrun.
Proof. repeat split; vm_compute; reflexivity. Qed.

(** C2.  A name with a parent-directory segment escapes the write
    directory [/sandbox]: [fs_mkdir] creates [/evil] and succeeds,
    [fs_delete] removes [/victim.txt] and succeeds, and [fs_write] reports
    WriteFail only after it has created the directory [/x]. *)
Theorem traversal_escapes_write_dir :
  (result (fs_mkdir (cs "../evil")) configured = Ret FS_ESUCCESS /\
   files configured !! [cs "evil"] = None /\
   files (after (fs_mkdir (cs "../evil")) configured) !! [cs "evil"] = Some (Dir 1)) /\
  (result (fs_delete (cs "../victim.txt")) with_victim = Ret FS_ESUCCESS /\
   files with_victim !! [cs "victim.txt"] = Some (File 0 (bytes "keep")) /\
   files (after (fs_delete (cs "../victim.txt")) with_victim) !! [cs "victim.txt"] = None) /\
  (result (fs_write (cs "../x/y.txt") (payload "!!")) configured = Ret FS_EWRITEFAIL /\
   files configured !! [cs "x"] = None /\
   files (after (fs_write (cs "../x/y.txt") (payload "!!")) configured) !! [cs "x"]
     = Some (Dir 1)).
Proof. repeat split; vm_compute; reflexivity. Qed.

(** C9.  [fs_read] leaks the stream when [malloc] fails: with the heap
    used up it returns NULL after [fopen] succeeded, and the stream it
    opened is still open afterwards. *)
Theorem fs_read_leaks_stream :
  streams heap_exhausted = ∅ /\
  result (fs_read (cs "example.txt") None) heap_exhausted = Ret (None, Some 15) /\
  streams (after (fs_read (cs "example.txt") None) heap_exhausted) !! 1
    = Some {| s_loc := [cs "example.txt"; cs "sandbox"]; s_mode := _FS_MREAD; s_pos := 0 |}.
Proof. repeat split; vm_compute; reflexivity. Qed.

(** ** Running the monad *)

Lemma bind_run {A B} (m : M A) (k : A -> M B) (w : world) :
  (m ≫= k) w = match m w with Ret (a, w') => k a w' | Fault f => Fault f end.
Proof. reflexivity. Qed.

Lemma bind_Ret_inv {A B} (m : M A) (k : A -> M B) w b w'' :
  (m ≫= k) w = Ret (b, w'') ->
  exists a w', m w = Ret (a, w') /\ k a w' = Ret (b, w'').
Proof.
  rewrite bind_run. destruct (m w) as [[a w']|]; [|done]. intros. by exists a, w'.
Qed.

Lemma result_Ret_inv {A} (m : M A) w a :
  result m w = Ret a -> exists w', m w = Ret (a, w').
Proof.
  unfold result. destruct (m w) as [[a' w']|]; [|done]. intros [= ->]. by exists w'.
Qed.

Ltac msimpl :=
  unfold syscall; unfold mbind, M_bind, mret, M_ret, get_world, modify;
  cbn beta iota;
  cbn [_fs_search_path _fs_write_dir files cwd streams next_fp heap_free disk_free
       now calls set_search_path set_write_dir set_files set_streams set_heap_free
       set_disk_free log_call].

(** ** Unconfigured state *)

(** C8.  With the write directory empty, [fs_write], [fs_append],
    [fs_mkdir] and [fs_delete] return NoWriteDir and leave the world as it
    was (no system call is made); with the search path empty, [fs_exists]
    and [fs_get_info] return NoSearchPath and [fs_read] returns NULL, the
    world and the caller's [info] and [size] untouched. *)
Theorem unconfigured_fails_fast (w : world) (name : cstring) (desc : fs_write_desc)
    (info : option fs_info) (size : option nat) :
  (_fs_write_dir w = [] ->
   fs_write name desc w = Ret (FS_ENOWRITEDIR, w) /\
   fs_append name desc w = Ret (FS_ENOWRITEDIR, w) /\
   fs_mkdir name w = Ret (FS_ENOWRITEDIR, w) /\
   fs_delete name w = Ret (FS_ENOWRITEDIR, w)) /\
  (_fs_search_path w = [] ->
   fs_exists name w = Ret (FS_ENOSEARCHPATH, w) /\
   fs_get_info name info w = Ret ((FS_ENOSEARCHPATH, info), w) /\
   fs_read name size w = Ret ((None, size), w)).
Proof.
  split; intros H.
  - unfold fs_write, fs_append, fs_mkdir, fs_delete. msimpl.
    rewrite !decide_True by done. done.
  - unfold fs_exists, fs_get_info, fs_read, _fs_check_search_path. msimpl.
    rewrite !decide_True by done. done.
Qed.

Lemma unconfigured_fails_fast_witness :
  (fs_write (cs "example.txt") (payload "quick brown fox") boot = Ret (FS_ENOWRITEDIR, boot) /\
   fs_append (cs "example.txt") (payload "quick brown fox") boot = Ret (FS_ENOWRITEDIR, boot) /\
   fs_mkdir (cs "example.txt") boot = Ret (FS_ENOWRITEDIR, boot) /\
   fs_delete (cs "example.txt") boot = Ret (FS_ENOWRITEDIR, boot)) /\
  (fs_exists (cs "example.txt") boot = Ret (FS_ENOSEARCHPATH, boot) /\
   fs_get_info (cs "example.txt") None boot = Ret ((FS_ENOSEARCHPATH, None), boot) /\
   fs_read (cs "example.txt") None boot = Ret ((None, None), boot)).
Proof.
  destruct (unconfigured_fails_fast boot (cs "example.txt") (payload "quick brown fox")
              None None) as [Hw Hr].
  split; [apply Hw; reflexivity|apply Hr; reflexivity].
Defined.

(** ** Templates without a marker *)

Lemma concat_path_nomark (buf : buffer) (path filename : cstring) :
  strstr path FS_PATH_MARK = None -> 0 < length buf ->
  _fs_concat_path buf path filename = Ret (FS_ESUCCESS, <[0 := NUL]> buf) /\
  c_str (<[0 := NUL]> buf) = Ret [].
Proof.
  intros Hno Hlen. unfold _fs_concat_path. cbn [_fs_concat_path_loop].
  rewrite Hno. unfold store_nul. rewrite decide_True by done.
  split; [done|]. destruct buf; [cbn in Hlen; lia|done].
Qed.

(** ** Path resolution *)

Lemma is_dir_true (fs : gmap loc node) l :
  is_dir fs l = true <-> exists t, fs !! l = Some (Dir t).
Proof.
  unfold is_dir. destruct (fs !! l) as [[]|]; split; try done; eauto.
  - intros [? [=]].
  - intros [? [=]].
Qed.

Lemma is_dir_weaken (fs fs' : gmap loc node) l :
  fs ⊆ fs' -> is_dir fs l = true -> is_dir fs' l = true.
Proof.
  intros Hsub [t Ht]%is_dir_true. apply is_dir_true. exists t.
  by eapply lookup_weaken.
Qed.

Lemma walk_ext (fs fs' : gmap loc node) comps : forall cur d,
  (forall x, is_dir fs x = true -> is_dir fs' x = true) ->
  walk fs cur comps = Some d -> walk fs' cur comps = Some d.
Proof.
  induction comps as [|c comps IH]; intros cur d Hext; [done|].
  cbn [walk]. unfold enter.
  destruct (is_dir fs (step cur c)) eqn:E; [|done].
  rewrite (Hext _ E). cbn. by apply IH.
Qed.

Lemma path_dir_ext (fs fs' : gmap loc node) cwd p d :
  (forall x, is_dir fs x = true -> is_dir fs' x = true) ->
  path_dir fs cwd p = Some d -> path_dir fs' cwd p = Some d.
Proof.
  intros Hext. unfold path_dir. destruct p as [|c0 p]; [done|].
  destruct (is_dir fs (path_start cwd (c0 :: p))) eqn:E; [|done].
  rewrite (Hext _ E). by apply walk_ext.
Qed.

Lemma resolve_Found (fs : gmap loc node) cwd p l n :
  resolve fs cwd p = Found l n <->
  exists d, path_dir fs cwd p = Some d /\ l = step d (path_leaf p) /\ fs !! l = Some n.
Proof.
  unfold resolve. destruct (path_dir fs cwd p) as [d|].
  - destruct (fs !! step d (path_leaf p)) as [n'|] eqn:E.
    + split.
      * intros [= <- <-]. by exists d.
      * intros (d' & [= <-] & -> & Hn). rewrite E in Hn. by injection Hn as ->.
    + split.
      * by destruct (dotlike _).
      * intros (d' & [= <-] & -> & Hn). by rewrite E in Hn.
  - split; [done|]. by intros (d' & [=] & _).
Qed.

Lemma resolve_Creatable (fs : gmap loc node) cwd p l :
  resolve fs cwd p = Creatable l <->
  exists d, path_dir fs cwd p = Some d /\ l = step d (path_leaf p) /\ fs !! l = None /\
            dotlike (path_leaf p) = false.
Proof.
  unfold resolve. destruct (path_dir fs cwd p) as [d|].
  - destruct (fs !! step d (path_leaf p)) as [n'|] eqn:E.
    + split; [done|]. intros (d' & [= <-] & -> & Hn & _). by rewrite E in Hn.
    + destruct (dotlike _) eqn:Ed; split; try done.
      * by intros (d' & [= <-] & -> & _ & ?).
      * intros [= <-]. by exists d.
      * intros (d' & [= <-] & -> & _). done.
  - split; [done|]. by intros (d' & [=] & _).
Qed.



(** ** Directory creation only adds directories *)

(** [grows w w']: the world [w'] is [w] with more system calls on record
    and possibly more directories. *)
Record grows (w w' : world) : Prop := {
  grows_search_path : _fs_search_path w' = _fs_search_path w;
  grows_write_dir : _fs_write_dir w' = _fs_write_dir w;
  grows_cwd : cwd w' = cwd w;
  grows_streams : streams w' = streams w;
  grows_next_fp : next_fp w' = next_fp w;
  grows_heap_free : heap_free w' = heap_free w;
  grows_disk_free : disk_free w' = disk_free w;
  grows_now : now w' = now w;
  grows_files : files w ⊆ files w';
  grows_dirs : forall l n, files w' !! l = Some n -> files w !! l = None ->
                           exists t, n = Dir t;
}.

Lemma grows_refl w : grows w w.
Proof. split; try done. intros l n H1 H2. by rewrite H1 in H2. Qed.

Lemma grows_trans w1 w2 w3 : grows w1 w2 -> grows w2 w3 -> grows w1 w3.
Proof.
  intros [] []. split; try congruence.
  - by etrans.
  - intros l n H3 H1. destruct (files w2 !! l) as [n2|] eqn:E2.
    + assert (n = n2) as ->; [|eauto].
      eapply lookup_weaken in E2; [|done]. congruence.
    + eauto.
Qed.

Lemma mkdir_grows (p : cstring) (w : world) :
  exists r w', mkdir p w = Ret (r, w') /\ grows w w' /\
               calls w' = sys_mkdir p :: calls w.
Proof.
  unfold mkdir. msimpl.
  destruct (resolve (files w) (cwd w) p) as [l n|l|] eqn:E; msimpl.
  - eexists _, _. split; [done|]. split; [|done]. split; try done.
    cbn. intros l' n' H1 H2. by rewrite H1 in H2.
  - apply resolve_Creatable in E as (d & _ & _ & Hl & _).
    eexists _, _. split; [done|]. split; [|done]. split; try done; cbn.
    + by apply insert_subseteq.
    + intros l' n'. destruct (decide (l = l')) as [<-|Hne].
      * rewrite lookup_insert_eq. intros [= <-]. eauto.
      * rewrite lookup_insert_ne by done. intros H1 H2. by rewrite H1 in H2.
  - eexists _, _. split; [done|]. split; [|done]. split; try done.
    cbn. intros l' n' H1 H2. by rewrite H1 in H2.
Qed.

Lemma make_dirs_rec_grows fuel : forall (p : cstring) (w : world),
  length p <= fuel ->
  exists r w', _fs_make_dirs_rec fuel p w = Ret (r, w') /\ grows w w'.
Proof.
  induction fuel as [|fuel IH]; intros p w Hlen.
  - destruct p; [|cbn in Hlen; lia]. cbn [_fs_make_dirs_rec strrchr]. rewrite bind_run.
    cbn [mret M_ret]. rewrite bind_run.
    destruct (mkdir_grows [] w) as (r & w' & -> & Hg & _).
    eexists _, _. split; [done|done].
  - cbn [_fs_make_dirs_rec]. rewrite bind_run.
    destruct (strrchr p "/") as [i|] eqn:Ei.
    + apply strrchr_Some in Ei as (Hi & _ & _).
      destruct (IH (take i p) w) as (r1 & w1 & -> & Hg1).
      { rewrite length_take. lia. }
      rewrite bind_run. destruct (mkdir_grows p w1) as (r & w' & -> & Hg & _).
      eexists _, _. split; [done|]. by eapply grows_trans.
    + cbn [mret M_ret]. rewrite bind_run.
      destruct (mkdir_grows p w) as (r & w' & -> & Hg & _).
      eexists _, _. split; [done|done].
Qed.

Lemma create_dir_tree_grows (buf : buffer) (p : cstring) (w : world) :
  c_str buf = Ret p ->
  exists w', _FS_CREATE_DIR_TREE buf w = Ret (tt, w') /\ grows w w'.
Proof.
  intros Hp. unfold _FS_CREATE_DIR_TREE. rewrite bind_run, Hp. cbn [lift].
  destruct (strrchr p "/") as [i|] eqn:Ei.
  - rewrite bind_run. unfold _fs_make_dirs.
    destruct (make_dirs_rec_grows (strlen (take i p)) (take i p) w) as (r & w' & -> & Hg);
      [done|].
    by exists w'.
  - exists w. split; [done|apply grows_refl].
Qed.

(** ** The search path *)

Lemma split_on_nosep c (s : cstring) : strchr s c = None -> split_on c s = [s].
Proof.
  induction s as [|x s IH]; [done|]. cbn [strchr split_on].
  destruct (decide (x = c)); [done|].
  destruct (strchr s c) eqn:E; [done|]. intros _. by rewrite IH.
Qed.

Lemma split_on_sep c (s : cstring) k :
  strchr s c = Some k -> split_on c s = take k s :: split_on c (drop (S k) s).
Proof.
  revert k. induction s as [|x s IH]; intros k; [done|]. cbn [strchr split_on].
  destruct (decide (x = c)).
  - intros [= <-]. done.
  - destruct (strchr s c) as [j|] eqn:E; [|done]. intros [= <-].
    rewrite (IH j eq_refl). done.
Qed.

Lemma split_on_head sep (s : cstring) :
  exists comp rest post, split_on sep s = comp :: rest /\ s = comp ++ post.
Proof.
  induction s as [|x s (comp & rest & post & E & Hs)].
  - by exists [], [], [].
  - cbn [split_on]. destruct (decide (x = sep)).
    + by exists [], (split_on sep s), (x :: s).
    + rewrite E. exists (x :: comp), rest, post. by rewrite Hs at 1.
Qed.

Lemma split_on_occurs sep (s c : cstring) :
  c ∈ split_on sep s -> exists pre post, s = pre ++ c ++ post.
Proof.
  revert c. induction s as [|x s IH]; intros c.
  - cbn. intros ->%list_elem_of_singleton. by exists [], [].
  - cbn [split_on]. destruct (decide (x = sep)) as [->|Hne].
    + intros [->|Hin]%elem_of_cons.
      * by exists [], (sep :: s).
      * destruct (IH _ Hin) as (pre & post & ->). by exists (sep :: pre), post.
    + destruct (split_on_head sep s) as (comp & rest & post & E & Hs).
      rewrite E in IH |- *. intros [->|Hin]%elem_of_cons.
      * exists [], post. cbn. by rewrite Hs at 1.
      * destruct (IH c) as (pre & post' & ->); [by right|].
        by exists (x :: pre), post'.
Qed.

Lemma templates_cons_sep (s : cstring) : templates (";"%char :: s) = templates s.
Proof.
  unfold templates. cbn [split_on]. rewrite decide_True by done.
  rewrite filter_cons_False; [done|]. intros H. by apply H.
Qed.

Lemma templates_skip (s : cstring) : templates (skip_separators s) = templates s.
Proof.
  induction s as [|x s IH]; [done|]. cbn [skip_separators].
  change (deref FS_PATH_SEP) with ";"%char.
  destruct (decide (x = ";"%char)) as [->|]; [|done].
  by rewrite templates_cons_sep.
Qed.

Lemma skip_separators_length (s : cstring) : length (skip_separators s) <= length s.
Proof.
  induction s as [|x s IH]; [done|]. cbn [skip_separators].
  destruct (decide _); cbn; lia.
Qed.

Lemma skip_separators_head (s : cstring) x s' :
  skip_separators s = x :: s' -> x <> ";"%char.
Proof.
  induction s as [|y s IH]; [done|]. cbn [skip_separators].
  change (deref FS_PATH_SEP) with ";"%char.
  destruct (decide (y = ";"%char)); [done|]. by intros [= <- _].
Qed.

Lemma c_str_store_nul (b : buffer) n (s : cstring) :
  take n b = Chr <$> s -> n < length b -> c_str (<[n := NUL]> b) = Ret s.
Proof.
  intros Ht Hn. rewrite <- (take_drop n b) at 1.
  rewrite insert_app_r_alt by (rewrite length_take; lia).
  rewrite length_take. replace (n - n `min` length b) with 0 by lia.
  destruct (drop n b) as [|c rest] eqn:E.
  { apply (f_equal length) in E. rewrite length_drop in E. cbn in E. lia. }
  rewrite Ht. apply c_str_terminated.
Qed.

(** One call of [_fs_get_template] on the rest of a search path that fits
    the global array: it ends the iteration exactly when no template is
    left, and otherwise delivers the next template and a shorter rest. *)
Lemma get_template_spec (path : cstring) (str : buffer) :
  length path < FS_MAX_PATH -> length str = FS_MAX_PATH ->
  (templates path = [] /\ _fs_get_template path str = Ret (None, str)) \/
  (exists t rest str',
     _fs_get_template path str = Ret (Some rest, str') /\
     c_str str' = Ret t /\ length str' = FS_MAX_PATH /\
     templates path = t :: templates rest /\ length rest < length path).
Proof.
  intros Hlen Hstr. unfold _fs_get_template.
  pose proof (skip_separators_length path) as Hskip.
  rewrite <- (templates_skip path).
  destruct (skip_separators path) as [|x p'] eqn:Ep; [left; done|].
  right. pose proof (skip_separators_head _ _ _ Ep) as Hx.
  change (deref FS_PATH_SEP) with ";"%char.
  set (p := x :: p') in *.
  set (t := match strchr p ";" with Some i => i | None => strlen p end).
  assert (Ht : 0 < t /\ t <= length p /\
               templates p = take t p :: templates (drop t p)) .
  { subst t. destruct (strchr p ";") as [k|] eqn:Ek.
    - destruct (strchr_Some _ _ _ Ek) as (Hk & Hpk & _).
      assert (0 < k).
      { destruct k; [|lia]. subst p. cbn in Hpk. by injection Hpk as ->. }
      split; [done|]. split; [lia|].
      unfold templates at 1. rewrite (split_on_sep _ _ _ Ek).
      rewrite filter_cons_True.
      2:{ intros H0%(f_equal length). rewrite length_take in H0. cbn in H0. lia. }
      f_equal. rewrite (drop_S _ _ _ Hpk). by rewrite templates_cons_sep.
    - unfold strlen. split; [subst p; cbn; lia|]. split; [done|].
      unfold templates at 1. rewrite (split_on_nosep _ _ Ek).
      rewrite firstn_all, drop_all. done. }
  destruct Ht as (Ht0 & Htl & Htpl).
  destruct (memcpy_Ret str 0 p t) as (str1 & -> & Hl1 & Ht1); [subst p; cbn in *; lia|done|].
  cbn [mbind outcome_bind]. unfold store_nul. rewrite decide_True by (subst p; cbn in *; lia).
  cbn [mbind outcome_bind mret outcome_ret].
  exists (take t p), (drop t p), (<[t := NUL]> str1). split; [done|].
  split; [|split; [|split]].
  - apply c_str_store_nul; [|subst p; cbn in *; lia]. by rewrite take_0 in Ht1.
  - rewrite length_insert. lia.
  - done.
  - rewrite length_drop. subst p. cbn in *. lia.
Qed.

Lemma stat_run (p : cstring) (w : world) :
  stat p w = Ret (probe (files w) (cwd w) p, log_call (sys_stat p) w).
Proof. reflexivity. Qed.

Lemma log_call_grows c w : grows w (log_call c w).
Proof. split; try done. cbn. intros l n H1 H2. by rewrite H1 in H2. Qed.

(** The loop of [_fs_check_search_path], when every candidate it gets to
    fits the array: it stops at the first candidate that exists. *)
Lemma check_search_path_loop_spec (name : cstring) fuel :
  forall (path : cstring) (str buf : buffer) (fstat : option stat_t) (w : world),
  length path < fuel -> length path < FS_MAX_PATH ->
  length str = FS_MAX_PATH -> length buf = FS_MAX_PATH ->
  (forall p, p ∈ tried (files w) (cwd w) (candidates path name) ->
             length p < FS_MAX_PATH) ->
  exists e buf' fstat' w',
    _fs_check_search_path_loop fuel name path str buf fstat w
      = Ret ((e, buf', fstat'), w') /\
    grows w w' /\ files w' = files w /\
    match first_existing (files w) (cwd w) (candidates path name) with
    | Some (p, st) => e = FS_ESUCCESS /\ fstat' = Some st /\ c_str buf' = Ret p
    | None => e = FS_EFAILURE /\ fstat' = fstat
    end.
Proof.
  induction fuel as [|fuel IH]; intros path str buf fstat w Hfuel Hlen Hstr Hbuf Hfit; [lia|].
  cbn [_fs_check_search_path_loop]. rewrite bind_run.
  destruct (get_template_spec path str Hlen Hstr)
    as [[Hnil ->]|(t & rest & str' & -> & Hct & Hstr' & Hcons & Hrest)]; cbn [lift].
  - unfold candidates. rewrite Hnil. cbn.
    eexists _, _, _, _. split; [done|]. split; [apply grows_refl|done].
  - unfold candidates in *. rewrite Hcons in *. cbn [fmap list_fmap first_existing tried] in *.
    rewrite bind_run, Hct. cbn [lift]. rewrite bind_run.
    pose proof (concat_path_spec buf t name Hbuf) as Hc.
    assert (Hp : length (expand t name) < FS_MAX_PATH) by (apply Hfit; left).
    destruct (_fs_concat_path buf t name) as [[e1 buf1]|f]; [|destruct Hc; lia].
    destruct Hc as [Hbuf1 [(-> & _ & Hcs)|(-> & ?)]]; [|lia].
    cbn [lift]. rewrite decide_False by (intros ?; done).
    rewrite bind_run, Hcs. cbn [lift]. rewrite bind_run, stat_run.
    destruct (probe (files w) (cwd w) (expand t name)) as [st|] eqn:Est.
    + eexists _, _, _, _. split; [done|]. split; [apply log_call_grows|done].
    + destruct (IH rest str' buf1 fstat (log_call (sys_stat (expand t name)) w))
        as (e & buf' & fstat' & w' & -> & Hg & Hf & Hres); try done; try lia.
      { intros p Hin. apply Hfit. by right. }
      eexists _, _, _, _. split; [done|]. split; [|done].
      eapply grows_trans; [apply log_call_grows|done].
Qed.

Lemma first_existing_hit (fs : gmap loc node) cwd (pre post : list cstring) p st :
  (forall q, q ∈ pre -> probe fs cwd q = None) -> probe fs cwd p = Some st ->
  first_existing fs cwd (pre ++ p :: post) = Some (p, st).
Proof.
  intros Hpre Hp. induction pre as [|q pre IH]; cbn.
  - by rewrite Hp.
  - rewrite (Hpre q) by left. apply IH. intros q' ?. apply Hpre. by right.
Qed.

Lemma first_existing_miss (fs : gmap loc node) cwd (cands : list cstring) :
  (forall q, q ∈ cands -> probe fs cwd q = None) -> first_existing fs cwd cands = None.
Proof.
  intros H. induction cands as [|q cands IH]; [done|]. cbn.
  rewrite (H q) by left. apply IH. intros q' ?. apply H. by right.
Qed.

Lemma tried_subseteq (fs : gmap loc node) cwd (cands : list cstring) (q : cstring) :
  q ∈ tried fs cwd cands -> q ∈ cands.
Proof.
  induction cands as [|p cands IH]; [done|]. cbn [tried].
  intros [->|Hin]%elem_of_cons; [left|right].
  destruct (probe fs cwd p); [by apply elem_of_nil in Hin|by apply IH].
Qed.

Lemma tried_hit (fs : gmap loc node) cwd (pre post : list cstring) p st :
  (forall q, q ∈ pre -> probe fs cwd q = None) -> probe fs cwd p = Some st ->
  tried fs cwd (pre ++ p :: post) = pre ++ [p].
Proof.
  intros Hpre Hp. induction pre as [|q pre IH]; cbn.
  - by rewrite Hp.
  - rewrite (Hpre q) by left. f_equal. apply IH. intros q' ?. apply Hpre. by right.
Qed.

Lemma char_array_length n : length (char_array n) = n.
Proof. apply length_replicate. Qed.

Lemma resolve_for_read_spec (w : world) (name : cstring) :
  _fs_search_path w <> [] ->
  strlen (_fs_search_path w) < FS_MAX_PATH ->
  (forall p, p ∈ tried (files w) (cwd w) (candidates (_fs_search_path w) name) ->
             length p < FS_MAX_PATH) ->
  exists w',
    resolve_for_read name w
      = Ret (match first_existing (files w) (cwd w) (candidates (_fs_search_path w) name) with
             | Some hit => (FS_ESUCCESS, Some hit)
             | None => (FS_EFAILURE, None)
             end, w') /\
    grows w w' /\ files w' = files w.
Proof.
  intros Hne Hlen Hfit. unfold resolve_for_read, _fs_check_search_path.
  rewrite !bind_run. cbn [get_world]. rewrite decide_False by done.
  destruct (check_search_path_loop_spec name (S (strlen (_fs_search_path w)))
              (_fs_search_path w) (char_array FS_MAX_PATH) (char_array FS_MAX_PATH) None w)
    as (e & buf' & fstat' & w' & -> & Hg & Hf & Hres);
    try done; try apply char_array_length; [unfold strlen; lia|].
  exists w'. split; [|done].
  destruct (first_existing _ _ _) as [[p st]|].
  - destruct Hres as (-> & -> & Hcs). rewrite decide_False by (intros ?; done).
    rewrite bind_run, Hcs. done.
  - destruct Hres as (-> & ->). done.
Qed.

(** C4 (amended).  For a non-empty search path stored by the setter:
    resolution returns the first candidate, in the order of the
    templates, that exists, with its metadata (an earlier candidate wins
    over a later one that also exists), provided that candidate and the
    ones before it fit the maximum path length; and it returns the
    not-found failure when no candidate exists and all of them fit. *)
Theorem search_path_first_match (w : world) (name : cstring) :
  _fs_search_path w <> [] ->
  strlen (_fs_search_path w) < FS_MAX_PATH ->
  (forall pre p post st,
     candidates (_fs_search_path w) name = pre ++ p :: post ->
     (forall q, q ∈ pre -> length q < FS_MAX_PATH /\ probe (files w) (cwd w) q = None) ->
     length p < FS_MAX_PATH ->
     probe (files w) (cwd w) p = Some st ->
     result (resolve_for_read name) w = Ret (FS_ESUCCESS, Some (p, st))) /\
  ((forall q, q ∈ candidates (_fs_search_path w) name ->
              length q < FS_MAX_PATH /\ probe (files w) (cwd w) q = None) ->
   result (resolve_for_read name) w = Ret (FS_EFAILURE, None)).
Proof.
  intros Hne Hlen. split.
  - intros pre p post st Hc Hpre Hfit Hp.
    destruct (resolve_for_read_spec w name Hne Hlen) as (w' & Hrun & _).
    { rewrite Hc, (tried_hit _ _ _ _ _ st); [|intros q ?; by apply Hpre|done].
      intros q [?|Hq%list_elem_of_singleton]%elem_of_app; [by apply Hpre|by subst q]. }
    unfold result. rewrite Hrun, Hc.
    rewrite (first_existing_hit _ _ _ _ _ st); [done| |done]. intros q ?. by apply Hpre.
  - intros Hall.
    destruct (resolve_for_read_spec w name Hne Hlen) as (w' & Hrun & _).
    { intros q Hq%tried_subseteq. by apply Hall. }
    unfold result. rewrite Hrun, first_existing_miss; [done|]. intros q ?. by apply Hall.
Qed.

Lemma search_path_first_match_witness :
  result (resolve_for_read (cs "f.txt")) two_copies
    = Ret (FS_ESUCCESS,
           Some (cs "./a/f.txt", {| st_mode := S_IFREG; st_size := 5; st_mtime := 1 |})) /\
  result (resolve_for_read (cs "g.txt")) two_copies = Ret (FS_EFAILURE, None).
Proof.
  assert (Hne : _fs_search_path two_copies <> []) by (vm_compute; discriminate).
  assert (Hlen : strlen (_fs_search_path two_copies) < FS_MAX_PATH) by (vm_compute; lia).
  split.
  - destruct (search_path_first_match two_copies (cs "f.txt") Hne Hlen) as [Hhit _].
    apply (Hhit [cs "./none/f.txt"] (cs "./a/f.txt") [cs "./b/f.txt"]).
    + vm_compute. reflexivity.
    + apply (proj1 (Forall_forall
                      (fun q => length q < FS_MAX_PATH /\
                                probe (files two_copies) (cwd two_copies) q = None) _)).
      repeat (constructor; [split; [vm_compute; lia|vm_compute; reflexivity]|]).
      constructor.
    + vm_compute. lia.
    + vm_compute. reflexivity.
  - destruct (search_path_first_match two_copies (cs "g.txt") Hne Hlen) as [_ Hmiss].
    apply Hmiss.
    replace (candidates (_fs_search_path two_copies) (cs "g.txt"))
      with [cs "./none/g.txt"; cs "./a/g.txt"; cs "./b/g.txt"] by (vm_compute; reflexivity).
    apply (proj1 (Forall_forall
                    (fun q => length q < FS_MAX_PATH /\
                              probe (files two_copies) (cwd two_copies) q = None) _)).
    repeat (constructor; [split; [vm_compute; lia|vm_compute; reflexivity]|]).
    constructor.
Defined.

(** C4 as stated fails when a candidate reaches the maximum path length:
    with the search path ["?"] and a name of [FS_MAX_PATH] characters the
    search path is not empty and no candidate exists, yet resolution
    returns TooLong, not the not-found failure, and [fs_get_info] passes
    that code on. *)
Lemma search_path_too_long_counterexample :
  _fs_search_path (set_search_path (cs "?") boot) <> [] /\
  (forall q, q ∈ candidates (_fs_search_path (set_search_path (cs "?") boot)) long_name ->
             probe (files (set_search_path (cs "?") boot))
                   (cwd (set_search_path (cs "?") boot)) q = None) /\
  result (resolve_for_read long_name) (set_search_path (cs "?") boot)
    = Ret (FS_ETOOLONG, None) /\
  result (resolve_for_read long_name) (set_search_path (cs "?") boot)
    <> Ret (FS_EFAILURE, None) /\
  result (fs_get_info long_name None) (set_search_path (cs "?") boot)
    = Ret (FS_ETOOLONG, None).
Proof.
  split; [vm_compute; discriminate|]. split.
  - replace (candidates (_fs_search_path (set_search_path (cs "?") boot)) long_name)
      with [long_name] by (vm_compute; reflexivity).
    intros q Hq. apply list_elem_of_singleton in Hq. subst q. vm_compute. reflexivity.
  - repeat split; vm_compute; (reflexivity || discriminate).
Qed.

(** ** Writing *)



Lemma fwrite_update (data : list byte) (size fp : nat) (w : world) l mode t prior :
  streams w !! fp = Some {| s_loc := l; s_mode := mode; s_pos := 0 |} ->
  mode <> _FS_MREAD ->
  files w !! l = Some (File t prior) ->
  (mode = _FS_MWRITE -> prior = []) ->
  (length data < size /\ fwrite data size fp w = Fault Overread) \/
  (size <= length data /\
   exists w', fwrite data size fp w = Ret (size `min` disk_free w, w') /\
     files w' = <[l := File (now w) (prior ++ take (size `min` disk_free w) data)]> (files w) /\
     cwd w' = cwd w /\ _fs_search_path w' = _fs_search_path w /\
     _fs_write_dir w' = _fs_write_dir w /\ heap_free w' = heap_free w /\
     now w' = now w).
Proof.
  intros Hst Hmode Hl Hprior. unfold fwrite. msimpl.
  destruct (decide (length data < size)); [left; done|right].
  split; [lia|]. rewrite Hst. cbn [s_mode s_loc s_pos]. rewrite Hl.
  destruct mode; [done| |].
  - rewrite (Hprior eq_refl). eexists. split; [done|]. cbn. by rewrite drop_nil, app_nil_r.
  - eexists. split; [done|]. done.
Qed.


Lemma fs_write_pipeline name desc : fs_write name desc = write_pipeline _FS_MWRITE name desc.
Proof. reflexivity. Qed.

Lemma fs_append_pipeline name desc : fs_append name desc = write_pipeline _FS_MAPPEND name desc.
Proof. reflexivity. Qed.


(** ** Reading *)

Lemma check_search_path_spec (w : world) (name : cstring) (buf : buffer)
    (fstat : option stat_t) :
  _fs_search_path w <> [] ->
  strlen (_fs_search_path w) < FS_MAX_PATH ->
  length buf = FS_MAX_PATH ->
  (forall p, p ∈ tried (files w) (cwd w) (candidates (_fs_search_path w) name) ->
             length p < FS_MAX_PATH) ->
  exists e buf' fstat' w',
    _fs_check_search_path name buf fstat w = Ret ((e, buf', fstat'), w') /\
    grows w w' /\ files w' = files w /\
    match first_existing (files w) (cwd w) (candidates (_fs_search_path w) name) with
    | Some (p, st) => e = FS_ESUCCESS /\ fstat' = Some st /\ c_str buf' = Ret p
    | None => e = FS_EFAILURE /\ fstat' = fstat
    end.
Proof.
  intros Hne Hlen Hbuf Hfit. unfold _fs_check_search_path.
  rewrite bind_run. cbn [get_world]. rewrite decide_False by done.
  apply check_search_path_loop_spec; try done; try apply char_array_length;
    unfold strlen in *; lia.
Qed.

(** ** Templates without a marker, end to end *)

Lemma candidates_nomark (path name : cstring) :
  strchr path "?" = None -> Forall (fun p => p = []) (candidates path name).
Proof.
  intros Hno%strchr_None. unfold candidates, templates.
  apply Forall_fmap, Forall_forall. intros t [_ Ht]%list_elem_of_filter. cbn.
  apply expand_nomark, strchr_None. intros Hin.
  apply split_on_occurs in Ht as (pre & post & ->). apply Hno.
  apply elem_of_app. right. apply elem_of_app. by left.
Qed.

(** C10.  The setters store any string shorter than [FS_MAX_PATH], marker
    or not.  For a template without marker the substitution succeeds and
    leaves the empty string in the array, whatever the name; the
    operations then hand the empty path to the system: [fs_mkdir] calls
    [mkdir("")] and [fs_delete] calls [remove("")], which fail, and
    [fs_exists] finds nothing. *)
Theorem marker_free_template (w : world) (path name : cstring) (buf : buffer) :
  strlen path < FS_MAX_PATH ->
  strstr path FS_PATH_MARK = None ->
  length buf = FS_MAX_PATH ->
  fs_set_search_path path w = Ret (FS_ESUCCESS, set_search_path path w) /\
  fs_set_write_dir path w = Ret (FS_ESUCCESS, set_write_dir path w) /\
  (exists buf', _fs_concat_path buf path name = Ret (FS_ESUCCESS, buf') /\
                c_str buf' = Ret []) /\
  (path <> [] ->
   fs_mkdir name (set_write_dir path w)
     = Ret (FS_EMKDIRFAIL, log_call (sys_mkdir []) (set_write_dir path w)) /\
   fs_delete name (set_write_dir path w)
     = Ret (FS_EREMOVE, log_call (sys_remove []) (set_write_dir path w)) /\
   result (fs_exists name) (set_search_path path w) = Ret FS_EFAILURE).
Proof.
  intros Hlen Hno Hbuf. split; [|split; [|split]].
  - unfold fs_set_search_path. rewrite decide_False by lia. done.
  - unfold fs_set_write_dir. rewrite decide_False by lia. done.
  - exists (<[0 := NUL]> buf). apply concat_path_nomark; [done|].
    rewrite Hbuf. unfold FS_MAX_PATH. lia.
  - intros Hne.
    destruct (concat_path_nomark (char_array FS_MAX_PATH) path name Hno) as [Hc Hs].
    { unfold char_array. rewrite length_replicate. unfold FS_MAX_PATH. lia. }
    split; [|split].
    + unfold fs_mkdir. msimpl. rewrite !decide_False by done.
      rewrite Hc. cbn [lift]. rewrite !decide_False by (intros ?; done).
      rewrite Hs. cbn [lift]. done.
    + unfold fs_delete. msimpl. rewrite !decide_False by done.
      rewrite Hc. cbn [lift]. rewrite !decide_False by (intros ?; done).
      rewrite Hs. cbn [lift]. done.
    + rewrite strstr_mark in Hno.
      pose proof (candidates_nomark path name Hno) as Hnil.
      rewrite Forall_forall in Hnil.
      unfold result, fs_exists, _fs_get_type. rewrite bind_run. cbn [get_world].
      cbn [_fs_search_path set_search_path]. rewrite decide_False by done.
      rewrite !bind_run.
      assert (Hfit : forall p,
                p ∈ tried (files (set_search_path path w)) (cwd (set_search_path path w))
                      (candidates (_fs_search_path (set_search_path path w)) name) ->
                length p < FS_MAX_PATH).
      { intros p Hp%tried_subseteq. rewrite (Hnil p Hp). unfold FS_MAX_PATH. cbn. lia. }
      destruct (check_search_path_spec (set_search_path path w) name
                  (char_array FS_MAX_PATH) None Hne Hlen (char_array_length _) Hfit)
        as (e & buf' & fstat' & w' & -> & _ & _ & Hm).
      rewrite first_existing_miss in Hm.
      * destruct Hm as [-> _]. done.
      * intros q Hq. by rewrite (Hnil q Hq).
Qed.

Lemma marker_free_template_witness :
  fs_set_search_path (cs "./data") boot = Ret (FS_ESUCCESS, set_search_path (cs "./data") boot) /\
  fs_set_write_dir (cs "./data") boot = Ret (FS_ESUCCESS, set_write_dir (cs "./data") boot) /\
  (exists buf', _fs_concat_path (char_array FS_MAX_PATH) (cs "./data") (cs "a.txt")
                  = Ret (FS_ESUCCESS, buf') /\ c_str buf' = Ret []) /\
  (cs "./data" <> [] ->
   fs_mkdir (cs "a.txt") (set_write_dir (cs "./data") boot)
     = Ret (FS_EMKDIRFAIL, log_call (sys_mkdir []) (set_write_dir (cs "./data") boot)) /\
   fs_delete (cs "a.txt") (set_write_dir (cs "./data") boot)
     = Ret (FS_EREMOVE, log_call (sys_remove []) (set_write_dir (cs "./data") boot)) /\
   result (fs_exists (cs "a.txt")) (set_search_path (cs "./data") boot) = Ret FS_EFAILURE).
Proof.
  apply (marker_free_template boot (cs "./data") (cs "a.txt") (char_array FS_MAX_PATH)).
  - vm_compute. lia.
  - reflexivity.
  - reflexivity.
Defined.

(** [fs_read] of a name whose first existing candidate is a regular file
    that fits the heap: the block holds the file's contents, [size] its
    length. *)
Lemma fs_read_file (w : world) (name : cstring) (size0 : option nat)
    (p : cstring) (st : stat_t) (l : loc) (t : Z) (c : list byte) :
  _fs_search_path w <> [] ->
  strlen (_fs_search_path w) < FS_MAX_PATH ->
  (forall q, q ∈ tried (files w) (cwd w) (candidates (_fs_search_path w) name) ->
             length q < FS_MAX_PATH) ->
  first_existing (files w) (cwd w) (candidates (_fs_search_path w) name) = Some (p, st) ->
  resolve (files w) (cwd w) p = Found l (File t c) ->
  length c <= heap_free w ->
  result (fs_read name size0) w = Ret (Some (Some <$> c), Some (length c)).
Proof.
  intros Hne Hlen Hfit Hfirst Hres Hheap. unfold result, fs_read. rewrite bind_run.
  destruct (check_search_path_spec w name (char_array FS_MAX_PATH) None Hne Hlen
              (char_array_length _) Hfit) as (e & buf' & fstat' & w' & -> & Hg & Hf & Hm).
  rewrite Hfirst in Hm. destruct Hm as (-> & -> & Hcs).
  rewrite decide_False by (intros ?; done). rewrite bind_run, Hcs. cbn [lift].
  assert (Hst : st = stat_of (File t c)).
  { clear -Hfirst Hres. induction (candidates _ _) as [|q qs IH]; [done|].
    cbn in Hfirst. destruct (probe (files w) (cwd w) q) eqn:E.
    - injection Hfirst as -> ->. unfold probe in E. rewrite Hres in E. by injection E.
    - by apply IH. }
  destruct Hg. unfold fopen, open_stream, malloc, fread, fclose. msimpl.
  rewrite Hf, grows_cwd0, Hres. msimpl. subst st. cbn [the_stat stat_of st_size]. msimpl.
  rewrite grows_heap_free0. rewrite decide_True by done. msimpl.
  rewrite length_replicate. rewrite decide_False by lia.
  rewrite lookup_insert_eq. cbn [s_loc s_pos s_mode]. rewrite Hf.
  apply resolve_Found in Hres as (_ & _ & _ & ->). msimpl.
  cbn [st_size]. rewrite drop_0, firstn_all.
  rewrite drop_ge by (rewrite length_replicate; lia).
  by rewrite app_nil_r.
Qed.

Lemma templates_single (t : cstring) :
  t <> [] -> strchr t ";" = None -> templates t = [t].
Proof.
  intros Hne Hsep. unfold templates. rewrite (split_on_nosep _ _ Hsep).
  by rewrite filter_cons_True.
Qed.


(** ** Round trips *)

Lemma result_bind {A B} (m : M A) (k : A -> M B) (w w' : world) (a : A) :
  m w = Ret (a, w') -> result (m ≫= k) w = result (k a) w'.
Proof. intros H. unfold result. by rewrite bind_run, H. Qed.





(** ** Paths without parent segments *)






Lemma walk_is_dir (fs : gmap loc node) comps : forall cur d,
  walk fs cur comps = Some d -> is_dir fs cur = true -> is_dir fs d = true.
Proof.
  induction comps as [|c comps IH]; intros cur d.
  - by intros [= ->].
  - cbn [walk]. unfold enter. destruct (is_dir fs (step cur c)) eqn:E; [|done]. cbn.
    intros Hw _. by eapply IH.
Qed.

Lemma wf_parent (fs : gmap loc node) (c : cstring) (l : loc) :
  wf fs -> is_Some (fs !! (c :: l)) -> is_dir fs l = true.
Proof. intros Hwf [n Hn]. by destruct (Hwf _ _ Hn). Qed.

Lemma wf_ancestor (fs : gmap loc node) (cur d : loc) :
  wf fs -> is_Some (fs !! d) -> cur `suffix_of` d -> cur <> d -> is_dir fs cur = true.
Proof.
  intros Hwf Hd [k ->]. induction k as [|c k IH] in Hd |- *; [done|]. intros _.
  cbn in Hd. apply wf_parent in Hd; [|done].
  destruct k as [|c' k]; [done|]. apply IH.
  - apply is_dir_true in Hd as [t ->]. done.
  - intros E%(f_equal length). rewrite length_app in E. cbn in E. lia.
Qed.





(** ** Appending *)





(** ** Directory creation *)

Lemma mkdir_run (p : cstring) (w : world) :
  mkdir p w =
  match resolve (files w) (cwd w) p with
  | Creatable l =>
      Ret (0%Z, set_files (<[l := Dir (now w)]> (files w)) (log_call (sys_mkdir p) w))
  | _ => Ret ((-1)%Z, log_call (sys_mkdir p) w)
  end.
Proof. unfold mkdir. msimpl. by destruct (resolve _ _ _). Qed.

Lemma resolve_insert_dir (fs : gmap loc node) cwd (p : cstring) l t :
  resolve fs cwd p = Creatable l ->
  resolve (<[l := Dir t]> fs) cwd p = Found l (Dir t).
Proof.
  intros (d & Hd & -> & Hl & _)%resolve_Creatable. apply resolve_Found.
  exists d. split; [|split; [done|apply lookup_insert_eq]].
  eapply path_dir_ext; [|done]. intros x. apply is_dir_weaken. by apply insert_subseteq.
Qed.

(** The directory part of a path that resolves, or could be created, is
    what the path cut at its last slash resolves to. *)
Lemma split_on_app_sep sep (a b : cstring) :
  split_on sep (a ++ sep :: b) = split_on sep a ++ split_on sep b.
Proof.
  induction a as [|x a IH].
  - cbn. by rewrite decide_True.
  - cbn [app split_on]. destruct (decide (x = sep)); [by rewrite IH|].
    rewrite IH. destruct (split_on_head sep a) as (comp & rest & _ & -> & _). done.
Qed.

Lemma strrchr_split (s : cstring) c i :
  strrchr s c = Some i -> s = take i s ++ c :: drop (S i) s.
Proof.
  intros (Hi & Hc & _)%strrchr_Some.
  rewrite <- (take_drop i s) at 1. by rewrite (drop_S _ _ _ Hc).
Qed.

Lemma split_on_strrchr (s : cstring) i :
  strrchr s "/" = Some i ->
  removelast (split_on "/" s) = split_on "/" (take i s) /\
  path_leaf s = drop (S i) s.
Proof.
  intros Hi. pose proof (strrchr_Some _ _ _ Hi) as (_ & _ & Hno).
  unfold path_leaf. rewrite (strrchr_split _ _ _ Hi) at 1 3.
  rewrite split_on_app_sep, (split_on_nosep _ _ Hno).
  rewrite removelast_last, last_snoc. done.
Qed.

Lemma walk_app (fs : gmap loc node) (xs ys : list cstring) cur :
  walk fs cur (xs ++ ys) = walk fs cur xs ≫= fun d => walk fs d ys.
Proof.
  revert cur. induction xs as [|x xs IH]; intros cur; [done|].
  cbn [app walk]. destruct (enter fs cur x); cbn; [apply IH|done].
Qed.

Lemma split_on_snoc_last sep (s : cstring) :
  split_on sep s = removelast (split_on sep s) ++ [default [] (last (split_on sep s))].
Proof.
  destruct (split_on_head sep s) as (comp & rest & _ & E & _). rewrite E.
  destruct (exists_last (l := comp :: rest)) as (xs & x & ->); [done|].
  rewrite removelast_last, last_snoc. done.
Qed.

(** Walking all the components of a path that names a directory. *)
Lemma walk_all (fs : gmap loc node) cwd (q : cstring) d t :
  resolve fs cwd q = Found d (Dir t) ->
  q <> [] /\ is_dir fs (path_start cwd q) = true /\
  walk fs (path_start cwd q) (split_on "/" q) = Some d.
Proof.
  intros (d0 & Hd0 & -> & Hl)%resolve_Found. unfold path_dir in Hd0.
  destruct q as [|c0 q]; [done|]. split; [done|].
  set (p := c0 :: q) in *.
  destruct (is_dir fs (path_start cwd p)) eqn:Hs; [|done]. split; [done|].
  rewrite split_on_snoc_last, walk_app, Hd0. cbn [mbind option_bind walk].
  unfold enter, path_leaf in *.
  assert (is_dir fs (step d0 (default [] (last (split_on "/" p)))) = true) as ->;
    [|done].
  apply is_dir_true. eauto.
Qed.

Lemma path_start_take cwd (q : cstring) i :
  take i q <> [] -> path_start cwd (take i q) = path_start cwd q.
Proof. destruct q, i; done. Qed.

Lemma resolve_parent (fs : gmap loc node) cwd (q : cstring) d i :
  path_dir fs cwd q = Some d ->
  strrchr q "/" = Some i -> take i q <> [] ->
  exists t, resolve fs cwd (take i q) = Found d (Dir t).
Proof.
  intros Hd Hi Hne. unfold path_dir in Hd. destruct q as [|c0 q]; [done|].
  set (p := c0 :: q) in *.
  destruct (is_dir fs (path_start cwd p)) eqn:Hs; [|done].
  destruct (split_on_strrchr _ _ Hi) as [Hrl _]. rewrite Hrl in Hd.
  pose proof (walk_is_dir _ _ _ _ Hd Hs) as [t Ht]%is_dir_true.
  exists t. apply resolve_Found.
  rewrite (split_on_snoc_last "/" (take i p)), walk_app in Hd.
  destruct (walk fs (path_start cwd p) (removelast (split_on "/" (take i p))))
    as [d0|] eqn:Hd0; [|done].
  cbn in Hd. unfold enter in Hd.
  destruct (is_dir fs (step d0 _)) eqn:Hstep; [|done]. cbn in Hd. injection Hd as <-.
  exists d0. split; [|done]. unfold path_dir.
  destruct (take i p) eqn:E; [done|]. rewrite <- E, path_start_take, Hs by (by rewrite E).
  by rewrite E.
Qed.

(** [_fs_make_dirs] on a path that already exists (or on the empty path)
    creates nothing and reports MkdirFail. *)
Lemma make_dirs_existing fuel : forall (q : cstring) (w : world),
  length q <= fuel ->
  q = [] \/ (exists l n, resolve (files w) (cwd w) q = Found l n) ->
  exists w', _fs_make_dirs_rec fuel q w = Ret (FS_EMKDIRFAIL, w') /\
             files w' = files w /\ grows w w' /\
             exists earlier, calls w' = sys_mkdir q :: earlier ++ calls w.
Proof.
  induction fuel as [|fuel IH]; intros q w Hlen Hq.
  - destruct q; [|cbn in Hlen; lia]. cbn [_fs_make_dirs_rec strrchr].
    rewrite bind_run. cbn [mret M_ret]. rewrite bind_run, mkdir_run.
    eexists. split; [done|]. split; [done|]. split; [apply log_call_grows|by exists []].
  - cbn [_fs_make_dirs_rec]. rewrite bind_run.
    assert (Hfail : forall w1, files w1 = files w -> cwd w1 = cwd w ->
              mkdir q w1 = Ret ((-1)%Z, log_call (sys_mkdir q) w1)).
    { intros w1 Hf Hc. rewrite mkdir_run, Hf, Hc.
      destruct Hq as [->|(l & n & ->)]; done. }
    destruct (strrchr q "/") as [i|] eqn:Ei.
    + pose proof (strrchr_Some _ _ _ Ei) as (Hi & _ & _).
      destruct (IH (take i q) w) as (w1 & -> & Hf1 & Hg1 & earlier & Hc1).
      { rewrite length_take. lia. }
      { destruct (decide (take i q = [])) as [|Hne]; [by left|right].
        destruct Hq as [->|(l & n & (d & Hd & _)%resolve_Found)]; [done|].
        destruct (resolve_parent _ _ _ _ _ Hd Ei Hne) as [t Ht]. eauto. }
      rewrite bind_run, (Hfail w1 Hf1 (grows_cwd _ _ Hg1)).
      eexists. split; [done|]. split; [done|]. split.
      * eapply grows_trans; [done|apply log_call_grows].
      * exists (sys_mkdir (take i q) :: earlier). cbn. by rewrite Hc1.
    + cbn [mret M_ret]. rewrite bind_run, (Hfail w eq_refl eq_refl).
      eexists. split; [done|]. split; [done|]. split; [apply log_call_grows|by exists []].
Qed.

Lemma make_dirs_rec_unfold fuel (p : cstring) :
  length p <= fuel ->
  _fs_make_dirs_rec fuel p =
  (_ ← match strrchr p "/" with
       | Some i => _fs_make_dirs_rec (pred fuel) (take i p)
       | None => mret 0%Z
       end;
   r ← mkdir p;
   mret (if decide (r = (-1)%Z) then FS_EMKDIRFAIL else FS_ESUCCESS)).
Proof.
  intros Hlen. destruct fuel as [|fuel]; cbn [_fs_make_dirs_rec pred]; [|done].
  destruct p; [done|cbn in Hlen; lia].
Qed.

(** A successful [_fs_make_dirs] leaves its path naming a directory. *)
Lemma make_dirs_rec_success fuel (p : cstring) (w w' : world) :
  length p <= fuel ->
  _fs_make_dirs_rec fuel p w = Ret (FS_ESUCCESS, w') ->
  grows w w' /\ exists l t, resolve (files w') (cwd w') p = Found l (Dir t).
Proof.
  intros Hlen. rewrite (make_dirs_rec_unfold _ _ Hlen), bind_run.
  assert (exists r1 w1, match strrchr p "/" with
                        | Some i => _fs_make_dirs_rec (pred fuel) (take i p)
                        | None => mret 0%Z
                        end w = Ret (r1, w1) /\ grows w w1) as (r1 & w1 & -> & Hg1).
  { destruct (strrchr p "/") as [i|] eqn:Ei.
    - apply make_dirs_rec_grows. apply strrchr_Some in Ei as (Hi & _). rewrite length_take. lia.
    - eexists _, _. split; [done|apply grows_refl]. }
  rewrite bind_run, mkdir_run.
  destruct (resolve (files w1) (cwd w1) p) as [| l |] eqn:Hres; [done| |done].
  cbn. intros [= <-]. split.
  - eapply grows_trans; [done|]. destruct (mkdir_grows p w1) as (r & w2 & Hrun & Hg & _).
    rewrite mkdir_run, Hres in Hrun. by injection Hrun as _ <-.
  - exists l, (now w1). cbn. by apply resolve_insert_dir.
Qed.

Lemma fs_mkdir_run (path : cstring) (w : world) :
  _fs_write_dir w <> [] ->
  length (expand (_fs_write_dir w) path) < FS_MAX_PATH ->
  fs_mkdir path w = _fs_make_dirs (expand (_fs_write_dir w) path) w.
Proof.
  intros Hwd Hfit. unfold fs_mkdir. rewrite bind_run. cbn [get_world].
  rewrite decide_False by done. rewrite bind_run.
  pose proof (concat_path_spec (char_array FS_MAX_PATH) (_fs_write_dir w) path
                (char_array_length _)) as Hc.
  destruct (_fs_concat_path _ _ _) as [[e buf]|f]; [|destruct Hc; lia].
  destruct Hc as [_ [(-> & _ & Hcs)|(_ & ?)]]; [|lia].
  cbn [lift]. rewrite decide_False by (intros ?; done). by rewrite bind_run, Hcs.
Qed.

Lemma fs_mkdir_success (path : cstring) (w w' : world) :
  fs_mkdir path w = Ret (FS_ESUCCESS, w') ->
  _fs_write_dir w <> [] /\ length (expand (_fs_write_dir w) path) < FS_MAX_PATH /\
  _fs_make_dirs (expand (_fs_write_dir w) path) w = Ret (FS_ESUCCESS, w').
Proof.
  unfold fs_mkdir. rewrite bind_run. cbn [get_world].
  destruct (decide (_fs_write_dir w = [])); [done|]. rewrite bind_run.
  pose proof (concat_path_spec (char_array FS_MAX_PATH) (_fs_write_dir w) path
                (char_array_length _)) as Hc.
  destruct (_fs_concat_path _ _ _) as [[e buf]|f]; [|done].
  destruct Hc as [_ [(-> & ? & Hcs)|(-> & ?)]]; [|done].
  cbn [lift]. rewrite decide_False by (intros ?; done). rewrite bind_run, Hcs. done.
Qed.

(** [fs_mkdir] on a name whose path exists. *)
Lemma fs_mkdir_existing (path : cstring) (w : world) :
  _fs_write_dir w <> [] ->
  length (expand (_fs_write_dir w) path) < FS_MAX_PATH ->
  is_Some (probe (files w) (cwd w) (expand (_fs_write_dir w) path)) ->
  exists w', fs_mkdir path w = Ret (FS_EMKDIRFAIL, w') /\ files w' = files w.
Proof.
  intros Hwd Hfit [st Hst]. rewrite fs_mkdir_run by done. unfold _fs_make_dirs.
  destruct (make_dirs_existing (strlen (expand (_fs_write_dir w) path))
              (expand (_fs_write_dir w) path) w) as (w' & Hrun & Hf & _); [done| |by eauto].
  right. unfold probe in Hst. destruct (resolve _ _ _) as [l n| |]; [eauto|done..].
Qed.

(** *** Creating a chain of directories *)

Lemma join_snoc (q : cstring) (segs : list cstring) (s : cstring) :
  join q (segs ++ [s]) = join q segs ++ "/"%char :: s.
Proof. unfold join. by rewrite foldl_app. Qed.

Lemma join_app_l (a q : cstring) (segs : list cstring) :
  a ++ join q segs = join (a ++ q) segs.
Proof.
  revert q. induction segs as [|s segs IH]; intros q; [done|].
  cbn. rewrite IH. by rewrite <- app_assoc.
Qed.

Lemma descend_snoc (d : loc) (segs : list cstring) (s : cstring) :
  descend d (segs ++ [s]) = s :: descend d segs.
Proof. unfold descend. by rewrite foldl_app. Qed.

Lemma trail_snoc (q : cstring) (segs : list cstring) (s : cstring) :
  trail q (segs ++ [s]) = trail q segs ++ [join q segs ++ "/"%char :: s].
Proof.
  revert q. induction segs as [|x segs IH]; intros q; [done|].
  cbn [app trail]. by rewrite IH.
Qed.

Lemma trail_locs_snoc (d : loc) (segs : list cstring) (s : cstring) :
  trail_locs d (segs ++ [s]) = trail_locs d segs ++ [s :: descend d segs].
Proof.
  revert d. induction segs as [|x segs IH]; intros d; [done|].
  cbn [app trail_locs]. by rewrite IH.
Qed.

Lemma trail_locs_length (d : loc) (segs : list cstring) (l : loc) :
  l ∈ trail_locs d segs -> length d < length l <= length d + length segs.
Proof.
  revert d. induction segs as [|x segs IH]; intros d; [by intros ?%elem_of_nil|].
  cbn [trail_locs]. intros [->|Hin]%elem_of_cons; [cbn; lia|].
  apply IH in Hin. cbn in *. lia.
Qed.

Lemma trail_locs_suffix (d : loc) (segs : list cstring) (s : cstring) (l : loc) :
  l ∈ trail_locs d (s :: segs) -> (s :: d) `suffix_of` l.
Proof.
  cbn [trail_locs]. intros [->|Hin]%elem_of_cons; [done|].
  revert Hin. generalize (s :: d). clear. induction segs as [|x segs IH]; intros d.
  - by intros ?%elem_of_nil.
  - cbn [trail_locs]. intros [->|Hin]%elem_of_cons; [by apply suffix_cons_r|].
    apply IH in Hin. etrans; [|done]. by apply suffix_cons_r.
Qed.

Lemma descend_length (d : loc) (segs : list cstring) :
  length (descend d segs) = length d + length segs.
Proof.
  revert d. induction segs as [|x segs IH]; intros d; [cbn; lia|].
  cbn. change (foldl _ (x :: d) segs) with (descend (x :: d) segs).
  rewrite IH. cbn. lia.
Qed.

Lemma strrchr_app_sep (a b : cstring) c :
  strchr b c = None -> strrchr (a ++ c :: b) c = Some (length a).
Proof.
  intros Hb%strrchr_None. induction a as [|x a IH]; cbn [app strrchr length].
  - rewrite Hb. by rewrite decide_True.
  - by rewrite IH.
Qed.

Lemma segment_step (d : loc) (s : cstring) :
  segment s -> step d s = s :: d /\ dotlike s = false.
Proof.
  intros (Hne & _ & Hdot & Hdd). unfold step, dotlike.
  rewrite decide_False by (intros [|]; done). rewrite decide_False by done.
  split; [done|]. apply bool_decide_eq_false. intros [|[|]]; done.
Qed.

Lemma path_start_app cwd (q r : cstring) :
  q <> [] -> path_start cwd (q ++ r) = path_start cwd q.
Proof. by destruct q. Qed.

(** Below a directory: the path [q/s] names the entry [s] of the
    directory that [q] names. *)
Lemma resolve_child (fs : gmap loc node) cwd (q s : cstring) d t :
  resolve fs cwd q = Found d (Dir t) -> segment s ->
  resolve fs cwd (q ++ "/"%char :: s) =
  match fs !! (s :: d) with
  | Some n => Found (s :: d) n
  | None => Creatable (s :: d)
  end.
Proof.
  intros (Hne & Hs & Hw)%walk_all Hseg.
  destruct (segment_step d s Hseg) as [Hstep Hdot].
  pose proof Hseg as (_ & Hslash & _).
  assert (Hsplit : split_on "/" (q ++ "/"%char :: s) = split_on "/" q ++ [s]).
  { by rewrite split_on_app_sep, (split_on_nosep _ _ Hslash). }
  unfold resolve, path_dir, path_leaf. rewrite Hsplit, removelast_last, last_snoc.
  rewrite path_start_app by done. rewrite Hs, Hw.
  destruct (q ++ "/"%char :: s) eqn:E; [by destruct q|].
  cbn [default from_option id]. rewrite Hstep, Hdot. done.
Qed.

(** [_fs_make_dirs] on [base/s1/.../sn] below an existing directory,
    none of the [si] directories existing: it creates them one after the
    other, outermost first. *)
Lemma make_dirs_trail (base : cstring) (D : loc) (tD : Z) (w : world) (segs : list cstring) :
  forall fuel,
  resolve (files w) (cwd w) base = Found D (Dir tD) ->
  Forall segment segs ->
  (forall l, l ∈ trail_locs D segs -> files w !! l = None) ->
  length (join base segs) <= fuel ->
  exists w',
    _fs_make_dirs_rec fuel (join base segs) w
      = Ret (if decide (segs = []) then FS_EMKDIRFAIL else FS_ESUCCESS, w') /\
    grows w w' /\
    (forall l, files w' !! l =
               if decide (l ∈ trail_locs D segs) then Some (Dir (now w)) else files w !! l) /\
    (exists t, resolve (files w') (cwd w) (join base segs) = Found (descend D segs) (Dir t)) /\
    exists earlier, calls w' = rev (sys_mkdir <$> trail base segs) ++ earlier ++ calls w.
Proof.
  induction segs as [|s segs IH] using rev_ind; intros fuel Hbase Hsegs Hfree Hfuel.
  - cbn in *.
    destruct (make_dirs_existing fuel base w Hfuel) as (w' & Hrun & Hf & Hg & earlier & Hc);
      [right; eauto|].
    exists w'. split; [done|]. split; [done|]. split; [by intros l; rewrite Hf|].
    split; [exists tD; by rewrite Hf|]. exists (sys_mkdir base :: earlier). by rewrite Hc.
  - apply Forall_app in Hsegs as [Hsegs [Hs _]%Forall_cons].
    rewrite join_snoc in *. rewrite length_app in Hfuel. cbn in Hfuel.
    rewrite make_dirs_rec_unfold by (rewrite length_app; cbn; lia).
    pose proof Hs as (_ & Hslash & _).
    rewrite (strrchr_app_sep _ _ _ Hslash), take_app_length.
    destruct (IH (pred fuel)) as (w1 & Hrun1 & Hg1 & Hf1 & [t1 Hres1] & earlier & Hc1);
      try done; [|lia|].
    { intros l Hl. apply Hfree. rewrite trail_locs_snoc. apply elem_of_app. by left. }
    rewrite bind_run, Hrun1, bind_run, mkdir_run.
    assert (Hnew : files w1 !! (s :: descend D segs) = None).
    { rewrite Hf1. rewrite decide_False.
      - apply Hfree. rewrite trail_locs_snoc. apply elem_of_app. right. left.
      - intros Hin%trail_locs_length. cbn [length] in Hin.
        rewrite descend_length in Hin. lia. }
    rewrite (grows_cwd _ _ Hg1).
    rewrite (resolve_child _ _ _ _ _ _ Hres1 Hs), Hnew. cbn [mbind M_bind mret M_ret].
    rewrite decide_False by done.
    rewrite decide_False by (intros E; by apply app_eq_nil in E as [_ ?]).
    eexists. split; [done|]. split; [|split; [|split]].
    + eapply grows_trans; [done|]. split; try done; cbn.
      * by apply insert_subseteq.
      * intros l n. destruct (decide (s :: descend D segs = l)) as [<-|Hne].
        -- rewrite lookup_insert_eq. intros [= <-]. eauto.
        -- rewrite lookup_insert_ne by done. intros H1 H2. by rewrite H1 in H2.
    + intros l. cbn. rewrite trail_locs_snoc, (grows_now _ _ Hg1).
      destruct (decide (s :: descend D segs = l)) as [<-|Hne].
      * rewrite lookup_insert_eq, decide_True; [done|]. apply elem_of_app. right. left.
      * rewrite lookup_insert_ne by done. rewrite Hf1.
        destruct (decide (l ∈ trail_locs D segs)) as [Hin|Hnin].
        -- rewrite decide_True; [done|]. apply elem_of_app. by left.
        -- rewrite decide_False; [done|].
           intros [?|?%list_elem_of_singleton]%elem_of_app; done.
    + exists (now w1). cbn. rewrite descend_snoc. apply resolve_insert_dir.
      by rewrite (resolve_child _ _ _ _ _ _ Hres1 Hs), Hnew.
    + exists earlier. cbn. rewrite Hc1, trail_snoc, fmap_app, rev_app_distr. done.
Qed.

Lemma strchr_app_None (a b : cstring) c :
  strchr a c = None -> strchr (a ++ b) c = (fun i => length a + i) <$> strchr b c.
Proof.
  induction a as [|x a IH]; cbn [app strchr length].
  - intros _. by destruct (strchr b c).
  - destruct (decide (x = c)); [done|]. destruct (strchr a c) eqn:E; [done|].
    intros _. rewrite IH by done. by destruct (strchr b c).
Qed.

(** A write directory [base/?] puts every name below [base]. *)
Lemma expand_below (base name : cstring) :
  strchr base "?" = None -> expand (base ++ cs "/?") name = base ++ "/"%char :: name.
Proof.
  intros Hno.
  assert (Hk : strchr (base ++ cs "/?") "?" = Some (length base + 1)).
  { by rewrite strchr_app_None. }
  rewrite (expand_mark _ _ _ Hk).
  replace (take (length base + 1) (base ++ cs "/?")) with (base ++ cs "/").
  2:{ rewrite take_app_add'; done. }
  rewrite drop_ge by (rewrite length_app; cbn; lia).
  rewrite expand_nomark by done. rewrite app_nil_r, <- app_assoc. done.
Qed.

Lemma join_path_of (base s : cstring) (segs : list cstring) :
  base ++ "/"%char :: path_of (s :: segs) = join base (s :: segs).
Proof.
  cbn [path_of].
  replace (base ++ "/"%char :: join s segs) with ((base ++ cs "/") ++ join s segs)
    by (by rewrite <- app_assoc).
  rewrite join_app_l, <- app_assoc. done.
Qed.

(** C7.  With a write directory configured: [fs_mkdir] on a name whose
    path exists returns MkdirFail, so a second [fs_mkdir] of the same name
    fails after a first that succeeded; and with the write directory
    [base/?] over an existing directory, [fs_mkdir] of [s1/.../sn], whose
    first segment (hence, the file system being well-formed, every
    segment) does not exist yet, returns Success, creates each of
    [base/s1], ..., [base/s1/.../sn], and makes these directories in that
    order, outermost first. *)
Theorem mkdir_not_idempotent_creates_tree :
  (forall (w : world) (path : cstring),
     _fs_write_dir w <> [] ->
     length (expand (_fs_write_dir w) path) < FS_MAX_PATH ->
     is_Some (probe (files w) (cwd w) (expand (_fs_write_dir w) path)) ->
     result (fs_mkdir path) w = Ret FS_EMKDIRFAIL) /\
  (forall (w : world) (path : cstring),
     result (fs_mkdir path) w = Ret FS_ESUCCESS ->
     result (_ ← fs_mkdir path; fs_mkdir path) w = Ret FS_EMKDIRFAIL) /\
  (forall (w : world) (base : cstring) (D : loc) (tD : Z) (s : cstring)
          (segs : list cstring),
     _fs_write_dir w = base ++ cs "/?" ->
     strchr base "?" = None ->
     resolve (files w) (cwd w) base = Found D (Dir tD) ->
     wf (files w) ->
     Forall segment (s :: segs) ->
     files w !! (s :: D) = None ->
     length (join base (s :: segs)) < FS_MAX_PATH ->
     result (fs_mkdir (path_of (s :: segs))) w = Ret FS_ESUCCESS /\
     Forall (fun l => files w !! l = None /\
                      files (after (fs_mkdir (path_of (s :: segs))) w) !! l
                        = Some (Dir (now w)))
            (trail_locs D (s :: segs)) /\
     exists earlier,
       calls (after (fs_mkdir (path_of (s :: segs))) w)
         = rev (sys_mkdir <$> trail base (s :: segs)) ++ earlier ++ calls w).
Proof.
  split; [|split].
  - intros w path Hwd Hfit Hex.
    destruct (fs_mkdir_existing path w Hwd Hfit Hex) as (w' & Hrun & _).
    unfold result. by rewrite Hrun.
  - intros w path [w' Hrun]%result_Ret_inv. rewrite (result_bind _ _ _ _ _ Hrun).
    apply fs_mkdir_success in Hrun as (Hwd & Hfit & Hrun).
    apply make_dirs_rec_success in Hrun as (Hg & l & t & Hres); [|done].
    destruct (fs_mkdir_existing path w') as (w'' & Hrun' & _);
      rewrite ?(grows_write_dir _ _ Hg); try done.
    + unfold probe. by rewrite Hres.
    + unfold result. by rewrite Hrun'.
  - intros w base D tD s segs Hwd Hno Hbase Hwf Hsegs Hfree Hfit.
    assert (Hp : expand (_fs_write_dir w) (path_of (s :: segs)) = join base (s :: segs)).
    { by rewrite Hwd, expand_below, join_path_of. }
    assert (Hfree' : forall l, l ∈ trail_locs D (s :: segs) -> files w !! l = None).
    { intros l Hl%trail_locs_suffix. destruct (files w !! l) as [n|] eqn:E; [|done].
      destruct (decide (s :: D = l)) as [<-|Hne]; [congruence|].
      assert (is_dir (files w) (s :: D) = true) as [t Ht]%is_dir_true; [|congruence].
      eapply wf_ancestor; eauto. }
    destruct (make_dirs_trail base D tD w (s :: segs) (strlen (join base (s :: segs))))
      as (w' & Hrun & _ & Hf & _ & earlier & Hc); try done.
    assert (Hrun' : fs_mkdir (path_of (s :: segs)) w = Ret (FS_ESUCCESS, w')).
    { rewrite fs_mkdir_run.
      - rewrite Hp. unfold _fs_make_dirs. rewrite Hrun. by rewrite decide_False.
      - rewrite Hwd. by destruct base.
      - by rewrite Hp. }
    unfold result, after. rewrite Hrun'. split; [done|]. split; [|by exists earlier].
    apply Forall_forall. intros l Hl. split; [by apply Hfree'|].
    rewrite Hf. by rewrite decide_True.
Qed.

Lemma mkdir_not_idempotent_creates_tree_witness :
  result (fs_mkdir (cs "foo")) with_foo = Ret FS_EMKDIRFAIL /\
  result (_ ← fs_mkdir (cs "foo"); fs_mkdir (cs "foo")) configured = Ret FS_EMKDIRFAIL /\
  (result (fs_mkdir (path_of [cs "a"; cs "b"; cs "c"])) configured = Ret FS_ESUCCESS /\
   Forall (fun l => files configured !! l = None /\
                    files (after (fs_mkdir (path_of [cs "a"; cs "b"; cs "c"])) configured) !! l
                      = Some (Dir (now configured)))
          (trail_locs [cs "sandbox"] [cs "a"; cs "b"; cs "c"]) /\
   exists earlier,
     calls (after (fs_mkdir (path_of [cs "a"; cs "b"; cs "c"])) configured)
       = rev (sys_mkdir <$> trail (cs ".") [cs "a"; cs "b"; cs "c"]) ++ earlier
         ++ calls configured).
Proof.
  destruct mkdir_not_idempotent_creates_tree as (Hexists & Htwice & Htree).
  split; [|split].
  - apply Hexists.
    + vm_compute. discriminate.
    + vm_compute. lia.
    + vm_compute. eexists. reflexivity.
  - apply Htwice. vm_compute. reflexivity.
  - apply (Htree configured (cs ".") [cs "sandbox"] 0%Z (cs "a") [cs "b"; cs "c"]).
    + reflexivity.
    + reflexivity.
    + vm_compute. reflexivity.
    + apply (bool_decide_unpack _). vm_compute. exact I.
    + repeat constructor; (vm_compute; discriminate).
    + vm_compute. reflexivity.
    + vm_compute. lia.
Defined.

(** ** The iteration bounds are never reached *)

Lemma concat_path_not_exhausted (buf : buffer) (path filename : cstring) :
  length buf = FS_MAX_PATH -> _fs_concat_path buf path filename <> Fault Exhausted.
Proof.
  intros Hbuf E. pose proof (concat_path_spec buf path filename Hbuf) as H.
  rewrite E in H. by destruct H.
Qed.

Lemma make_dirs_not_exhausted (path : cstring) (w : world) :
  exists r w', _fs_make_dirs path w = Ret (r, w').
Proof.
  destruct (make_dirs_rec_grows (strlen path) path w) as (r & w' & H & _); [done|]. eauto.
Qed.

Lemma check_search_path_loop_not_exhausted (name : cstring) fuel :
  forall (path : cstring) (str buf : buffer) (fstat : option stat_t) (w : world),
  length path < fuel -> length path < FS_MAX_PATH ->
  length str = FS_MAX_PATH -> length buf = FS_MAX_PATH ->
  _fs_check_search_path_loop fuel name path str buf fstat w <> Fault Exhausted.
Proof.
  induction fuel as [|fuel IH]; intros path str buf fstat w Hfuel Hlen Hstr Hbuf; [lia|].
  cbn [_fs_check_search_path_loop]. rewrite bind_run.
  destruct (get_template_spec path str Hlen Hstr)
    as [[Hnil ->]|(t & rest & str' & -> & Hct & Hstr' & Hcons & Hrest)]; cbn [lift]; [done|].
  rewrite bind_run, Hct. cbn [lift]. rewrite bind_run.
  pose proof (concat_path_spec buf t name Hbuf) as Hc.
  destruct (_fs_concat_path buf t name) as [[e1 buf1]|f]; [|by destruct Hc as [-> _]].
  destruct Hc as [Hbuf1 [(-> & _ & Hcs)|(-> & ?)]]; cbn [lift]; [|done].
  rewrite decide_False by (intros ?; done).
  rewrite bind_run, Hcs. cbn [lift]. rewrite bind_run, stat_run.
  destruct (probe (files w) (cwd w) (expand t name)); [done|].
  apply IH; try done; lia.
Qed.

Lemma check_search_path_not_exhausted (name : cstring) (buf : buffer)
    (fstat : option stat_t) (w : world) :
  strlen (_fs_search_path w) < FS_MAX_PATH -> length buf = FS_MAX_PATH ->
  _fs_check_search_path name buf fstat w <> Fault Exhausted.
Proof.
  intros Hlen Hbuf. unfold _fs_check_search_path. rewrite bind_run. cbn [get_world].
  destruct (decide (_fs_search_path w = [])); [done|].
  apply check_search_path_loop_not_exhausted; try done; try apply char_array_length;
    unfold strlen in *; lia.
Qed.

(** ** When the template ends in its marker *)

(** For the templates of the documentation, which all end in the marker,
    the routine does compute the global substitution. *)
Lemma expand_marker_last (t r : cstring) :
  expand (t ++ FS_PATH_MARK) r = gsub (t ++ FS_PATH_MARK) r.
Proof.
  unfold expand. f_equal. unfold upto_last_mark.
  change (deref FS_PATH_MARK) with "?"%char. change FS_PATH_MARK with ["?"%char].
  rewrite (strrchr_app_sep t [] "?") by done.
  rewrite take_ge; [done|]. rewrite length_app. cbn. lia.
Qed.

(** ** What does hold of the guards *)

(** [fs_write] and [fs_append] do refuse a path with a parent segment,
    though only after the directory tree has been created. *)
Lemma write_pipeline_rejects_parent (mode : fmode) (name : cstring) (d : fs_write_desc)
    (w : world) :
  _fs_write_dir w <> [] ->
  length (expand (_fs_write_dir w) name) < FS_MAX_PATH ->
  strstr (expand (_fs_write_dir w) name) (cs "..") <> None ->
  result (write_pipeline mode name d) w = Ret FS_EWRITEFAIL.
Proof.
  intros Hwd Hfit Hdots. unfold result, write_pipeline. rewrite bind_run. cbn [get_world].
  rewrite decide_False by done. rewrite bind_run.
  pose proof (concat_path_spec (char_array FS_MAX_PATH) (_fs_write_dir w) name
                (char_array_length _)) as Hc.
  destruct (_fs_concat_path _ _ _) as [[e buf]|f]; [|destruct Hc; lia].
  destruct Hc as [_ [(-> & _ & Hcs)|(_ & ?)]]; [|lia].
  cbn [lift]. rewrite decide_False by (intros ?; done). rewrite bind_run.
  destruct (create_dir_tree_grows buf _ w Hcs) as (w1 & -> & _).
  rewrite bind_run, Hcs. cbn [lift]. unfold _fs_write_to_file_ext.
  by destruct (strstr _ _).
Qed.

(** [_fs_write_to_file_ext] closes the stream it opens on every path on
    which it returns. *)
Lemma write_to_file_ext_closes (p : cstring) (mode : fmode) (d : fs_write_desc)
    (w w' : world) (r : Z) :
  streams w !! next_fp w = None ->
  _fs_write_to_file_ext p mode d w = Ret (r, w') ->
  streams w' = streams w.
Proof.
  intros Hfresh. unfold _fs_write_to_file_ext.
  destruct (strstr p (cs "..")); [by intros [= _ <-]|].
  assert (Hclose : forall (s : stream) (x : option stream),
            delete (next_fp w)
              (match x with
               | Some s' => <[next_fp w := s']> (<[next_fp w := s]> (streams w))
               | None => <[next_fp w := s]> (streams w)
               end) = streams w).
  { intros s [s'|]; rewrite ?insert_insert_eq; by apply delete_insert_id. }
  unfold fopen, open_stream, fwrite, fclose, lift. msimpl.
  destruct (resolve (files w) (cwd w) p) as [l [t0 c0|t0]|l|]; destruct mode; msimpl;
    try (by intros [= _ <-]);
    (destruct (decide (length (desc_data d) < desc_size d)); [done|]);
    rewrite ?lookup_insert_eq; cbn [s_mode s_loc s_pos]; rewrite ?lookup_insert_eq;
    msimpl; try (destruct (files w !! l) as [[]|]; msimpl);
    intros [= _ <-]; cbn [streams set_streams set_files set_disk_free log_call];
    first [ apply (Hclose _ (Some _)) | apply (Hclose _ None) ].
Qed.

(** ** When the global substitution fits *)

Lemma gsub_take_length (s r : cstring) k :
  length (gsub (take k s) r) <= length (gsub s r).
Proof.
  revert k. induction s as [|c s IH]; intros [|k]; cbn [take gsub length]; try lia.
  destruct (decide ([c] = FS_PATH_MARK)); rewrite ?length_app; cbn [length];
    specialize (IH k); lia.
Qed.

Lemma expand_length_le (s r : cstring) : length (expand s r) <= length (gsub s r).
Proof.
  unfold expand, upto_last_mark. destruct (strrchr s _); [apply gsub_take_length|cbn; lia].
Qed.

(** Whenever the global substitution fits, the routine succeeds, with
    the substitution of the template cut after its last marker. *)
Lemma concat_path_expands (buf : buffer) (path filename : cstring) :
  length buf = FS_MAX_PATH ->
  length (gsub path filename) < FS_MAX_PATH ->
  exists buf', _fs_concat_path buf path filename = Ret (FS_ESUCCESS, buf') /\
               c_str buf' = Ret (expand path filename).
Proof.
  intros Hbuf Hfit. pose proof (expand_length_le path filename) as Hle.
  pose proof (concat_path_spec buf path filename Hbuf) as Hc.
  destruct (_fs_concat_path buf path filename) as [[e buf']|f]; [|destruct Hc; lia].
  destruct Hc as [_ [(-> & _ & Hcs)|(_ & ?)]]; [|lia]. by exists buf'.
Qed.

(** ** The public read-side operations *)

(** [fs_get_info] reports the first candidate that exists. *)
Lemma fs_get_info_first_match (w : world) (name : cstring) (info : option fs_info) :
  _fs_search_path w <> [] ->
  strlen (_fs_search_path w) < FS_MAX_PATH ->
  (forall p, p ∈ tried (files w) (cwd w) (candidates (_fs_search_path w) name) ->
             length p < FS_MAX_PATH) ->
  result (fs_get_info name info) w =
  Ret (match first_existing (files w) (cwd w) (candidates (_fs_search_path w) name) with
       | Some (_, st) =>
           (FS_ESUCCESS, Some {| info_type := file_type_of st; info_size := st_size st;
                                 info_modtime := st_mtime st |})
       | None => (FS_EFAILURE, info)
       end).
Proof.
  intros Hne Hlen Hfit. unfold result, fs_get_info. rewrite bind_run. cbn [get_world].
  rewrite decide_False by done. rewrite bind_run.
  destruct (check_search_path_spec w name (char_array FS_MAX_PATH) None Hne Hlen
              (char_array_length _) Hfit) as (e & buf' & fstat' & w' & -> & _ & _ & Hm).
  destruct (first_existing _ _ _) as [[p st]|].
  - destruct Hm as (-> & -> & _). rewrite decide_False by (intros ?; done). done.
  - destruct Hm as (-> & _). done.
Qed.

(** [fs_exists] succeeds exactly when some candidate exists as a regular
    file, a directory or a link. *)
Lemma fs_exists_first_match (w : world) (name : cstring) :
  _fs_search_path w <> [] ->
  strlen (_fs_search_path w) < FS_MAX_PATH ->
  (forall p, p ∈ tried (files w) (cwd w) (candidates (_fs_search_path w) name) ->
             length p < FS_MAX_PATH) ->
  result (fs_exists name) w =
  Ret (match first_existing (files w) (cwd w) (candidates (_fs_search_path w) name) with
       | Some (_, st) =>
           if decide (file_type_of st <> FS_FILETYPE_NONE) then FS_ESUCCESS else FS_EFAILURE
       | None => FS_EFAILURE
       end).
Proof.
  intros Hne Hlen Hfit. unfold result, fs_exists, _fs_get_type. rewrite bind_run.
  cbn [get_world]. rewrite decide_False by done. rewrite !bind_run.
  destruct (check_search_path_spec w name (char_array FS_MAX_PATH) None Hne Hlen
              (char_array_length _) Hfit) as (e & buf' & fstat' & w' & -> & _ & _ & Hm).
  destruct (first_existing _ _ _) as [[p st]|].
  - destruct Hm as (-> & -> & _). rewrite decide_False by (intros ?; done).
    cbn [the_stat]. rewrite bind_run. cbn [mret M_ret]. unfold file_type_of.
    by destruct (st_mode st).
  - destruct Hm as (-> & _). done.
Qed.
(** * Further properties *)

(** ** Error messages *)

(** X1.  [fs_strerror] tells the codes apart: two codes with the same
    message are the same code or both outside the [enum], and the message
    is ["unknown error"] exactly for the codes outside it. *)
Theorem strerror_distinct (a b : Z) :
  (fs_strerror a = fs_strerror b -> a = b \/ ((a ∉ error_codes) /\ (b ∉ error_codes))) /\
  (fs_strerror a = cs "unknown error" <-> a ∉ error_codes).
Proof.
  assert (Hin : forall e, e ∈ error_codes <->
            e = FS_ESUCCESS \/ e = FS_EFAILURE \/ e = FS_ETOOLONG \/ e = FS_ENOWRITEDIR \/
            e = FS_EWRITEFAIL \/ e = FS_EMKDIRFAIL \/ e = FS_ENOSEARCHPATH \/ e = FS_EREMOVE).
  { intros e. unfold error_codes. rewrite !elem_of_cons, elem_of_nil. tauto. }
  rewrite !Hin. unfold fs_strerror.
  split.
  - repeat (destruct (decide (a = _)) as [->|?]);
      repeat (destruct (decide (b = _)) as [->|?]);
      first [ by left | discriminate | intros _; right; tauto ].
  - repeat (destruct (decide (a = _)) as [->|?]); split; first [ discriminate | tauto ].
Qed.

Lemma strerror_distinct_witness :
  (FS_EREMOVE = FS_EREMOVE \/ ((FS_EREMOVE ∉ error_codes) /\ (FS_EREMOVE ∉ error_codes))) /\
  fs_strerror 1%Z = cs "unknown error".
Proof.
  split.
  - apply (proj1 (strerror_distinct FS_EREMOVE FS_EREMOVE)). reflexivity.
  - apply (proj2 (strerror_distinct 1%Z 1%Z)). vm_compute.
    intros H. repeat (apply elem_of_cons in H as [H|H]; [discriminate H|]).
    by apply elem_of_nil in H.
Defined.

(** ** The codes a call can return *)

Ltac in_list := repeat first [ by left | right ].

Lemma concat_path_code (buf buf' : buffer) (path filename : cstring) (e : Z) :
  length buf = FS_MAX_PATH ->
  _fs_concat_path buf path filename = Ret (e, buf') ->
  length buf' = FS_MAX_PATH /\
  ((e = FS_ESUCCESS /\ c_str buf' = Ret (expand path filename)) \/ e = FS_ETOOLONG).
Proof.
  intros Hbuf E. pose proof (concat_path_spec buf path filename Hbuf) as H.
  rewrite E in H. destruct H as [? [(? & _ & ?)|(? & _)]]; eauto.
Qed.

Lemma write_to_file_ext_code (p : cstring) (mode : fmode) (d : fs_write_desc)
    (w w' : world) (r : Z) :
  _fs_write_to_file_ext p mode d w = Ret (r, w') -> r = FS_ESUCCESS \/ r = FS_EWRITEFAIL.
Proof.
  unfold _fs_write_to_file_ext. destruct (strstr p (cs "..")); [intros [= <- _]; by right|].
  intros (fp & w1 & _ & H)%bind_Ret_inv. destruct fp as [fp|]; [|injection H as <- _; by right].
  apply bind_Ret_inv in H as (k & w2 & _ & H).
  apply bind_Ret_inv in H as (? & w3 & _ & H). injection H as <- _.
  destruct (decide _); [by left|by right].
Qed.

Lemma make_dirs_rec_code fuel (path : cstring) (w w' : world) (r : Z) :
  _fs_make_dirs_rec fuel path w = Ret (r, w') -> r = FS_ESUCCESS \/ r = FS_EMKDIRFAIL.
Proof.
  intros H.
  assert (exists (m : M Z), _fs_make_dirs_rec fuel path =
            (_ ← m; r ← mkdir path;
             mret (if decide (r = (-1)%Z) then FS_EMKDIRFAIL else FS_ESUCCESS)))
    as [m Hm] by (destruct fuel; eexists; reflexivity).
  rewrite Hm in H. apply bind_Ret_inv in H as (? & w1 & _ & H).
  apply bind_Ret_inv in H as (k & w2 & _ & H). injection H as <- _.
  destruct (decide _); [by right|by left].
Qed.

(** The head every write-side call shares: the guard on the write
    directory and the expansion of its template. *)
Lemma write_side_head {A} (name : cstring) (k : buffer -> M A) (fail : Z -> A)
    (w w' : world) (a : A) :
  (w0 ← get_world;
   if decide (_fs_write_dir w0 = []) then mret (fail FS_ENOWRITEDIR) else
   '(err, buf) ← lift (_fs_concat_path (char_array FS_MAX_PATH) (_fs_write_dir w0) name);
   if decide (err <> 0%Z) then mret (fail err) else k buf) w = Ret (a, w') ->
  (a = fail FS_ENOWRITEDIR /\ w' = w /\ _fs_write_dir w = []) \/
  (a = fail FS_ETOOLONG /\ w' = w /\ _fs_write_dir w <> [] /\
   FS_MAX_PATH <= length (expand (_fs_write_dir w) name)) \/
  (exists buf, k buf w = Ret (a, w') /\ _fs_write_dir w <> [] /\
     c_str buf = Ret (expand (_fs_write_dir w) name) /\
     length (expand (_fs_write_dir w) name) < FS_MAX_PATH).
Proof.
  rewrite bind_run. cbn [get_world].
  destruct (decide (_fs_write_dir w = [])) as [Hwd|Hwd]; [intros [= <- <-]; by left|].
  rewrite bind_run.
  pose proof (concat_path_spec (char_array FS_MAX_PATH) (_fs_write_dir w) name
                (char_array_length _)) as Hc.
  destruct (_fs_concat_path _ _ _) as [[e buf]|f]; [|done]. cbn [lift].
  destruct Hc as [_ [(-> & Hfit & Hcs)|(-> & Hlong)]].
  - rewrite decide_False by (intros ?; done). intros H. right. right. by exists buf.
  - rewrite decide_True by done. intros [= <- <-]. right. by left.
Qed.

(** X2.  The codes the write-side calls return.  [fs_write] and
    [fs_append] return only success, TooLong, NoWriteDir or WriteFail
    (never MkdirFail, although they create directories), [fs_mkdir] only
    success, TooLong, NoWriteDir or MkdirFail, [fs_delete] only success,
    TooLong, NoWriteDir or Remove; each of these codes has a message of
    its own in [fs_strerror]. *)
Theorem write_side_codes (w : world) (name : cstring) (d : fs_write_desc) (r : Z) :
  ((result (fs_write name d) w = Ret r \/ result (fs_append name d) w = Ret r ->
    r ∈ [FS_ESUCCESS; FS_ETOOLONG; FS_ENOWRITEDIR; FS_EWRITEFAIL]) /\
   (result (fs_mkdir name) w = Ret r ->
    r ∈ [FS_ESUCCESS; FS_ETOOLONG; FS_ENOWRITEDIR; FS_EMKDIRFAIL]) /\
   (result (fs_delete name) w = Ret r ->
    r ∈ [FS_ESUCCESS; FS_ETOOLONG; FS_ENOWRITEDIR; FS_EREMOVE])) /\
  (result (fs_write name d) w = Ret r \/ result (fs_append name d) w = Ret r \/
   result (fs_mkdir name) w = Ret r \/ result (fs_delete name) w = Ret r ->
   fs_strerror r <> cs "unknown error").
Proof.
  assert (Hw : forall mode, result (write_pipeline mode name d) w = Ret r ->
            r ∈ [FS_ESUCCESS; FS_ETOOLONG; FS_ENOWRITEDIR; FS_EWRITEFAIL]).
  { intros mode (w' & H)%result_Ret_inv. unfold write_pipeline in H.
    apply (write_side_head name _ id) in H
      as [(-> & _)|[(-> & _)|(buf & H & _ & Hcs & _)]]; [in_list..|].
    apply bind_Ret_inv in H as ([] & w1 & _ & H). rewrite bind_run, Hcs in H. cbn [lift] in H.
    apply write_to_file_ext_code in H as [->| ->]; in_list. }
  assert (Hm : result (fs_mkdir name) w = Ret r ->
            r ∈ [FS_ESUCCESS; FS_ETOOLONG; FS_ENOWRITEDIR; FS_EMKDIRFAIL]).
  { intros (w' & H)%result_Ret_inv. unfold fs_mkdir in H.
    apply (write_side_head name _ id) in H
      as [(-> & _)|[(-> & _)|(buf & H & _ & Hcs & _)]]; [in_list..|].
    rewrite bind_run, Hcs in H. cbn [lift] in H.
    apply make_dirs_rec_code in H as [->| ->]; in_list. }
  assert (Hd : result (fs_delete name) w = Ret r ->
            r ∈ [FS_ESUCCESS; FS_ETOOLONG; FS_ENOWRITEDIR; FS_EREMOVE]).
  { intros (w' & H)%result_Ret_inv. unfold fs_delete in H.
    apply (write_side_head name _ id) in H
      as [(-> & _)|[(-> & _)|(buf & H & _ & Hcs & _)]]; [in_list..|].
    rewrite bind_run, Hcs in H. cbn [lift] in H.
    apply bind_Ret_inv in H as (k & w1 & _ & H). injection H as <- _.
    destruct (decide _); in_list. }
  split; [split; [intros [H|H]; by eapply Hw|done]|].
  intros H.
  assert (Hr : r ∈ [FS_ESUCCESS; FS_ETOOLONG; FS_ENOWRITEDIR; FS_EWRITEFAIL;
                    FS_EMKDIRFAIL; FS_EREMOVE]).
  { destruct H as [H|[H|[H|H]]];
      [apply (Hw _FS_MWRITE) in H|apply (Hw _FS_MAPPEND) in H|apply Hm in H|apply Hd in H];
      rewrite !elem_of_cons in *; tauto. }
  repeat (apply elem_of_cons in Hr as [->|Hr]; [discriminate|]).
  by apply elem_of_nil in Hr.
Qed.

Lemma write_side_codes_witness :
  (FS_ESUCCESS ∈ [FS_ESUCCESS; FS_ETOOLONG; FS_ENOWRITEDIR; FS_EWRITEFAIL]) /\
  (FS_EMKDIRFAIL ∈ [FS_ESUCCESS; FS_ETOOLONG; FS_ENOWRITEDIR; FS_EMKDIRFAIL]) /\
  (FS_EREMOVE ∈ [FS_ESUCCESS; FS_ETOOLONG; FS_ENOWRITEDIR; FS_EREMOVE]) /\
  fs_strerror FS_EREMOVE <> cs "unknown error".
Proof.
  destruct (write_side_codes configured (cs "example.txt") (payload "quick brown fox")
              FS_ESUCCESS) as [(Hw & _ & _) _].
  destruct (write_side_codes with_foo (cs "foo") (payload "") FS_EMKDIRFAIL)
    as [(_ & Hm & _) _].
  destruct (write_side_codes configured (cs "example.txt") (payload "") FS_EREMOVE)
    as [(_ & _ & Hd) Hs].
  split; [apply Hw; left; vm_compute; reflexivity|].
  split; [apply Hm; vm_compute; reflexivity|].
  split; [apply Hd; vm_compute; reflexivity|].
  apply Hs. right. right. right. vm_compute. reflexivity.
Defined.

Lemma lift_Ret_inv {A} (o : outcome A) (w w' : world) (a : A) :
  lift o w = Ret (a, w') -> o = Ret a /\ w' = w.
Proof. destruct o; [|done]. by intros [= -> ->]. Qed.

Global Instance same_state_refl : Reflexive same_state.
Proof. intros w. unfold same_state. tauto. Qed.

Global Instance same_state_trans : Transitive same_state.
Proof. intros w1 w2 w3. unfold same_state. intuition congruence. Qed.

Lemma same_state_log c w : same_state w (log_call c w).
Proof. unfold same_state. cbn. tauto. Qed.

(** The loop of [_fs_check_search_path], on every path on which it
    returns: nothing but the record of calls has changed, and on
    success the array holds a path that [stat] found, with its metadata
    in [fstat]; on failure [fstat] is as it was. *)
Lemma check_search_path_loop_inv (name : cstring) fuel :
  forall (path : cstring) (str buf : buffer) (fstat : option stat_t) (w : world)
         e buf' fstat' w',
  length buf = FS_MAX_PATH ->
  _fs_check_search_path_loop fuel name path str buf fstat w = Ret ((e, buf', fstat'), w') ->
  same_state w w' /\ length buf' = FS_MAX_PATH /\
  ((e = FS_ESUCCESS /\ exists p st, c_str buf' = Ret p /\ fstat' = Some st /\
       probe (files w) (cwd w) p = Some st) \/
   ((e = FS_EFAILURE \/ e = FS_ETOOLONG) /\ fstat' = fstat)).
Proof.
  induction fuel as [|fuel IH]; intros path str buf fstat w e buf' fstat' w' Hbuf;
    cbn [_fs_check_search_path_loop]; intros H;
    apply bind_Ret_inv in H as ([t str1] & w1 & [_ ->]%lift_Ret_inv & H);
    (destruct t as [path'|];
     [|injection H as <- <- <- <-; split; [reflexivity|]; split; [done|]; right; eauto]);
    [done|].
  apply bind_Ret_inv in H as (tpl & w1 & [_ ->]%lift_Ret_inv & H).
  apply bind_Ret_inv in H as ([err buf1] & w1 & [Hc ->]%lift_Ret_inv & H).
  apply concat_path_code in Hc as [Hbuf1 Hc]; [|done].
  destruct (decide (err <> 0%Z)) as [Herr|Herr].
  - injection H as <- <- <- <-. split; [reflexivity|]. split; [done|]. right.
    destruct Hc as [[-> _]| ->]; [by destruct Herr|eauto].
  - destruct Hc as [[_ Hcs]| ->]; [|exfalso; apply Herr; discriminate].
    rewrite bind_run, Hcs in H. cbn [lift] in H. rewrite bind_run, stat_run in H.
    destruct (probe (files w) (cwd w) (expand tpl name)) as [st|] eqn:Est.
    + injection H as <- <- <- <-. split; [apply same_state_log|]. split; [done|].
      left. split; [done|]. by exists (expand tpl name), st.
    + apply IH in H as (Hs & Hb & Hr); [|done]. split; [|split; [done|]].
      * etrans; [apply same_state_log|done].
      * destruct Hr as [(-> & p & st & ? & ? & ?)|?]; [left|by right].
        split; [done|]. by exists p, st.
Qed.

Lemma check_search_path_inv (name : cstring) (buf : buffer) (fstat : option stat_t)
    (w : world) e buf' fstat' w' :
  length buf = FS_MAX_PATH ->
  _fs_check_search_path name buf fstat w = Ret ((e, buf', fstat'), w') ->
  same_state w w' /\
  ((e = FS_ESUCCESS /\ _fs_search_path w <> [] /\ exists p st,
       c_str buf' = Ret p /\ fstat' = Some st /\ probe (files w) (cwd w) p = Some st) \/
   ((e = FS_EFAILURE \/ e = FS_ETOOLONG) /\ _fs_search_path w <> [] /\ fstat' = fstat) \/
   (e = FS_ENOSEARCHPATH /\ _fs_search_path w = [] /\ fstat' = fstat)).
Proof.
  intros Hbuf. unfold _fs_check_search_path. rewrite bind_run. cbn [get_world].
  destruct (decide (_fs_search_path w = [])) as [Hsp|Hsp].
  - intros [= <- <- <- <-]. split; [reflexivity|]. right. by right.
  - intros H. apply check_search_path_loop_inv in H; [|done].
    destruct H as (? & _ & [(? & ?)|(? & ?)]).
    + split; [done|]. by left.
    + split; [done|]. right. by left.
Qed.

(** X3.  The codes the read-side calls return.  [fs_exists] returns only
    success, failure or NoSearchPath: a candidate too long for the array
    is reported as plain failure.  [fs_get_info] returns only success,
    failure, TooLong or NoSearchPath, and leaves the caller's [info] as
    it was unless it succeeds.  Each code has a message of its own. *)
Theorem read_side_codes (w : world) (name : cstring) (info : option fs_info) :
  (forall r, result (fs_exists name) w = Ret r ->
     r ∈ [FS_ESUCCESS; FS_EFAILURE; FS_ENOSEARCHPATH] /\
     fs_strerror r <> cs "unknown error") /\
  (forall r i, result (fs_get_info name info) w = Ret (r, i) ->
     r ∈ [FS_ESUCCESS; FS_EFAILURE; FS_ETOOLONG; FS_ENOSEARCHPATH] /\
     fs_strerror r <> cs "unknown error" /\
     (r <> FS_ESUCCESS -> i = info)).
Proof.
  split.
  - intros r (w' & H)%result_Ret_inv. unfold fs_exists in H.
    rewrite bind_run in H. cbn [get_world] in H.
    destruct (decide _); [injection H as <- _; split; [in_list|done]|].
    apply bind_Ret_inv in H as (t & w1 & _ & H). injection H as <- _.
    destruct (decide _); (split; [in_list|done]).
  - intros r i (w' & H)%result_Ret_inv. unfold fs_get_info in H.
    rewrite bind_run in H. cbn [get_world] in H.
    destruct (decide _); [injection H as <- <- _; split; [in_list|done]|].
    apply bind_Ret_inv in H as ([[e buf'] fstat'] & w1 & Hc & H).
    apply check_search_path_inv in Hc as [_ Hc]; [|apply char_array_length].
    destruct (decide (e <> 0%Z)) as [He|He].
    + injection H as <- <- _.
      destruct Hc as [(-> & _)|[([-> | ->] & _)|(-> & _)]];
        (split; [in_list|done]).
    + apply bind_Ret_inv in H as (st & w2 & _ & H). injection H as <- <- _.
      split; [in_list|done].
Qed.

Lemma read_side_codes_witness :
  ((FS_EFAILURE ∈ [FS_ESUCCESS; FS_EFAILURE; FS_ENOSEARCHPATH]) /\
   fs_strerror FS_EFAILURE <> cs "unknown error") /\
  ((FS_ETOOLONG ∈ [FS_ESUCCESS; FS_EFAILURE; FS_ETOOLONG; FS_ENOSEARCHPATH]) /\
   fs_strerror FS_ETOOLONG <> cs "unknown error" /\
   (FS_ETOOLONG <> FS_ESUCCESS -> @None fs_info = None)).
Proof.
  split.
  - apply (proj1 (read_side_codes configured (cs "example.txt") None)).
    vm_compute. reflexivity.
  - apply (proj2 (read_side_codes (set_search_path (cs "?") boot) long_name None)).
    vm_compute. reflexivity.
Defined.

(** X4.  [fs_exists] and [fs_get_info] agree: [fs_exists] succeeds
    exactly when [fs_get_info] succeeds with a type other than
    [FS_FILETYPE_NONE]; where [fs_get_info] reports TooLong, [fs_exists]
    reports plain failure. *)
Theorem exists_agrees_with_get_info (w : world) (name : cstring) (info : option fs_info) :
  (result (fs_exists name) w = Ret FS_ESUCCESS <->
   exists i, result (fs_get_info name info) w = Ret (FS_ESUCCESS, Some i) /\
             info_type i <> FS_FILETYPE_NONE) /\
  (forall i, result (fs_get_info name info) w = Ret (FS_ETOOLONG, i) ->
             result (fs_exists name) w = Ret FS_EFAILURE).
Proof.
  unfold result, fs_exists, fs_get_info, _fs_get_type. rewrite !bind_run. cbn [get_world].
  destruct (decide (_fs_search_path w = [])) as [Hsp|Hsp].
  { split; [split; [done|by intros (i & [=] & _)]|done]. }
  rewrite !bind_run.
  destruct (_fs_check_search_path name (char_array FS_MAX_PATH) None w)
    as [[[[e buf'] fstat'] w1]|f] eqn:Hc; [|split; [split; [done|by intros (i & [=] & _)]|done]].
  apply check_search_path_inv in Hc as [_ Hc]; [|apply char_array_length].
  destruct Hc as [(-> & _ & p & st & _ & -> & _)|[([-> | ->] & _)|(-> & _)]];
    try (split; [split; [done|by intros (i & [=] & _)]|done]).
  rewrite !decide_False by (intros ?; done). cbn [the_stat]. rewrite !bind_run.
  cbn [mret M_ret]. split; [|done].
  destruct (st_mode st); cbn [S_ISREG S_ISDIR S_ISLNK];
    [split; [intros _; eexists; split; [reflexivity|discriminate]|done]..|].
  split; [discriminate|]. intros (i & [= <-] & Hi). by destruct Hi.
Qed.

Lemma exists_agrees_with_get_info_witness :
  (exists i, result (fs_get_info (cs "example.txt") None) with_example
               = Ret (FS_ESUCCESS, Some i) /\ info_type i <> FS_FILETYPE_NONE) /\
  result (fs_exists long_name) (set_search_path (cs "?") boot) = Ret FS_EFAILURE.
Proof.
  split.
  - apply (proj1 (exists_agrees_with_get_info with_example (cs "example.txt") None)).
    vm_compute. reflexivity.
  - apply (proj2 (exists_agrees_with_get_info (set_search_path (cs "?") boot) long_name None)
             None).
    vm_compute. reflexivity.
Defined.

(** ** What a call leaves alone *)

Global Instance unchanged_refl {X} (obs : world -> X) : Reflexive (unchanged obs).
Proof. by intros w. Qed.

Global Instance unchanged_trans {X} (obs : world -> X) : Transitive (unchanged obs).
Proof. unfold unchanged. intros w1 w2 w3 H1 H2. congruence. Qed.

Section keeps.
Context (R : relation world) `{!Reflexive R, !Transitive R}.

Lemma keeps_ret {A} (a : A) : keeps R (mret a).
Proof. by intros w a' w' [= _ <-]. Qed.

Lemma keeps_lift {A} (o : outcome A) : keeps R (lift o).
Proof. by intros w a w' [_ ->]%lift_Ret_inv. Qed.

Lemma keeps_get_world : keeps R get_world.
Proof. by intros w a w' [= _ <-]. Qed.

Lemma keeps_modify (f : world -> world) : (forall w, R w (f w)) -> keeps R (modify f).
Proof. intros Hf w [] w' [= <-]. apply Hf. Qed.

Lemma keeps_bind {A B} (m : M A) (k : A -> M B) :
  keeps R m -> (forall a, keeps R (k a)) -> keeps R (m ≫= k).
Proof.
  intros Hm Hk w b w'' (a & w' & H1 & H2)%bind_Ret_inv.
  etrans; [by eapply Hm|by eapply Hk].
Qed.

Lemma keeps_after {A} (m : M A) (w : world) : keeps R m -> R w (after m w).
Proof.
  intros Hm. unfold after. destruct (m w) as [[a w']|] eqn:E; [by eapply Hm|done].
Qed.
End keeps.

Lemma keeps_weaken {A} (R R' : relation world) (m : M A) :
  (forall w w', R w w' -> R' w w') -> keeps R m -> keeps R' m.
Proof. intros HR Hm w a w' H. by eapply HR, Hm. Qed.

(** One step of a proof that a computation keeps an observation. *)
Ltac keeps_step :=
  lazymatch goal with
  | |- keeps _ (mret _) => apply keeps_ret; apply _
  | |- keeps _ (lift _) => apply keeps_lift; apply _
  | |- keeps _ get_world => apply keeps_get_world; apply _
  | |- keeps _ (modify _) => apply keeps_modify; intros ?; reflexivity
  | |- keeps _ (mbind _ _) => apply keeps_bind; [apply _| |intros ?]
  | |- keeps _ (match ?x with _ => _ end) => destruct x
  end.

Ltac keeps_go := unfold syscall; repeat keeps_step.

Lemma check_search_path_keeps (name : cstring) (buf : buffer) (fstat : option stat_t) :
  length buf = FS_MAX_PATH -> keeps same_state (_fs_check_search_path name buf fstat).
Proof.
  intros Hbuf w [[e buf'] fstat'] w' H. by apply check_search_path_inv in H as [? _].
Qed.

Lemma same_state_beside w w' :
  same_state w w' -> unchanged beside_streams_and_heap w w'.
Proof.
  unfold same_state, unchanged, beside_streams_and_heap.
  intros (-> & -> & -> & -> & _ & _ & _ & -> & ->). done.
Qed.

Lemma fs_exists_keeps (name : cstring) : keeps same_state (fs_exists name).
Proof.
  unfold fs_exists, _fs_get_type, the_stat. keeps_go.
  apply check_search_path_keeps, char_array_length.
Qed.

Lemma fs_get_info_keeps (name : cstring) (info : option fs_info) :
  keeps same_state (fs_get_info name info).
Proof.
  unfold fs_get_info, the_stat. keeps_go.
  apply check_search_path_keeps, char_array_length.
Qed.

Lemma fs_read_keeps (name : cstring) (size : option nat) :
  keeps (unchanged beside_streams_and_heap) (fs_read name size).
Proof.
  unfold fs_read, the_stat, fopen, open_stream, malloc, fread, fclose. keeps_go.
  eapply keeps_weaken; [apply same_state_beside|].
  apply check_search_path_keeps, char_array_length.
Qed.

(** X5.  The read-side calls are read-only.  [fs_exists] and
    [fs_get_info] leave everything but the record of system calls as it
    was, whatever they return; [fs_read] leaves the files, the two
    configured strings, the working directory and the disk as they
    were. *)
Theorem read_side_is_read_only (w : world) (name : cstring) (info : option fs_info)
    (size : option nat) :
  same_state w (after (fs_exists name) w) /\
  same_state w (after (fs_get_info name info) w) /\
  files (after (fs_read name size) w) = files w /\
  _fs_search_path (after (fs_read name size) w) = _fs_search_path w /\
  _fs_write_dir (after (fs_read name size) w) = _fs_write_dir w /\
  cwd (after (fs_read name size) w) = cwd w /\
  disk_free (after (fs_read name size) w) = disk_free w.
Proof.
  split; [apply keeps_after; [apply _|apply fs_exists_keeps]|].
  split; [apply keeps_after; [apply _|apply fs_get_info_keeps]|].
  pose proof (keeps_after _ _ w (fs_read_keeps name size)) as H.
  unfold unchanged, beside_streams_and_heap in H. by injection H as -> -> -> -> -> _.
Qed.

(** ** Configuration *)

(** X6.  The setters and the getters.  A string shorter than
    [FS_MAX_PATH] is stored and read back unchanged by the matching
    getter, the other configured string untouched, and the stored string
    stays shorter than [FS_MAX_PATH]; a string of [FS_MAX_PATH] characters
    or more is refused with TooLong and nothing changes.  Storing the
    empty string takes the configuration away again. *)
Theorem setters_and_getters (w : world) (path : cstring) :
  (strlen path < FS_MAX_PATH ->
   fs_set_search_path path w = Ret (FS_ESUCCESS, set_search_path path w) /\
   fs_set_write_dir path w = Ret (FS_ESUCCESS, set_write_dir path w) /\
   result (_ ← fs_set_search_path path; fs_get_search_path) w = Ret path /\
   result (_ ← fs_set_write_dir path; fs_get_write_dir) w = Ret path /\
   result (_ ← fs_set_search_path path; fs_get_write_dir) w = Ret (_fs_write_dir w) /\
   result (_ ← fs_set_write_dir path; fs_get_search_path) w = Ret (_fs_search_path w) /\
   strlen (_fs_search_path (after (fs_set_search_path path) w)) < FS_MAX_PATH /\
   strlen (_fs_write_dir (after (fs_set_write_dir path) w)) < FS_MAX_PATH) /\
  (FS_MAX_PATH <= strlen path ->
   fs_set_search_path path w = Ret (FS_ETOOLONG, w) /\
   fs_set_write_dir path w = Ret (FS_ETOOLONG, w)) /\
  (forall (name : cstring) (d : fs_write_desc),
   result (_ ← fs_set_search_path []; fs_exists name) w = Ret FS_ENOSEARCHPATH /\
   result (_ ← fs_set_write_dir []; fs_write name d) w = Ret FS_ENOWRITEDIR).
Proof.
  unfold fs_set_search_path, fs_set_write_dir, fs_get_search_path, fs_get_write_dir.
  split; [|split].
  - intros Hlen. unfold result, after. msimpl. rewrite !decide_False by lia. done.
  - intros Hlen. msimpl. rewrite !decide_True by lia. done.
  - intros name d. unfold result, fs_exists, fs_write. by msimpl.
Qed.

Lemma setters_and_getters_witness :
  (fs_set_search_path (cs "./?") boot = Ret (FS_ESUCCESS, set_search_path (cs "./?") boot) /\
   fs_set_write_dir (cs "./?") boot = Ret (FS_ESUCCESS, set_write_dir (cs "./?") boot) /\
   result (_ ← fs_set_search_path (cs "./?"); fs_get_search_path) boot = Ret (cs "./?") /\
   result (_ ← fs_set_write_dir (cs "./?"); fs_get_write_dir) boot = Ret (cs "./?") /\
   result (_ ← fs_set_search_path (cs "./?"); fs_get_write_dir) boot
     = Ret (_fs_write_dir boot) /\
   result (_ ← fs_set_write_dir (cs "./?"); fs_get_search_path) boot
     = Ret (_fs_search_path boot) /\
   strlen (_fs_search_path (after (fs_set_search_path (cs "./?")) boot)) < FS_MAX_PATH /\
   strlen (_fs_write_dir (after (fs_set_write_dir (cs "./?")) boot)) < FS_MAX_PATH) /\
  (fs_set_search_path long_name configured = Ret (FS_ETOOLONG, configured) /\
   fs_set_write_dir long_name configured = Ret (FS_ETOOLONG, configured)).
Proof.
  split.
  - apply (proj1 (setters_and_getters boot (cs "./?"))). vm_compute. lia.
  - apply (proj1 (proj2 (setters_and_getters configured long_name))). vm_compute. lia.
Defined.

(** ** Writing, forwards *)

Lemma wsize_roundtrip (k : nat) :
  (Z.of_nat k <= INT_MAX)%Z -> size_t_of_int (int_of_size_t k) = Z.of_nat k.
Proof.
  unfold INT_MAX, size_t_of_int, int_of_size_t. intros Hk.
  rewrite (Z.mod_small (Z.of_nat k) (2 ^ 32)) by lia.
  destruct (Z.ltb_spec (Z.of_nat k) (2 ^ 31)); [|lia].
  apply Z.mod_small. lia.
Qed.

Lemma fopen_update_run (p : cstring) (mode : fmode) (w : world) l prior :
  mode <> _FS_MREAD ->
  writable (files w) (cwd w) p mode l prior ->
  exists w1 t,
    fopen p mode w = Ret (Some (next_fp w), w1) /\
    files w1 !! l = Some (File t prior) /\
    (forall x, <[l := x]> (files w1) = <[l := x]> (files w)) /\
    streams w1 = <[next_fp w := {| s_loc := l; s_mode := mode; s_pos := 0 |}]> (streams w) /\
    next_fp w1 = S (next_fp w) /\
    cwd w1 = cwd w /\ _fs_search_path w1 = _fs_search_path w /\
    _fs_write_dir w1 = _fs_write_dir w /\ heap_free w1 = heap_free w /\
    now w1 = now w /\ disk_free w1 = disk_free w.
Proof.
  intros Hmode Hw. unfold fopen, open_stream. msimpl.
  destruct Hw as [[-> ->]|(t0 & c0 & Hres & ->)].
  - destruct mode; [done|..]; msimpl; eexists _, (now w);
      (split; [done|]); cbn; rewrite lookup_insert_eq;
      split_and!; try done; intros x; apply insert_insert_eq.
  - rewrite Hres. apply resolve_Found in Hres as (_ & _ & _ & Hl).
    destruct mode; [done|..]; msimpl.
    + eexists _, (now w). split; [done|]. cbn. rewrite lookup_insert_eq.
      split_and!; try done. intros x. apply insert_insert_eq.
    + eexists _, t0. split; [done|]. cbn. by split_and!.
Qed.

(** [_fs_write_to_file_ext] on a path that can be opened: it writes as
    much of the payload as the disk takes and succeeds exactly when that
    is all of it. *)
Lemma write_to_file_ext_run (p : cstring) (mode : fmode) (d : fs_write_desc)
    (w : world) l prior :
  mode <> _FS_MREAD ->
  strstr p (cs "..") = None ->
  writable (files w) (cwd w) p mode l prior ->
  desc_size d <= length (desc_data d) ->
  exists w',
    _fs_write_to_file_ext p mode d w
      = Ret (write_code (desc_size d `min` disk_free w) (desc_size d), w') /\
    files w' = <[l := File (now w)
                          (prior ++ take (desc_size d `min` disk_free w) (desc_data d))]>
                 (files w) /\
    cwd w' = cwd w /\ _fs_search_path w' = _fs_search_path w /\
    _fs_write_dir w' = _fs_write_dir w /\ heap_free w' = heap_free w /\ now w' = now w.
Proof.
  intros Hmode Hdots Hw Hle. unfold _fs_write_to_file_ext. rewrite Hdots, bind_run.
  destruct (fopen_update_run p mode w l prior Hmode Hw)
    as (w1 & t & -> & Hl & Hins & Hst & Hfp & Hcwd & Hsp & Hwd & Hheap & Hnow & Hdisk).
  assert (Hprior : mode = _FS_MWRITE -> prior = []).
  { intros ->. by destruct Hw as [[_ ->]|(? & ? & _ & ->)]. }
  assert (Hst' : streams w1 !! next_fp w = Some {| s_loc := l; s_mode := mode; s_pos := 0 |})
    by (by rewrite Hst, lookup_insert_eq).
  rewrite bind_run.
  destruct (fwrite_update (desc_data d) (desc_size d) (next_fp w) w1 l mode t prior
              Hst' Hmode Hl Hprior)
    as [[? _]|(_ & w' & -> & Hf & Hcwd' & Hsp' & Hwd' & Hheap' & Hnow')]; [lia|].
  unfold fclose. msimpl. rewrite Hdisk.
  eexists. split; [done|].
  cbn. rewrite Hf, Hnow, Hins, Hdisk. split_and!; congruence.
Qed.

(** Up to [INT_MAX] bytes the code tells whether every byte was
    written. *)
Lemma write_code_small (size disk : nat) :
  (Z.of_nat size <= INT_MAX)%Z ->
  write_code (size `min` disk) size
    = if decide (size <= disk) then FS_ESUCCESS else FS_EWRITEFAIL.
Proof.
  intros Hsize. unfold write_code. rewrite wsize_roundtrip by lia.
  destruct (decide (size <= disk)).
  - by rewrite decide_True by lia.
  - by rewrite decide_False by lia.
Qed.

(** [_FS_CREATE_DIR_TREE] when the directory of the path is there
    already: every [mkdir] fails and the files are as they were. *)
Lemma create_dir_tree_existing (buf : buffer) (p : cstring) (w : world) (dir : loc) :
  c_str buf = Ret p ->
  path_dir (files w) (cwd w) p = Some dir ->
  exists w', _FS_CREATE_DIR_TREE buf w = Ret (tt, w') /\ grows w w' /\ files w' = files w.
Proof.
  intros Hcs Hdir. unfold _FS_CREATE_DIR_TREE. rewrite bind_run, Hcs. cbn [lift].
  destruct (strrchr p "/") as [i|] eqn:Ei; [|exists w; split; [done|]; split; [apply grows_refl|done]].
  rewrite bind_run. unfold _fs_make_dirs.
  destruct (make_dirs_existing (strlen (take i p)) (take i p) w) as (w' & -> & Hf & Hg & _);
    [done| |by exists w'].
  destruct (decide (take i p = [])) as [|Hne]; [by left|right].
  destruct (resolve_parent _ _ _ _ _ Hdir Ei Hne) as [t Ht]. eauto.
Qed.

Lemma writable_path_dir (fs : gmap loc node) cwd (p : cstring) mode l prior :
  writable fs cwd p mode l prior -> exists dir, path_dir fs cwd p = Some dir.
Proof.
  intros [[H _]|(t0 & c0 & H & _)].
  - apply resolve_Creatable in H as (dir & ? & _). eauto.
  - apply resolve_Found in H as (dir & ? & _). eauto.
Qed.

(** [fs_write] and [fs_append] on a name whose path can be opened. *)
Lemma write_pipeline_run (mode : fmode) (name : cstring) (d : fs_write_desc)
    (w : world) l prior :
  mode <> _FS_MREAD ->
  _fs_write_dir w <> [] ->
  length (expand (_fs_write_dir w) name) < FS_MAX_PATH ->
  strstr (expand (_fs_write_dir w) name) (cs "..") = None ->
  writable (files w) (cwd w) (expand (_fs_write_dir w) name) mode l prior ->
  desc_size d <= length (desc_data d) ->
  exists w',
    write_pipeline mode name d w
      = Ret (write_code (desc_size d `min` disk_free w) (desc_size d), w') /\
    files w' = <[l := File (now w)
                          (prior ++ take (desc_size d `min` disk_free w) (desc_data d))]>
                 (files w) /\
    cwd w' = cwd w /\ _fs_search_path w' = _fs_search_path w /\
    _fs_write_dir w' = _fs_write_dir w /\ heap_free w' = heap_free w /\ now w' = now w.
Proof.
  intros Hmode Hwd Hfit Hdots Hw Hle. unfold write_pipeline.
  rewrite bind_run. cbn [get_world]. rewrite decide_False by done. rewrite bind_run.
  pose proof (concat_path_spec (char_array FS_MAX_PATH) (_fs_write_dir w) name
                (char_array_length _)) as Hc.
  destruct (_fs_concat_path _ _ _) as [[e buf]|f]; [|destruct Hc; lia].
  destruct Hc as [_ [(-> & _ & Hcs)|(_ & ?)]]; [|lia]. cbn [lift].
  rewrite decide_False by (intros ?; done). rewrite bind_run.
  destruct (writable_path_dir _ _ _ _ _ _ Hw) as [dir Hdir].
  destruct (create_dir_tree_existing buf _ w dir Hcs Hdir) as (w1 & -> & Hg & Hf).
  rewrite bind_run, Hcs. cbn [lift].
  pose proof (grows_cwd _ _ Hg) as Hgc. pose proof (grows_now _ _ Hg) as Hgn.
  pose proof (grows_disk_free _ _ Hg) as Hgd. pose proof (grows_search_path _ _ Hg).
  pose proof (grows_write_dir _ _ Hg). pose proof (grows_heap_free _ _ Hg).
  destruct (write_to_file_ext_run (expand (_fs_write_dir w) name) mode d w1 l prior)
    as (w' & -> & Hf' & ? & ? & ? & ? & ?); try done.
  { by rewrite Hf, Hgc. }
  exists w'. rewrite Hgd. split; [done|].
  rewrite Hf', Hf, Hgn, Hgd. split_and!; congruence.
Qed.

(** X7.  Writing into an existing directory.  When the path the name
    expands to holds no [".."] and names a regular file or a free name in
    an existing directory, the payload lies within its buffer, is no
    larger than [INT_MAX] and fits the disk, then [fs_write] and
    [fs_append] succeed, and afterwards the file system differs from the
    one before in that one file: it holds the payload, after the old
    contents when appending and instead of them when writing. *)
Theorem write_stores_payload (w : world) (name : cstring) (d : fs_write_desc)
    (l : loc) (prior : list byte) :
  _fs_write_dir w <> [] ->
  length (expand (_fs_write_dir w) name) < FS_MAX_PATH ->
  strstr (expand (_fs_write_dir w) name) (cs "..") = None ->
  desc_size d <= length (desc_data d) ->
  (Z.of_nat (desc_size d) <= INT_MAX)%Z ->
  desc_size d <= disk_free w ->
  (writable (files w) (cwd w) (expand (_fs_write_dir w) name) _FS_MWRITE l prior ->
   result (fs_write name d) w = Ret FS_ESUCCESS /\
   files (after (fs_write name d) w)
     = <[l := File (now w) (take (desc_size d) (desc_data d))]> (files w)) /\
  (writable (files w) (cwd w) (expand (_fs_write_dir w) name) _FS_MAPPEND l prior ->
   result (fs_append name d) w = Ret FS_ESUCCESS /\
   files (after (fs_append name d) w)
     = <[l := File (now w) (prior ++ take (desc_size d) (desc_data d))]> (files w)).
Proof.
  intros Hwd Hfit Hdots Hle Hsize Hdisk.
  split; intros Hw.
  - destruct (write_pipeline_run _FS_MWRITE name d w l prior) as (w' & Hrun & Hf & _);
      try done.
    assert (prior = []) as -> by (by destruct Hw as [[_ ->]|(? & ? & _ & ->)]).
    rewrite fs_write_pipeline. unfold result, after. rewrite Hrun, Hf.
    rewrite write_code_small, decide_True by done. by rewrite Nat.min_l.
  - destruct (write_pipeline_run _FS_MAPPEND name d w l prior) as (w' & Hrun & Hf & _);
      try done.
    rewrite fs_append_pipeline. unfold result, after. rewrite Hrun, Hf.
    rewrite write_code_small, decide_True by done. by rewrite Nat.min_l.
Qed.

Lemma write_stores_payload_witness :
  (result (fs_write (cs "example.txt") (payload "quick brown fox")) configured
     = Ret FS_ESUCCESS /\
   files (after (fs_write (cs "example.txt") (payload "quick brown fox")) configured)
     = <[ [cs "example.txt"; cs "sandbox"] := File 1 (bytes "quick brown fox") ]>
         (files configured)) /\
  (result (fs_append (cs "example.txt") (payload " jumps")) with_example = Ret FS_ESUCCESS /\
   files (after (fs_append (cs "example.txt") (payload " jumps")) with_example)
     = <[ [cs "example.txt"; cs "sandbox"] := File 1 (bytes "quick brown fox jumps") ]>
         (files with_example)).
Proof.
  assert (H1 : _fs_write_dir configured <> []) by (vm_compute; discriminate).
  assert (H2 : length (expand (_fs_write_dir configured) (cs "example.txt")) < FS_MAX_PATH)
    by (vm_compute; lia).
  assert (H3 : strstr (expand (_fs_write_dir configured) (cs "example.txt")) (cs "..") = None)
    by (vm_compute; reflexivity).
  split.
  - destruct (write_stores_payload configured (cs "example.txt") (payload "quick brown fox")
                [cs "example.txt"; cs "sandbox"] [] H1 H2 H3) as [Hw _];
      [vm_compute; lia|vm_compute; discriminate|vm_compute; lia|].
    apply Hw. left. split; [vm_compute; reflexivity|reflexivity].
  - destruct (write_stores_payload with_example (cs "example.txt") (payload " jumps")
                [cs "example.txt"; cs "sandbox"] (bytes "quick brown fox") H1 H2 H3)
      as [_ Ha]; [vm_compute; lia|vm_compute; discriminate|vm_compute; lia|].
    apply Ha. right. exists 1%Z, (bytes "quick brown fox").
    split; [vm_compute; reflexivity|reflexivity].
Defined.



(** ** Streams *)

Lemma write_pipeline_closes (mode : fmode) (name : cstring) (d : fs_write_desc)
    (w w' : world) (r : Z) :
  streams w !! next_fp w = None ->
  write_pipeline mode name d w = Ret (r, w') -> streams w' = streams w.
Proof.
  intros Hfresh H. unfold write_pipeline in H.
  apply (write_side_head name _ id) in H
    as [(_ & -> & _)|[(_ & -> & _)|(buf & H & _ & Hcs & _)]]; [done..|].
  apply bind_Ret_inv in H as ([] & w1 & Ht & H).
  destruct (create_dir_tree_grows buf _ w Hcs) as (w1' & Ht' & Hg).
  rewrite Ht in Ht'. injection Ht' as <-.
  rewrite bind_run, Hcs in H. cbn [lift] in H.
  apply write_to_file_ext_closes in H.
  - rewrite H. apply (grows_streams _ _ Hg).
  - by rewrite (grows_streams _ _ Hg), (grows_next_fp _ _ Hg).
Qed.

Lemma fs_mkdir_grows (path : cstring) (w w' : world) (r : Z) :
  fs_mkdir path w = Ret (r, w') -> grows w w'.
Proof.
  intros H. unfold fs_mkdir in H.
  apply (write_side_head path _ id) in H
    as [(_ & -> & _)|[(_ & -> & _)|(buf & H & _ & Hcs & _)]]; [apply grows_refl..|].
  rewrite bind_run, Hcs in H. cbn [lift] in H. unfold _fs_make_dirs in H.
  destruct (make_dirs_rec_grows (strlen (expand (_fs_write_dir w) path))
              (expand (_fs_write_dir w) path) w) as (r' & w'' & H' & Hg); [done|].
  rewrite H in H'. by injection H' as <- <-.
Qed.

Lemma fs_delete_keeps_streams (name : cstring) :
  keeps (unchanged (fun w => (streams w, next_fp w))) (fs_delete name).
Proof. unfold fs_delete, remove. keeps_go. Qed.

(** A [fs_read] that returns a block has closed its stream; the block has
    the size reported and came out of the heap. *)
Lemma fs_read_closes (name : cstring) (size0 : option nat) (w w' : world)
    (b : block) (size : option nat) :
  streams w !! next_fp w = None ->
  fs_read name size0 w = Ret ((Some b, size), w') ->
  streams w' = streams w /\ size = Some (length b) /\
  heap_free w' + length b = heap_free w.
Proof.
  intros Hfresh H. unfold fs_read in H.
  apply bind_Ret_inv in H as ([[e path] fstat] & w1 & Hc & H).
  apply check_search_path_inv in Hc as [Hs _]; [|apply char_array_length].
  destruct Hs as (_ & _ & Hf & Hcwd & Hst & Hfp & Hheap & _).
  destruct (decide (e <> FS_ESUCCESS)); [by injection H|].
  apply bind_Ret_inv in H as (p & w2 & [_ ->]%lift_Ret_inv & H).
  rewrite <- Hst, <- Hfp in Hfresh. rewrite <- Hst, <- Hheap. clear Hst Hfp Hheap Hf Hcwd.
  revert H. unfold fopen, open_stream, the_stat, malloc, fread, fclose. msimpl.
  assert (Hclose : forall (s : stream) (x : option stream),
            delete (next_fp w1)
              (match x with
               | Some s' => <[next_fp w1 := s']> (<[next_fp w1 := s]> (streams w1))
               | None => <[next_fp w1 := s]> (streams w1)
               end) = streams w1).
  { intros s [s'|]; rewrite ?insert_insert_eq; by apply delete_insert_id. }
  destruct (resolve (files w1) (cwd w1) p) as [l [t0 c0|t0]|l|]; msimpl; try done;
    (destruct fstat as [st|]; [|done]); msimpl;
    (destruct (decide (st_size st <= heap_free w1)); msimpl; [|done]);
    rewrite length_replicate; rewrite decide_False by lia;
    rewrite lookup_insert_eq; cbn [s_loc s_mode s_pos];
    (destruct (files w1 !! l) as [[t c|t]|]); msimpl; intros [= <- <- <-];
    cbn [streams heap_free set_streams set_heap_free log_call];
    rewrite ?length_app, ?length_fmap, ?length_drop, ?length_take, ?length_replicate;
    (split; [first [apply (Hclose _ (Some _))|apply (Hclose _ None)]|]);
    (split; [f_equal; lia|lia]).
Qed.

(** X9.  No call that returns leaves a stream open, with one exception.
    [fs_write], [fs_append], [fs_mkdir] and [fs_delete] leave the open
    streams as they found them whatever they return, and so does a
    [fs_read] that returns a block; the block then has the size reported,
    taken from the heap.  (The exception is the [fs_read] that returns
    NULL for want of memory.) *)
Theorem calls_close_their_streams (w : world) (name : cstring) (d : fs_write_desc)
    (size0 : option nat) :
  streams w !! next_fp w = None ->
  streams (after (fs_write name d) w) = streams w /\
  streams (after (fs_append name d) w) = streams w /\
  streams (after (fs_mkdir name) w) = streams w /\
  streams (after (fs_delete name) w) = streams w /\
  (forall b size, result (fs_read name size0) w = Ret (Some b, size) ->
     streams (after (fs_read name size0) w) = streams w /\
     size = Some (length b) /\
     heap_free (after (fs_read name size0) w) + length b = heap_free w).
Proof.
  intros Hfresh. split_and!.
  - unfold after. destruct (fs_write name d w) as [[r w']|] eqn:E; [|done].
    by eapply (write_pipeline_closes _FS_MWRITE).
  - unfold after. destruct (fs_append name d w) as [[r w']|] eqn:E; [|done].
    by eapply (write_pipeline_closes _FS_MAPPEND).
  - unfold after. destruct (fs_mkdir name w) as [[r w']|] eqn:E; [|done].
    by apply fs_mkdir_grows, grows_streams in E.
  - pose proof (keeps_after _ _ w (fs_delete_keeps_streams name)) as H.
    unfold unchanged in H. by injection H.
  - intros b size (w' & H)%result_Ret_inv. unfold after. rewrite H.
    by eapply fs_read_closes.
Qed.

Lemma calls_close_their_streams_witness :
  streams (after (fs_write (cs "example.txt") (payload "all new data")) with_example)
    = streams with_example /\
  streams (after (fs_append (cs "example.txt") (payload "all new data")) with_example)
    = streams with_example /\
  streams (after (fs_mkdir (cs "example.txt")) with_example) = streams with_example /\
  streams (after (fs_delete (cs "example.txt")) with_example) = streams with_example /\
  (streams (after (fs_read (cs "example.txt") None) with_example) = streams with_example /\
   Some 15 = Some (length (Some <$> bytes "quick brown fox")) /\
   heap_free (after (fs_read (cs "example.txt") None) with_example)
     + length (Some <$> bytes "quick brown fox") = heap_free with_example).
Proof.
  assert (Hfresh : streams with_example !! next_fp with_example = None)
    by (vm_compute; reflexivity).
  destruct (calls_close_their_streams with_example (cs "example.txt")
              (payload "all new data") None Hfresh) as (Hw & Ha & Hm & Hd & Hr).
  split; [exact Hw|]. split; [exact Ha|]. split; [exact Hm|]. split; [exact Hd|].
  apply Hr. vm_compute. reflexivity.
Defined.

(** ** A search path of one template *)

Lemma candidates_single (sp name : cstring) :
  sp <> [] -> strchr sp ";" = None -> candidates sp name = [expand sp name].
Proof. intros Hne Hsep. unfold candidates. by rewrite templates_single. Qed.

(** [fs_get_info] and [fs_exists] through a search path of one template,
    on a name whose path exists. *)
Lemma get_info_single (w : world) (name : cstring) (info : option fs_info)
    (l : loc) (n : node) :
  _fs_search_path w <> [] ->
  strchr (_fs_search_path w) ";" = None ->
  strlen (_fs_search_path w) < FS_MAX_PATH ->
  length (expand (_fs_search_path w) name) < FS_MAX_PATH ->
  resolve (files w) (cwd w) (expand (_fs_search_path w) name) = Found l n ->
  result (fs_get_info name info) w
    = Ret (FS_ESUCCESS,
           Some {| info_type := if n is File _ _ then FS_FILETYPE_REG else FS_FILETYPE_DIR;
                   info_size := st_size (stat_of n); info_modtime := st_mtime (stat_of n) |}) /\
  result (fs_exists name) w = Ret FS_ESUCCESS.
Proof.
  intros Hne Hsep Hlen Hfit Hres.
  assert (Hc := candidates_single _ name Hne Hsep).
  assert (Htried : forall p, p ∈ tried (files w) (cwd w) (candidates (_fs_search_path w) name) ->
                             length p < FS_MAX_PATH).
  { rewrite Hc. intros q Hq%tried_subseteq. by apply list_elem_of_singleton in Hq as ->. }
  rewrite fs_get_info_first_match, fs_exists_first_match by done.
  rewrite Hc. cbn [first_existing]. unfold probe. rewrite Hres.
  by destruct n.
Qed.

(** The same, on a name whose path does not exist. *)
Lemma get_info_single_missing (w : world) (name : cstring) (info : option fs_info) :
  _fs_search_path w <> [] ->
  strchr (_fs_search_path w) ";" = None ->
  strlen (_fs_search_path w) < FS_MAX_PATH ->
  length (expand (_fs_search_path w) name) < FS_MAX_PATH ->
  probe (files w) (cwd w) (expand (_fs_search_path w) name) = None ->
  result (fs_get_info name info) w = Ret (FS_EFAILURE, info) /\
  result (fs_exists name) w = Ret FS_EFAILURE.
Proof.
  intros Hne Hsep Hlen Hfit Hres.
  assert (Hc := candidates_single _ name Hne Hsep).
  assert (Htried : forall p, p ∈ tried (files w) (cwd w) (candidates (_fs_search_path w) name) ->
                             length p < FS_MAX_PATH).
  { rewrite Hc. intros q Hq%tried_subseteq. by apply list_elem_of_singleton in Hq as ->. }
  rewrite fs_get_info_first_match, fs_exists_first_match by done.
  rewrite Hc. cbn [first_existing]. by rewrite Hres.
Qed.

(** ** What the read side sees after a write-side call *)



(** What a successful [_fs_make_dirs] has done last: created its path as
    a directory, at the time of the call. *)
Lemma make_dirs_rec_created fuel (p : cstring) (w w' : world) :
  length p <= fuel ->
  _fs_make_dirs_rec fuel p w = Ret (FS_ESUCCESS, w') ->
  exists w1 l,
    grows w w1 /\ grows w w' /\
    resolve (files w1) (cwd w) p = Creatable l /\
    files w' = <[l := Dir (now w)]> (files w1) /\
    resolve (files w') (cwd w') p = Found l (Dir (now w)).
Proof.
  intros Hlen Hrun. destruct (make_dirs_rec_success _ _ _ _ Hlen Hrun) as [Hg _].
  revert Hrun. rewrite (make_dirs_rec_unfold _ _ Hlen), bind_run.
  assert (exists r1 w1, match strrchr p "/" with
                        | Some i => _fs_make_dirs_rec (pred fuel) (take i p)
                        | None => mret 0%Z
                        end w = Ret (r1, w1) /\ grows w w1) as (r1 & w1 & -> & Hg1).
  { destruct (strrchr p "/") as [i|] eqn:Ei.
    - apply make_dirs_rec_grows. apply strrchr_Some in Ei as (Hi & _). rewrite length_take. lia.
    - eexists _, _. split; [done|apply grows_refl]. }
  rewrite bind_run, mkdir_run.
  destruct (resolve (files w1) (cwd w1) p) as [| l |] eqn:Hres; [done| |done].
  cbn. intros [= <-]. exists w1, l. cbn.
  rewrite <- (grows_cwd _ _ Hg1), <- (grows_now _ _ Hg1).
  split_and!; try done. by apply resolve_insert_dir.
Qed.

(** X11.  After a successful [fs_mkdir], through a search path that is
    the same single template as the write directory, [fs_get_info]
    reports a directory created at the time of the call, and [fs_exists]
    succeeds. *)
Theorem mkdir_then_get_info (w : world) (name : cstring) (info : option fs_info) :
  same_location w ->
  result (fs_mkdir name) w = Ret FS_ESUCCESS ->
  result (_ ← fs_mkdir name; fs_get_info name info) w
    = Ret (FS_ESUCCESS,
           Some {| info_type := FS_FILETYPE_DIR; info_size := dir_size;
                   info_modtime := now w |}) /\
  result (_ ← fs_mkdir name; fs_exists name) w = Ret FS_ESUCCESS.
Proof.
  intros (Hsame & Hsep & Hlen) [w2 Hrun]%result_Ret_inv.
  rewrite !(result_bind _ _ _ _ _ Hrun).
  apply fs_mkdir_success in Hrun as (Hwd & Hfit & Hrun).
  apply make_dirs_rec_created in Hrun as (w1 & l & _ & Hg & _ & _ & Hres); [|done].
  pose proof (grows_search_path _ _ Hg) as Hsp.
  destruct (get_info_single w2 name info l (Dir (now w))) as [Hi He];
    rewrite ?Hsp, ?Hsame; try done.
Qed.

Lemma mkdir_then_get_info_witness :
  result (_ ← fs_mkdir (cs "foo"); fs_get_info (cs "foo") None) configured
    = Ret (FS_ESUCCESS,
           Some {| info_type := FS_FILETYPE_DIR; info_size := dir_size;
                   info_modtime := now configured |}) /\
  result (_ ← fs_mkdir (cs "foo"); fs_exists (cs "foo")) configured = Ret FS_ESUCCESS.
Proof.
  apply (mkdir_then_get_info configured (cs "foo") None).
  - split; [reflexivity|]. split; [reflexivity|]. vm_compute. lia.
  - vm_compute. reflexivity.
Defined.

(** ** Deleting *)

Lemma has_children_false (fs : gmap loc node) (l : loc) :
  (forall c, fs !! (c :: l) = None) -> has_children fs l = false.
Proof.
  intros Hnone. apply bool_decide_eq_false. intros Hex.
  apply List.Exists_exists in Hex as (k & Hin & Hne & Htail).
  apply in_map_iff in Hin as ([k' n] & <- & Hin).
  apply list_elem_of_In, elem_of_map_to_list in Hin. cbn in *.
  destruct k' as [|c k']; [done|]. cbn in Htail. subst k'.
  by rewrite Hnone in Hin.
Qed.

Lemma has_children_true (fs : gmap loc node) (l : loc) (c : cstring) (n : node) :
  fs !! (c :: l) = Some n -> has_children fs l = true.
Proof.
  intros Hc. apply bool_decide_eq_true. apply List.Exists_exists. exists (c :: l).
  split; [|done]. apply in_map_iff. exists (c :: l, n).
  split; [done|]. by apply list_elem_of_In, elem_of_map_to_list.
Qed.

Lemma remove_run (p : cstring) (w : world) :
  remove p w =
  match resolve (files w) (cwd w) p with
  | Found l (File _ _) =>
      Ret (0%Z, set_files (delete l (files w)) (log_call (sys_remove p) w))
  | Found l (Dir _) =>
      if dotlike (path_leaf p) || has_children (files w) l || bool_decide (l = [])
      then Ret ((-1)%Z, log_call (sys_remove p) w)
      else Ret (0%Z, set_files (delete l (files w)) (log_call (sys_remove p) w))
  | _ => Ret ((-1)%Z, log_call (sys_remove p) w)
  end.
Proof.
  unfold remove. msimpl. destruct (resolve _ _ _) as [l [t c|t]|l|]; try done.
  by destruct (_ || _ || _).
Qed.

Lemma fs_delete_run (name : cstring) (w : world) :
  _fs_write_dir w <> [] ->
  length (expand (_fs_write_dir w) name) < FS_MAX_PATH ->
  fs_delete name w =
  (r ← remove (expand (_fs_write_dir w) name);
   mret (if decide (r <> 0%Z) then FS_EREMOVE else FS_ESUCCESS)) w.
Proof.
  intros Hwd Hfit. unfold fs_delete. rewrite bind_run. cbn [get_world].
  rewrite decide_False by done. rewrite bind_run.
  pose proof (concat_path_spec (char_array FS_MAX_PATH) (_fs_write_dir w) name
                (char_array_length _)) as Hc.
  destruct (_fs_concat_path _ _ _) as [[e buf]|f]; [|destruct Hc; lia].
  destruct Hc as [_ [(-> & _ & Hcs)|(_ & ?)]]; [|lia].
  cbn [lift]. rewrite decide_False by (intros ?; done). by rewrite bind_run, Hcs.
Qed.

(** Once the entry a path names is gone, the path names nothing. *)
Lemma probe_delete (fs : gmap loc node) cwd (p : cstring) l n :
  resolve fs cwd p = Found l n -> probe (delete l fs) cwd p = None.
Proof.
  intros (d & Hd & -> & Hl)%resolve_Found. unfold probe, resolve.
  destruct (path_dir (delete (step d (path_leaf p)) fs) cwd p) as [d'|] eqn:Hd'; [|done].
  apply (path_dir_ext _ fs) in Hd'.
  - rewrite Hd in Hd'. injection Hd' as <-. rewrite lookup_delete_eq.
    by destruct (dotlike _).
  - intros x. apply is_dir_weaken, delete_subseteq.
Qed.

Lemma remove_removable (p : cstring) (w : world) l n :
  resolve (files w) (cwd w) p = Found l n ->
  removable (files w) p l n ->
  remove p w = Ret (0%Z, set_files (delete l (files w)) (log_call (sys_remove p) w)).
Proof.
  intros Hres Hrm. rewrite remove_run, Hres. destruct n as [t c|t]; [done|].
  destruct Hrm as (Hnone & Hroot & ->). rewrite has_children_false by done.
  by rewrite bool_decide_eq_false_2.
Qed.

Lemma fs_delete_removable (name : cstring) (w : world) l n :
  _fs_write_dir w <> [] ->
  length (expand (_fs_write_dir w) name) < FS_MAX_PATH ->
  resolve (files w) (cwd w) (expand (_fs_write_dir w) name) = Found l n ->
  removable (files w) (expand (_fs_write_dir w) name) l n ->
  fs_delete name w
    = Ret (FS_ESUCCESS,
           set_files (delete l (files w))
             (log_call (sys_remove (expand (_fs_write_dir w) name)) w)).
Proof.
  intros Hwd Hfit Hres Hrm. rewrite fs_delete_run by done.
  rewrite bind_run, (remove_removable _ _ _ _ Hres Hrm).
  by rewrite decide_False by (intros ?; done).
Qed.

(** X12.  [fs_delete] of a name whose path is a regular file or an empty
    directory succeeds and takes away exactly that entry; a second
    [fs_delete] of the same name then fails with Remove, and through a
    search path that is the same single template as the write directory
    [fs_exists] no longer finds the name. *)
Theorem delete_removes_entry (w : world) (name : cstring) (l : loc) (n : node) :
  _fs_write_dir w <> [] ->
  length (expand (_fs_write_dir w) name) < FS_MAX_PATH ->
  resolve (files w) (cwd w) (expand (_fs_write_dir w) name) = Found l n ->
  removable (files w) (expand (_fs_write_dir w) name) l n ->
  result (fs_delete name) w = Ret FS_ESUCCESS /\
  files (after (fs_delete name) w) = delete l (files w) /\
  result (_ ← fs_delete name; fs_delete name) w = Ret FS_EREMOVE /\
  (same_location w ->
   result (_ ← fs_delete name; fs_exists name) w = Ret FS_EFAILURE).
Proof.
  intros Hwd Hfit Hres Hrm.
  pose proof (fs_delete_removable name w l n Hwd Hfit Hres Hrm) as Hrun.
  set (w' := set_files _ _) in Hrun.
  assert (Hwd' : _fs_write_dir w' = _fs_write_dir w) by done.
  split; [unfold result; by rewrite Hrun|].
  split; [unfold after; by rewrite Hrun|].
  pose proof (probe_delete _ _ _ _ _ Hres) as Hgone.
  split.
  - rewrite (result_bind _ _ _ _ _ Hrun). unfold result.
    rewrite fs_delete_run by (rewrite Hwd'; done).
    rewrite bind_run, remove_run, Hwd'. unfold w' at 1 2. cbn [files cwd set_files log_call].
    unfold probe in Hgone.
    destruct (resolve (delete l (files w)) _ _); [done|..];
      by rewrite decide_True by done.
  - intros (Hsame & Hsep & Hlen). rewrite (result_bind _ _ _ _ _ Hrun).
    apply (get_info_single_missing w' name None); cbn [_fs_search_path w' set_files log_call];
      rewrite ?Hsame; done.
Qed.

Lemma no_children_by_evaluation (fs : gmap loc node) (l : loc) :
  has_children fs l = false -> forall c, fs !! (c :: l) = None.
Proof.
  intros Hno c. destruct (fs !! (c :: l)) as [n|] eqn:E; [|done].
  apply has_children_true in E. congruence.
Qed.

Lemma delete_removes_entry_witness :
  (result (fs_delete (cs "example.txt")) with_example = Ret FS_ESUCCESS /\
   files (after (fs_delete (cs "example.txt")) with_example)
     = delete [cs "example.txt"; cs "sandbox"] (files with_example) /\
   result (_ ← fs_delete (cs "example.txt"); fs_delete (cs "example.txt")) with_example
     = Ret FS_EREMOVE /\
   (same_location with_example ->
    result (_ ← fs_delete (cs "example.txt"); fs_exists (cs "example.txt")) with_example
      = Ret FS_EFAILURE)) /\
  (result (fs_delete (cs "foo")) with_foo = Ret FS_ESUCCESS /\
   files (after (fs_delete (cs "foo")) with_foo)
     = delete [cs "foo"; cs "sandbox"] (files with_foo)).
Proof.
  split.
  - apply (delete_removes_entry with_example (cs "example.txt")
             [cs "example.txt"; cs "sandbox"] (File 1 (bytes "quick brown fox"))).
    + vm_compute. discriminate.
    + vm_compute. lia.
    + vm_compute. reflexivity.
    + exact I.
  - destruct (delete_removes_entry with_foo (cs "foo") [cs "foo"; cs "sandbox"] (Dir 1))
      as (H1 & H2 & _).
    + vm_compute. discriminate.
    + vm_compute. lia.
    + vm_compute. reflexivity.
    + split; [|split; [discriminate|vm_compute; reflexivity]].
      apply no_children_by_evaluation. vm_compute. reflexivity.
    + split; [exact H1|exact H2].
Defined.

(** X13.  What [fs_delete] refuses.  A name whose path does not exist, and
    a name whose path is a directory with an entry in it, both give
    Remove, and the files are as they were. *)
Theorem delete_refuses (w : world) (name : cstring) :
  _fs_write_dir w <> [] ->
  length (expand (_fs_write_dir w) name) < FS_MAX_PATH ->
  (probe (files w) (cwd w) (expand (_fs_write_dir w) name) = None ->
   result (fs_delete name) w = Ret FS_EREMOVE /\
   files (after (fs_delete name) w) = files w) /\
  (forall (l : loc) (t : Z) (c : cstring) (n : node),
   resolve (files w) (cwd w) (expand (_fs_write_dir w) name) = Found l (Dir t) ->
   files w !! (c :: l) = Some n ->
   result (fs_delete name) w = Ret FS_EREMOVE /\
   files (after (fs_delete name) w) = files w).
Proof.
  intros Hwd Hfit. unfold result, after. rewrite fs_delete_run by done.
  rewrite bind_run, remove_run. split.
  - unfold probe. destruct (resolve _ _ _); [done|..]; by rewrite decide_True by done.
  - intros l t c n -> Hc. rewrite (has_children_true _ _ _ _ Hc), orb_true_r. cbn [orb].
    by rewrite decide_True by done.
Qed.

Lemma delete_refuses_witness :
  (result (fs_delete (cs "not_a_file.txt")) configured = Ret FS_EREMOVE /\
   files (after (fs_delete (cs "not_a_file.txt")) configured) = files configured) /\
  (result (fs_delete (cs "foo")) with_foo_bar = Ret FS_EREMOVE /\
   files (after (fs_delete (cs "foo")) with_foo_bar) = files with_foo_bar).
Proof.
  split.
  - apply (proj1 (delete_refuses configured (cs "not_a_file.txt")
                    ltac:(vm_compute; discriminate) ltac:(vm_compute; lia))).
    vm_compute. reflexivity.
  - apply (proj2 (delete_refuses with_foo_bar (cs "foo")
                    ltac:(vm_compute; discriminate) ltac:(vm_compute; lia))
             [cs "foo"; cs "sandbox"] 1%Z (cs "bar") (Dir 1)).
    + vm_compute. reflexivity.
    + vm_compute. reflexivity.
Defined.

(** ** Creating a directory where its parent exists *)

Lemma creatable_leaf (fs : gmap loc node) cwd (p : cstring) (l : loc) :
  resolve fs cwd p = Creatable l ->
  exists dir, path_dir fs cwd p = Some dir /\ l = path_leaf p :: dir /\
              fs !! l = None /\ dotlike (path_leaf p) = false.
Proof.
  intros (dir & Hdir & -> & Hl & Hdot)%resolve_Creatable. exists dir.
  assert (step dir (path_leaf p) = path_leaf p :: dir) as Hstep.
  { unfold dotlike in Hdot. apply bool_decide_eq_false in Hdot. unfold step.
    rewrite decide_False by tauto. rewrite decide_False by tauto. done. }
  by rewrite Hstep in *.
Qed.

(** [_fs_make_dirs] on a free name in an existing directory: the
    attempts on the directories above it fail, the last [mkdir]
    succeeds. *)
Lemma make_dirs_in_existing (p : cstring) (w : world) (l : loc) :
  resolve (files w) (cwd w) p = Creatable l ->
  exists w', _fs_make_dirs p w = Ret (FS_ESUCCESS, w') /\ grows w w' /\
             files w' = <[l := Dir (now w)]> (files w).
Proof.
  intros Hres. unfold _fs_make_dirs. rewrite make_dirs_rec_unfold by done. rewrite bind_run.
  assert (exists r1 w1, match strrchr p "/" with
                        | Some i => _fs_make_dirs_rec (pred (strlen p)) (take i p)
                        | None => mret 0%Z
                        end w = Ret (r1, w1) /\ grows w w1 /\ files w1 = files w)
    as (r1 & w1 & -> & Hg1 & Hf1).
  { destruct (strrchr p "/") as [i|] eqn:Ei.
    - pose proof (strrchr_Some _ _ _ Ei) as (Hi & _ & _).
      destruct (make_dirs_existing (pred (strlen p)) (take i p) w) as (w1 & -> & Hf & Hg & _).
      + rewrite length_take. unfold strlen. lia.
      + destruct (decide (take i p = [])) as [|Hne]; [by left|right].
        apply resolve_Creatable in Hres as (dir & Hdir & _).
        destruct (resolve_parent _ _ _ _ _ Hdir Ei Hne) as [t Ht]. eauto.
      + eauto.
    - eexists _, _. split; [done|]. split; [apply grows_refl|done]. }
  rewrite bind_run, mkdir_run, Hf1, (grows_cwd _ _ Hg1), Hres. cbn.
  eexists. split; [done|]. rewrite (grows_now _ _ Hg1). split; [|done].
  eapply grows_trans; [done|].
  destruct (mkdir_grows p w1) as (r & w2 & Hrun & Hg & _).
  rewrite mkdir_run, Hf1, (grows_cwd _ _ Hg1), Hres in Hrun. injection Hrun as _ <-.
  by rewrite (grows_now _ _ Hg1) in Hg.
Qed.

Lemma after_bind {A B} (m : M A) (k : A -> M B) (w w' w'' : world) (a : A) (b : B) :
  m w = Ret (a, w') -> k a w' = Ret (b, w'') -> after (m ≫= k) w = w''.
Proof. intros H1 H2. unfold after. by rewrite bind_run, H1, H2. Qed.

(** X14.  [fs_mkdir] under an existing directory, and back.  When the
    name expands to a free name in an existing directory, [fs_mkdir]
    succeeds and adds exactly that directory, and [fs_delete] of the same
    name right after succeeds and leaves the files as they were before
    the two calls. *)
Theorem mkdir_then_delete (w : world) (name : cstring) (l : loc) :
  _fs_write_dir w <> [] ->
  length (expand (_fs_write_dir w) name) < FS_MAX_PATH ->
  wf (files w) ->
  resolve (files w) (cwd w) (expand (_fs_write_dir w) name) = Creatable l ->
  result (fs_mkdir name) w = Ret FS_ESUCCESS /\
  files (after (fs_mkdir name) w) = <[l := Dir (now w)]> (files w) /\
  result (_ ← fs_mkdir name; fs_delete name) w = Ret FS_ESUCCESS /\
  files (after (_ ← fs_mkdir name; fs_delete name) w) = files w.
Proof.
  intros Hwd Hfit Hwf Hres.
  destruct (make_dirs_in_existing _ _ _ Hres) as (w1 & Hrun & Hg & Hf).
  rewrite <- fs_mkdir_run in Hrun by done.
  split; [unfold result; by rewrite Hrun|].
  split; [unfold after; by rewrite Hrun|].
  pose proof (creatable_leaf _ _ _ _ Hres) as (dir & Hdir & -> & Hl & Hdot).
  assert (Hres1 : resolve (files w1) (cwd w1) (expand (_fs_write_dir w1) name)
                  = Found (path_leaf (expand (_fs_write_dir w) name) :: dir) (Dir (now w))).
  { rewrite Hf, (grows_cwd _ _ Hg), (grows_write_dir _ _ Hg). by apply resolve_insert_dir. }
  assert (Hrun2 : fs_delete name w1
            = Ret (FS_ESUCCESS,
                   set_files (delete (path_leaf (expand (_fs_write_dir w) name) :: dir)
                                (files w1))
                     (log_call (sys_remove (expand (_fs_write_dir w1) name)) w1))).
  { apply (fs_delete_removable name w1 _ (Dir (now w)));
      rewrite ?(grows_write_dir _ _ Hg); try done.
    - by rewrite (grows_write_dir _ _ Hg) in Hres1.
    - split; [|done]. intros c.
      rewrite Hf, lookup_insert_ne
        by (intros E; apply (f_equal length) in E; cbn in E; lia).
      destruct (files w !! (c :: _)) as [n|] eqn:E; [|done].
      apply mk_is_Some, wf_parent in E; [|done].
      apply is_dir_true in E as [t E]. congruence. }
  split; [unfold result; by rewrite bind_run, Hrun, Hrun2|].
  rewrite (after_bind _ _ _ _ _ _ _ Hrun Hrun2). cbn [files set_files].
  rewrite Hf. by apply delete_insert_id.
Qed.

Lemma mkdir_then_delete_witness :
  result (fs_mkdir (cs "foo")) configured = Ret FS_ESUCCESS /\
  files (after (fs_mkdir (cs "foo")) configured)
    = <[ [cs "foo"; cs "sandbox"] := Dir (now configured) ]> (files configured) /\
  result (_ ← fs_mkdir (cs "foo"); fs_delete (cs "foo")) configured = Ret FS_ESUCCESS /\
  files (after (_ ← fs_mkdir (cs "foo"); fs_delete (cs "foo")) configured)
    = files configured.
Proof.
  apply (mkdir_then_delete configured (cs "foo") [cs "foo"; cs "sandbox"]).
  - vm_compute. discriminate.
  - vm_compute. lia.
  - apply (bool_decide_unpack _). vm_compute. exact I.
  - vm_compute. reflexivity.
Defined.

(** ** The guard against parent segments, where it holds *)

Lemma write_pipeline_dotdot (mode : fmode) (name : cstring) (d : fs_write_desc) (w : world) :
  _fs_write_dir w <> [] ->
  length (expand (_fs_write_dir w) name) < FS_MAX_PATH ->
  strstr (expand (_fs_write_dir w) name) (cs "..") <> None ->
  exists w', write_pipeline mode name d w = Ret (FS_EWRITEFAIL, w') /\ grows w w'.
Proof.
  intros Hwd Hfit Hdots. unfold write_pipeline. rewrite bind_run. cbn [get_world].
  rewrite decide_False by done. rewrite bind_run.
  pose proof (concat_path_spec (char_array FS_MAX_PATH) (_fs_write_dir w) name
                (char_array_length _)) as Hc.
  destruct (_fs_concat_path _ _ _) as [[e buf]|f]; [|destruct Hc; lia].
  destruct Hc as [_ [(-> & _ & Hcs)|(_ & ?)]]; [|lia].
  cbn [lift]. rewrite decide_False by (intros ?; done). rewrite bind_run.
  destruct (create_dir_tree_grows buf _ w Hcs) as (w1 & -> & Hg).
  rewrite bind_run, Hcs. cbn [lift]. unfold _fs_write_to_file_ext.
  destruct (strstr _ _); [|done]. by exists w1.
Qed.

(** X15.  No regular file is reached through a path with two dots in a
    row.  When the path a name expands to contains [".."] anywhere (as a
    parent segment, or inside a file name such as ["notes..txt"]),
    [fs_write] and [fs_append] return WriteFail without opening a stream:
    every file is as it was, and what has been added, if anything, is
    directories. *)
Theorem dotdot_never_reaches_a_file (w : world) (name : cstring) (d : fs_write_desc) :
  _fs_write_dir w <> [] ->
  length (expand (_fs_write_dir w) name) < FS_MAX_PATH ->
  strstr (expand (_fs_write_dir w) name) (cs "..") <> None ->
  result (fs_write name d) w = Ret FS_EWRITEFAIL /\
  result (fs_append name d) w = Ret FS_EWRITEFAIL /\
  grows w (after (fs_write name d) w) /\
  grows w (after (fs_append name d) w).
Proof.
  intros Hwd Hfit Hdots.
  destruct (write_pipeline_dotdot _FS_MWRITE name d w Hwd Hfit Hdots) as (w1 & H1 & Hg1).
  destruct (write_pipeline_dotdot _FS_MAPPEND name d w Hwd Hfit Hdots) as (w2 & H2 & Hg2).
  rewrite fs_write_pipeline, fs_append_pipeline. unfold result, after. by rewrite H1, H2.
Qed.

Lemma dotdot_never_reaches_a_file_witness :
  result (fs_write (cs "notes..txt") (payload "x")) configured = Ret FS_EWRITEFAIL /\
  result (fs_append (cs "notes..txt") (payload "x")) configured = Ret FS_EWRITEFAIL /\
  grows configured (after (fs_write (cs "notes..txt") (payload "x")) configured) /\
  grows configured (after (fs_append (cs "notes..txt") (payload "x")) configured).
Proof.
  apply (dotdot_never_reaches_a_file configured (cs "notes..txt") (payload "x")).
  - vm_compute. discriminate.
  - vm_compute. lia.
  - vm_compute. discriminate.
Defined.

(** ** The working directory *)

Lemma malloc_run (n : nat) (w : world) :
  malloc n w =
  if decide (n <= heap_free w)
  then Ret (Some (replicate n None),
            set_heap_free (heap_free w - n) (log_call (sys_malloc n) w))
  else Ret (None, log_call (sys_malloc n) w).
Proof. unfold malloc. msimpl. by destruct (decide _). Qed.

Lemma fs_get_cwd_run (w : world) :
  FS_MAX_PATH <= heap_free w ->
  fs_get_cwd w =
  Ret (if is_dir (files w) (cwd w) && bool_decide (length (abs_path (cwd w)) < FS_MAX_PATH)
       then Some (strcpy_block (replicate FS_MAX_PATH None) (abs_path (cwd w)))
       else None,
       set_heap_free (heap_free w - FS_MAX_PATH) (log_call (sys_malloc FS_MAX_PATH) w)).
Proof.
  intros Hheap. unfold fs_get_cwd, getcwd. rewrite bind_run, malloc_run.
  rewrite decide_True by done. msimpl.
  destruct (is_dir (files w) (cwd w)); cbn [negb andb]; [|done].
  destruct (decide (FS_MAX_PATH <= length (abs_path (cwd w)))).
  - by rewrite bool_decide_eq_false_2 by lia.
  - rewrite bool_decide_eq_true_2 by lia. rewrite length_replicate.
    by rewrite decide_False by lia.
Qed.

(** The string [abs_path l] is a path to [l]: resolved from any working
    directory it leads to the entry [l] itself. *)
Lemma descend_rev (d : loc) (segs : list cstring) : descend d segs = rev segs ++ d.
Proof.
  revert d. induction segs as [|s segs IH]; intros d; [done|].
  cbn [descend foldl rev]. fold (descend (s :: d) segs). rewrite IH.
  by rewrite <- app_assoc.
Qed.

Lemma resolve_join (fs : gmap loc node) cwd (segs : list cstring) :
  forall (q : cstring) (d : loc) (t : Z) (n : node),
  wf fs ->
  resolve fs cwd q = Found d (Dir t) ->
  Forall segment segs ->
  fs !! descend d segs = Some n ->
  resolve fs cwd (join q segs) = Found (descend d segs) n.
Proof.
  induction segs as [|s segs IH]; intros q d t n Hwf Hq Hsegs Hn.
  - cbn in *. apply resolve_Found in Hq as (? & ? & ? & Hd). rewrite Hd in Hn.
    injection Hn as <-. by apply resolve_Found; eauto.
  - apply Forall_cons in Hsegs as [Hs Hsegs].
    change (join q (s :: segs)) with (join (q ++ "/"%char :: s) segs).
    change (descend d (s :: segs)) with (descend (s :: d) segs) in *.
    pose proof (resolve_child fs cwd q s d t Hq Hs) as Hc.
    destruct (decide (segs = [])) as [->|Hne].
    + cbn in *. by rewrite Hn in Hc.
    + assert (Hdir : is_dir fs (s :: d) = true).
      { apply (wf_ancestor fs (s :: d) (descend (s :: d) segs)); [done|by eexists| |].
        - rewrite descend_rev. by apply suffix_app_r.
        - intros E. apply (f_equal length) in E. rewrite descend_length in E.
          destruct segs; [done|cbn in E; lia]. }
      apply is_dir_true in Hdir as [t' Ht']. rewrite Ht' in Hc.
      by eapply IH.
Qed.

Lemma resolve_root_child (fs : gmap loc node) cwd (s : cstring) (n : node) :
  is_dir fs [] = true -> segment s -> fs !! [s] = Some n ->
  resolve fs cwd ("/"%char :: s) = Found [s] n.
Proof.
  intros Hroot Hs Hn. pose proof (segment_step [] s Hs) as [Hstep Hdot].
  destruct Hs as (_ & Hslash & _).
  unfold resolve, path_dir, path_leaf. cbn [path_start split_on].
  rewrite decide_True by done. rewrite decide_True by done.
  rewrite (split_on_nosep _ _ Hslash). cbn [removelast walk last default from_option id].
  rewrite Hroot. unfold enter, step at 1 2. rewrite decide_True by (by left).
  rewrite Hroot. cbn [mbind option_bind]. by rewrite Hstep, Hn.
Qed.

Lemma abs_path_resolves (fs : gmap loc node) (cwd l : loc) (t : Z) :
  wf fs -> Forall segment l -> fs !! l = Some (Dir t) ->
  resolve fs cwd (abs_path l) = Found l (Dir t).
Proof.
  intros Hwf Hsegs Hl. unfold abs_path.
  destruct (rev l) as [|s segs] eqn:Hrev.
  - apply (f_equal (fun x => rev x)) in Hrev. rewrite rev_involutive in Hrev. subst l. cbn in *.
    assert (Hroot : is_dir fs [] = true) by (apply is_dir_true; eauto).
    unfold resolve, path_dir, path_leaf. cbn [path_start cs list_ascii_of_string split_on].
    rewrite decide_True by done. rewrite decide_True by done. rewrite Hroot.
    cbn [removelast walk last default from_option id].
    unfold enter, step. rewrite !decide_True by (by left). rewrite Hroot.
    cbn [mbind option_bind]. rewrite !decide_True by (by left). by rewrite Hl.
  - assert (Hl' : l = descend [s] segs).
    { rewrite descend_rev. apply (f_equal (fun x => rev x)) in Hrev. rewrite rev_involutive in Hrev.
      by rewrite Hrev. }
    assert (Hall : Forall segment (s :: segs)).
    { rewrite <- Hrev. by apply Forall_rev. }
    apply Forall_cons in Hall as [Hs Hall].
    assert (Hroot : is_dir fs [] = true).
    { apply (wf_ancestor fs [] l); [done|by eexists|apply suffix_nil|].
      intros E. rewrite <- E in Hrev. discriminate Hrev. }
    fold (join ("/"%char :: s) segs). rewrite Hl' in *.
    destruct (decide (segs = [])) as [->|Hne].
    + cbn in *. by apply resolve_root_child.
    + assert (Hdir : is_dir fs [s] = true).
      { apply (wf_ancestor fs [s] (descend [s] segs)); [done|by eexists| |].
        - rewrite descend_rev. by apply suffix_app_r.
        - intros E. apply (f_equal length) in E. rewrite descend_length in E.
          destruct segs; [done|cbn in E; lia]. }
      apply is_dir_true in Hdir as [t' Ht'].
      apply (resolve_join fs cwd segs _ [s] t'); try done.
      by apply resolve_root_child.
Qed.

(** X16.  [fs_get_cwd] with [FS_MAX_PATH] bytes of heap to spare, in a
    working directory whose absolute path is shorter than [FS_MAX_PATH]:
    it returns a block of [FS_MAX_PATH] bytes that starts with the path
    and its terminator, and [fs_free] of that block gives the heap back
    what the call took.  In a well-formed file system that path leads
    to the working directory. *)
Theorem get_cwd_returns_path (w : world) :
  FS_MAX_PATH <= heap_free w ->
  is_dir (files w) (cwd w) = true ->
  length (abs_path (cwd w)) < FS_MAX_PATH ->
  (exists b : block,
     result fs_get_cwd w = Ret (Some b) /\
     length b = FS_MAX_PATH /\
     take (S (length (abs_path (cwd w)))) b
       = (Some <$> (byte_of_ascii <$> abs_path (cwd w))) ++ [Some x00] /\
     heap_free (after fs_get_cwd w) + FS_MAX_PATH = heap_free w /\
     heap_free (after (p ← fs_get_cwd; fs_free p) w) = heap_free w) /\
  (wf (files w) -> Forall segment (cwd w) ->
   exists t, resolve (files w) (cwd w) (abs_path (cwd w)) = Found (cwd w) (Dir t)).
Proof.
  intros Hheap Hdir Hfit. split.
  2: { intros Hwf Hsegs. apply is_dir_true in Hdir as [t Ht]. exists t.
       by apply abs_path_resolves. }
  pose proof (fs_get_cwd_run w Hheap) as Hrun.
  rewrite Hdir, bool_decide_eq_true_2 in Hrun by done. cbn [andb] in Hrun.
  set (b := strcpy_block _ _) in Hrun.
  assert (Hb : length b = FS_MAX_PATH).
  { unfold b, strcpy_block. rewrite length_app, !length_fmap. cbn [length].
    rewrite length_drop, length_replicate. lia. }
  exists b. unfold result, after. rewrite bind_run, Hrun. split_and!; try done.
  - unfold b, strcpy_block. rewrite take_app_ge; rewrite !length_fmap; [|lia].
    replace (S _ - _) with 1 by lia. done.
  - cbn. lia.
  - unfold fs_free, free. msimpl. rewrite Hb. lia.
Qed.

Lemma get_cwd_returns_path_witness :
  (exists b : block,
     result fs_get_cwd boot = Ret (Some b) /\
     length b = FS_MAX_PATH /\
     take (S (length (abs_path (cwd boot)))) b
       = (Some <$> (byte_of_ascii <$> abs_path (cwd boot))) ++ [Some x00] /\
     heap_free (after fs_get_cwd boot) + FS_MAX_PATH = heap_free boot /\
     heap_free (after (p ← fs_get_cwd; fs_free p) boot) = heap_free boot) /\
  (exists t, resolve (files boot) (cwd boot) (abs_path (cwd boot))
               = Found (cwd boot) (Dir t)).
Proof.
  destruct (get_cwd_returns_path boot) as [Hb Hr].
  - vm_compute. lia.
  - vm_compute. reflexivity.
  - vm_compute. lia.
  - split; [exact Hb|]. apply Hr.
    + apply (bool_decide_unpack _). vm_compute. exact I.
    + repeat constructor; discriminate.
Defined.

(** X17.  [fs_get_cwd] in a working directory whose absolute path takes
    [FS_MAX_PATH] characters or more: it returns NULL, and the
    [FS_MAX_PATH] bytes it took from the heap stay taken. *)
Theorem get_cwd_too_long (w : world) :
  FS_MAX_PATH <= heap_free w ->
  FS_MAX_PATH <= length (abs_path (cwd w)) ->
  result fs_get_cwd w = Ret None /\
  heap_free (after fs_get_cwd w) + FS_MAX_PATH = heap_free w.
Proof.
  intros Hheap Hlong. pose proof (fs_get_cwd_run w Hheap) as Hrun.
  rewrite (bool_decide_eq_false_2 (_ < _)), andb_false_r in Hrun by lia.
  unfold result, after. rewrite Hrun. cbn. split; [done|lia].
Qed.

Lemma get_cwd_too_long_witness :
  result fs_get_cwd deep = Ret None /\
  heap_free (after fs_get_cwd deep) + FS_MAX_PATH = heap_free deep.
Proof.
  apply (get_cwd_too_long deep).
  - vm_compute. lia.
  - vm_compute. lia.
Defined.


(** ** The calls return *)

Lemma check_search_path_loop_returns (name : cstring) fuel :
  forall (path : cstring) (str buf : buffer) (fstat : option stat_t) (w : world),
  length path < fuel -> length path < FS_MAX_PATH ->
  length str = FS_MAX_PATH -> length buf = FS_MAX_PATH ->
  (forall p, p ∈ candidates path name -> length p <= FS_MAX_PATH) ->
  exists x w', _fs_check_search_path_loop fuel name path str buf fstat w = Ret (x, w').
Proof.
  induction fuel as [|fuel IH]; intros path str buf fstat w Hfuel Hlen Hstr Hbuf Hfit; [lia|].
  cbn [_fs_check_search_path_loop]. rewrite bind_run.
  destruct (get_template_spec path str Hlen Hstr)
    as [[Hnil ->]|(t & rest & str' & -> & Hct & Hstr' & Hcons & Hrest)]; cbn [lift];
    [by eexists _, _|].
  unfold candidates in Hfit. rewrite Hcons in Hfit. cbn [fmap list_fmap] in Hfit.
  rewrite bind_run, Hct. cbn [lift]. rewrite bind_run.
  pose proof (concat_path_spec buf t name Hbuf) as Hc.
  assert (Hp : length (expand t name) <= FS_MAX_PATH) by (apply Hfit; left).
  destruct (_fs_concat_path buf t name) as [[e1 buf1]|f]; [|destruct Hc; lia].
  destruct Hc as [Hbuf1 [(-> & _ & Hcs)|(-> & ?)]]; cbn [lift].
  - rewrite decide_False by (intros ?; done).
    rewrite bind_run, Hcs. cbn [lift]. rewrite bind_run, stat_run.
    destruct (probe (files w) (cwd w) (expand t name)) as [st|]; [by eexists _, _|].
    apply IH; [lia|lia|done|done|]. intros p Hin. apply Hfit. by right.
  - rewrite decide_True by done. by eexists _, _.
Qed.

Lemma check_search_path_returns (name : cstring) (buf : buffer) (fstat : option stat_t)
    (w : world) :
  strlen (_fs_search_path w) < FS_MAX_PATH ->
  length buf = FS_MAX_PATH ->
  (forall p, p ∈ candidates (_fs_search_path w) name -> length p <= FS_MAX_PATH) ->
  exists x w', _fs_check_search_path name buf fstat w = Ret (x, w').
Proof.
  intros Hlen Hbuf Hfit. unfold _fs_check_search_path. rewrite bind_run. cbn [get_world].
  destruct (decide (_fs_search_path w = [])); [by eexists _, _|].
  apply check_search_path_loop_returns; try done; try apply char_array_length.
  unfold strlen in *. lia.
Qed.

Lemma write_to_file_ext_returns (p : cstring) (mode : fmode) (d : fs_write_desc) (w : world) :
  desc_size d <= length (desc_data d) ->
  exists r w', _fs_write_to_file_ext p mode d w = Ret (r, w').
Proof.
  intros Hle. unfold _fs_write_to_file_ext. destruct (strstr p (cs "..")); [by eexists _, _|].
  unfold fopen, open_stream, fwrite, fclose, lift. msimpl.
  destruct (resolve (files w) (cwd w) p) as [l [t0 c0|t0]|l|]; destruct mode; msimpl;
    try (by eexists _, _);
    rewrite decide_False by lia;
    rewrite ?lookup_insert_eq; cbn [s_mode s_loc s_pos]; rewrite ?lookup_insert_eq;
    msimpl; try (destruct (files w !! l) as [[]|]; msimpl); by eexists _, _.
Qed.

Lemma write_side_head_returns {A} (name : cstring) (k : buffer -> M A) (fail : Z -> A)
    (w : world) :
  length (expand (_fs_write_dir w) name) <= FS_MAX_PATH ->
  (forall buf, c_str buf = Ret (expand (_fs_write_dir w) name) ->
               exists a w', k buf w = Ret (a, w')) ->
  exists a w',
    (w0 ← get_world;
     if decide (_fs_write_dir w0 = []) then mret (fail FS_ENOWRITEDIR) else
     '(err, buf) ← lift (_fs_concat_path (char_array FS_MAX_PATH) (_fs_write_dir w0) name);
     if decide (err <> 0%Z) then mret (fail err) else k buf) w = Ret (a, w').
Proof.
  intros Hfit Hk. rewrite bind_run. cbn [get_world].
  destruct (decide (_fs_write_dir w = [])); [by eexists _, _|]. rewrite bind_run.
  pose proof (concat_path_spec (char_array FS_MAX_PATH) (_fs_write_dir w) name
                (char_array_length _)) as Hc.
  destruct (_fs_concat_path _ _ _) as [[e buf]|f]; [|destruct Hc; lia]. cbn [lift].
  destruct Hc as [_ [(-> & _ & Hcs)|(-> & _)]].
  - rewrite decide_False by (intros ?; done). by apply Hk.
  - rewrite decide_True by done. by eexists _, _.
Qed.

(** X18.  The calls return.  With a search path stored by the setter, no
    candidate path and no write path longer than [FS_MAX_PATH], and a
    payload at least as large as its descriptor says, every call of the
    interface returns: none of them writes past an array, reads past the
    payload or reads a value that was never written. *)
Theorem calls_return (w : world) (name : cstring) (d : fs_write_desc)
    (info : option fs_info) (size : option nat) :
  strlen (_fs_search_path w) < FS_MAX_PATH ->
  (forall p, p ∈ candidates (_fs_search_path w) name -> length p <= FS_MAX_PATH) ->
  length (expand (_fs_write_dir w) name) <= FS_MAX_PATH ->
  desc_size d <= length (desc_data d) ->
  (exists r, result (fs_exists name) w = Ret r) /\
  (exists r, result (fs_get_info name info) w = Ret r) /\
  (exists r, result (fs_read name size) w = Ret r) /\
  (exists r, result (fs_write name d) w = Ret r) /\
  (exists r, result (fs_append name d) w = Ret r) /\
  (exists r, result (fs_mkdir name) w = Ret r) /\
  (exists r, result (fs_delete name) w = Ret r).
Proof.
  intros Hlen Hcands Hfit Hle.
  destruct (check_search_path_returns name (char_array FS_MAX_PATH) None w Hlen
              (char_array_length _) Hcands) as ([[e buf'] fstat'] & w1 & Hc).
  pose proof (check_search_path_inv _ _ _ _ _ _ _ _ (char_array_length _) Hc) as [Hs Hcase].
  assert (Hw : forall mode, exists r, result (write_pipeline mode name d) w = Ret r).
  { intros mode.
    destruct (write_side_head_returns name
                (fun buf => _ ← _FS_CREATE_DIR_TREE buf; p ← lift (c_str buf);
                            _fs_write_to_file_ext p mode d) id w Hfit) as (r & w' & H).
    - intros buf Hcs. rewrite bind_run.
      destruct (create_dir_tree_grows buf _ w Hcs) as (w' & -> & _).
      rewrite bind_run, Hcs. cbn [lift]. by apply write_to_file_ext_returns.
    - exists r. assert (H' : write_pipeline mode name d w = Ret (r, w')) by exact H.
      unfold result. by rewrite H'. }
  split_and!.
  - unfold result, fs_exists, _fs_get_type. rewrite bind_run. cbn [get_world].
    destruct (decide _); [by eexists|]. rewrite !bind_run, Hc.
    destruct (decide (e <> FS_ESUCCESS)) as [|He]; [by eexists|].
    destruct Hcase as [(_ & _ & p & st & _ & -> & _)|[([-> | ->] & _)|(-> & _)]];
      try (exfalso; apply He; discriminate).
    cbn [the_stat]. rewrite bind_run. cbn [mret M_ret].
    destruct (st_mode st); by eexists.
  - unfold result, fs_get_info. rewrite bind_run. cbn [get_world].
    destruct (decide _); [by eexists|]. rewrite !bind_run, Hc.
    destruct (decide (e <> 0%Z)) as [|He]; [by eexists|].
    destruct Hcase as [(_ & _ & p & st & _ & -> & _)|[([-> | ->] & _)|(-> & _)]];
      try (exfalso; apply He; discriminate).
    cbn [the_stat]. rewrite bind_run. cbn [mret M_ret]. by eexists.
  - unfold result, fs_read. rewrite bind_run, Hc.
    destruct (decide (e <> FS_ESUCCESS)) as [|He]; [by eexists|].
    destruct Hcase as [(_ & _ & p & st & Hp & -> & _)|[([-> | ->] & _)|(-> & _)]];
      try (exfalso; apply He; discriminate).
    rewrite bind_run, Hp. cbn [lift].
    unfold fopen, open_stream, the_stat, malloc, fread, fclose. msimpl.
    destruct (resolve (files w1) (cwd w1) p) as [l [t0 c0|t0]|l|]; msimpl; try (by eexists);
      (destruct (decide (st_size st <= heap_free w1)); msimpl; [|by eexists]);
      rewrite length_replicate; rewrite decide_False by lia;
      rewrite lookup_insert_eq; cbn [s_loc s_mode s_pos];
      (destruct (files w1 !! l) as [[t c|t]|]); msimpl; by eexists.
  - rewrite fs_write_pipeline. apply Hw.
  - rewrite fs_append_pipeline. apply Hw.
  - destruct (write_side_head_returns name (fun buf => p ← lift (c_str buf); _fs_make_dirs p)
                id w Hfit) as (r & w' & H).
    + intros buf Hcs. rewrite bind_run, Hcs. cbn [lift]. apply make_dirs_not_exhausted.
    + exists r. assert (H' : fs_mkdir name w = Ret (r, w')) by exact H.
      unfold result. by rewrite H'.
  - destruct (write_side_head_returns name
                (fun buf => p ← lift (c_str buf); r ← remove p;
                            mret (if decide (r <> 0%Z) then FS_EREMOVE else FS_ESUCCESS))
                id w Hfit) as (r & w' & H).
    + intros buf Hcs. rewrite bind_run, Hcs. cbn [lift]. rewrite bind_run, remove_run.
      destruct (resolve _ _ _) as [l [t c|t]|l|]; try (by eexists _, _).
      destruct (_ || _ || _); by eexists _, _.
    + exists r. assert (H' : fs_delete name w = Ret (r, w')) by exact H.
      unfold result. by rewrite H'.
Qed.

Lemma calls_return_witness :
  (exists r, result (fs_exists (cs "example.txt")) with_example = Ret r) /\
  (exists r, result (fs_get_info (cs "example.txt") None) with_example = Ret r) /\
  (exists r, result (fs_read (cs "example.txt") None) with_example = Ret r) /\
  (exists r, result (fs_write (cs "example.txt") (payload "all new data")) with_example
             = Ret r) /\
  (exists r, result (fs_append (cs "example.txt") (payload "all new data")) with_example
             = Ret r) /\
  (exists r, result (fs_mkdir (cs "example.txt")) with_example = Ret r) /\
  (exists r, result (fs_delete (cs "example.txt")) with_example = Ret r).
Proof.
  apply (calls_return with_example (cs "example.txt") (payload "all new data") None None).
  - vm_compute. lia.
  - replace (candidates (_fs_search_path with_example) (cs "example.txt"))
      with [cs "./example.txt"] by (vm_compute; reflexivity).
    intros p Hp. apply list_elem_of_singleton in Hp. subst p. vm_compute. lia.
  - vm_compute. lia.
  - vm_compute. lia.
Defined.

(** ** Where the substitution routine changes its answer *)

Lemma expand_single (pre post name : cstring) :
  strchr pre "?" = None -> strchr post "?" = None ->
  strchr (pre ++ "?"%char :: post) "?" = Some (length pre) /\
  expand (pre ++ "?"%char :: post) name = pre ++ name.
Proof.
  intros Hpre Hpost.
  assert (Hk : strchr (pre ++ "?"%char :: post) "?" = Some (length pre)).
  { rewrite strchr_app_None by done. cbn [strchr]. rewrite decide_True by done.
    cbn. f_equal. lia. }
  split; [done|]. rewrite (expand_mark _ _ _ Hk).
  assert (drop (S (length pre)) (pre ++ "?"%char :: post) = post) as ->.
  { rewrite cons_middle, app_assoc. apply drop_app_length'. rewrite length_app. cbn. lia. }
  rewrite take_app_length. rewrite (expand_nomark post) by done. by rewrite app_nil_r.
Qed.

(** X19.  Where [_fs_concat_path] changes its answer.  For a template
    with one marker and a name that together come to [n] characters, the
    routine succeeds with the path when [n < FS_MAX_PATH], returns
    TooLong when [n = FS_MAX_PATH], and writes past the array for every
    longer [n]: TooLong is what it returns at exactly one length. *)
Theorem concat_path_boundary (buf : buffer) (pre post name : cstring) :
  length buf = FS_MAX_PATH ->
  strchr pre "?" = None -> strchr post "?" = None ->
  (length pre + length name < FS_MAX_PATH ->
   exists buf', _fs_concat_path buf (pre ++ "?"%char :: post) name = Ret (FS_ESUCCESS, buf') /\
                c_str buf' = Ret (pre ++ name)) /\
  (length pre + length name = FS_MAX_PATH ->
   exists buf', _fs_concat_path buf (pre ++ "?"%char :: post) name = Ret (FS_ETOOLONG, buf')) /\
  (FS_MAX_PATH < length pre + length name ->
   _fs_concat_path buf (pre ++ "?"%char :: post) name = Fault Overrun).
Proof.
  intros Hbuf Hpre Hpost.
  destruct (expand_single pre post name Hpre Hpost) as [Hk Hex].
  pose proof (concat_path_spec buf (pre ++ "?"%char :: post) name Hbuf) as Hc.
  rewrite Hex, length_app in Hc. split_and!.
  - intros Hn. destruct (_fs_concat_path _ _ _) as [[e buf']|f]; [|destruct Hc; lia].
    destruct Hc as [_ [(-> & _ & Hcs)|(_ & ?)]]; [|lia]. by exists buf'.
  - intros Hn. destruct (_fs_concat_path _ _ _) as [[e buf']|f]; [|destruct Hc; lia].
    destruct Hc as [_ [(_ & ? & _)|(-> & _)]]; [lia|]. by exists buf'.
  - intros Hn. clear Hc. unfold _fs_concat_path. cbn [_fs_concat_path_loop].
    rewrite strstr_mark, Hk.
    destruct (CONCAT_cases buf 0 (pre ++ "?"%char :: post) (length pre))
      as [(Hle & b1 & -> & Hb1 & _)|(_ & ->)]; [rewrite length_app; lia|lia| |done].
    cbn [mbind outcome_bind]. cbn [Nat.add] in *. change (strlen name) with (length name).
    destruct (CONCAT_cases b1 (length pre) name (length name))
      as [(Hle' & _)|(_ & ->)]; [done|lia|lia|done].
Qed.

Lemma concat_path_boundary_witness :
  (exists buf', _fs_concat_path (char_array FS_MAX_PATH) (cs "./" ++ "?"%char :: [])
                  (cs "example.txt") = Ret (FS_ESUCCESS, buf') /\
                c_str buf' = Ret (cs "./" ++ cs "example.txt")) /\
  (exists buf', _fs_concat_path (char_array FS_MAX_PATH) (cs "./" ++ "?"%char :: [])
                  (replicate 254 "a"%char) = Ret (FS_ETOOLONG, buf')) /\
  _fs_concat_path (char_array FS_MAX_PATH) (cs "./" ++ "?"%char :: [])
    (replicate 255 "a"%char) = Fault Overrun.
Proof.
  split; [|split].
  - apply (concat_path_boundary (char_array FS_MAX_PATH) (cs "./") [] (cs "example.txt"));
      [reflexivity..|]. vm_compute. lia.
  - apply (concat_path_boundary (char_array FS_MAX_PATH) (cs "./") []
             (replicate 254 "a"%char)); [reflexivity..|]. vm_compute. reflexivity.
  - apply (concat_path_boundary (char_array FS_MAX_PATH) (cs "./") []
             (replicate 255 "a"%char)); [reflexivity..|]. vm_compute. lia.
Defined.

(** ** Writing below directories that do not exist yet *)

(** [fs_write] and [fs_append] once [_FS_CREATE_DIR_TREE] has left the
    world [w1] behind, on a path that can be opened there. *)
Lemma write_pipeline_run_tree (mode : fmode) (name : cstring) (d : fs_write_desc)
    (w w1 : world) l prior :
  mode <> _FS_MREAD ->
  _fs_write_dir w <> [] ->
  length (expand (_fs_write_dir w) name) < FS_MAX_PATH ->
  strstr (expand (_fs_write_dir w) name) (cs "..") = None ->
  (forall buf, c_str buf = Ret (expand (_fs_write_dir w) name) ->
               _FS_CREATE_DIR_TREE buf w = Ret (tt, w1)) ->
  grows w w1 ->
  writable (files w1) (cwd w) (expand (_fs_write_dir w) name) mode l prior ->
  desc_size d <= length (desc_data d) ->
  (Z.of_nat (desc_size d) <= INT_MAX)%Z ->
  exists w',
    write_pipeline mode name d w
      = Ret (if decide (desc_size d <= disk_free w) then FS_ESUCCESS else FS_EWRITEFAIL, w') /\
    files w' = <[l := File (now w)
                          (prior ++ take (desc_size d `min` disk_free w) (desc_data d))]>
                 (files w1).
Proof.
  intros Hmode Hwd Hfit Hdots Htree Hg Hw Hle Hsize. unfold write_pipeline.
  rewrite bind_run. cbn [get_world]. rewrite decide_False by done. rewrite bind_run.
  pose proof (concat_path_spec (char_array FS_MAX_PATH) (_fs_write_dir w) name
                (char_array_length _)) as Hc.
  destruct (_fs_concat_path _ _ _) as [[e buf]|f]; [|destruct Hc; lia].
  destruct Hc as [_ [(-> & _ & Hcs)|(_ & ?)]]; [|lia]. cbn [lift].
  rewrite decide_False by (intros ?; done). rewrite bind_run, (Htree buf Hcs).
  rewrite bind_run, Hcs. cbn [lift].
  destruct (write_to_file_ext_run (expand (_fs_write_dir w) name) mode d w1 l prior)
    as (w' & -> & Hf' & _); try done.
  { by rewrite (grows_cwd _ _ Hg). }
  exists w'. rewrite write_code_small by done. rewrite (grows_disk_free _ _ Hg).
  split; [done|].
  by rewrite Hf', (grows_now _ _ Hg), (grows_disk_free _ _ Hg).
Qed.

Lemma create_dir_tree_run (buf : buffer) (q leaf : cstring) (w : world) :
  c_str buf = Ret (q ++ "/"%char :: leaf) -> strchr leaf "/" = None ->
  _FS_CREATE_DIR_TREE buf w = (_ ← _fs_make_dirs q; mret tt) w.
Proof.
  intros Hcs Hleaf. unfold _FS_CREATE_DIR_TREE. rewrite bind_run, Hcs. cbn [lift].
  by rewrite (strrchr_app_sep _ _ _ Hleaf), take_app_length.
Qed.

Lemma descend_in_trail (d : loc) (segs : list cstring) :
  segs <> [] -> descend d segs ∈ trail_locs d segs.
Proof.
  destruct segs as [|s segs] using rev_ind; [done|]. intros _.
  rewrite descend_snoc, trail_locs_snoc. apply elem_of_app. right. left.
Qed.

Lemma write_pipeline_creates_directories (w : world) (base : cstring) (D : loc) (tD : Z)
    (s : cstring) (segs : list cstring) (leaf : cstring) (d : fs_write_desc) (mode : fmode) :
  _fs_write_dir w = base ++ cs "/?" ->
  strchr base "?" = None ->
  resolve (files w) (cwd w) base = Found D (Dir tD) ->
  wf (files w) ->
  Forall segment (s :: segs) -> segment leaf ->
  files w !! (s :: D) = None ->
  length (join base ((s :: segs) ++ [leaf])) < FS_MAX_PATH ->
  strstr (join base ((s :: segs) ++ [leaf])) (cs "..") = None ->
  desc_size d <= length (desc_data d) ->
  (Z.of_nat (desc_size d) <= INT_MAX)%Z ->
  desc_size d <= disk_free w ->
  mode <> _FS_MREAD ->
  result (write_pipeline mode (path_of ((s :: segs) ++ [leaf])) d) w = Ret FS_ESUCCESS /\
  forall l,
    files (after (write_pipeline mode (path_of ((s :: segs) ++ [leaf])) d) w) !! l =
    if decide (l = leaf :: descend D (s :: segs))
    then Some (File (now w) (take (desc_size d) (desc_data d)))
    else if decide (l ∈ trail_locs D (s :: segs)) then Some (Dir (now w))
    else files w !! l.
Proof.
  intros Hwd Hno Hbase Hwf Hsegs Hleaf Hfree Hfit Hdots Hle Hsize Hdisk Hmode.
  set (name := path_of ((s :: segs) ++ [leaf])).
  assert (Hp : expand (_fs_write_dir w) name
               = join base (s :: segs) ++ "/"%char :: leaf).
  { unfold name. rewrite Hwd, expand_below by done.
    change ((s :: segs) ++ [leaf]) with (s :: (segs ++ [leaf])).
    rewrite join_path_of. change (s :: (segs ++ [leaf])) with ((s :: segs) ++ [leaf]).
    apply join_snoc. }
  rewrite join_snoc in Hfit, Hdots.
  assert (Hfree' : forall l, l ∈ trail_locs D (s :: segs) -> files w !! l = None).
  { intros l Hl%trail_locs_suffix. destruct (files w !! l) as [n|] eqn:E; [|done].
    destruct (decide (s :: D = l)) as [<-|Hne]; [congruence|].
    assert (is_dir (files w) (s :: D) = true) as [t Ht]%is_dir_true; [|congruence].
    eapply wf_ancestor; eauto. }
  destruct (make_dirs_trail base D tD w (s :: segs) (strlen (join base (s :: segs))))
    as (w1 & Hrun & Hg & Hf & [t Hres] & _); try done.
  rewrite decide_False in Hrun by done.
  assert (Hnew : files w1 !! (leaf :: descend D (s :: segs)) = None).
  { rewrite Hf, decide_False.
    - destruct (files w !! (leaf :: descend D (s :: segs))) as [n|] eqn:E; [|done].
      apply mk_is_Some, wf_parent in E; [|done]. apply is_dir_true in E as [t' E].
      rewrite Hfree' in E; [done|]. by apply descend_in_trail.
    - intros Hin%trail_locs_length. cbn [length] in Hin.
      rewrite descend_length in Hin. cbn [length] in Hin. lia. }
  pose proof Hleaf as (_ & Hslash & _).
  destruct (write_pipeline_run_tree mode name d w w1 (leaf :: descend D (s :: segs)) [])
    as (w' & Hrun' & Hf'); rewrite ?Hp; try done.
  - rewrite Hwd. by destruct base.
  - intros buf Hcs. rewrite (create_dir_tree_run _ _ _ _ Hcs Hslash), bind_run.
    unfold _fs_make_dirs. by rewrite Hrun.
  - left. split; [|done]. by rewrite (resolve_child _ _ _ _ _ _ Hres Hleaf), Hnew.
  - unfold result, after. rewrite Hrun', decide_True by done. split; [done|].
    intros l. rewrite Hf', Nat.min_l by done. cbn [app].
    destruct (decide (l = leaf :: descend D (s :: segs))) as [->|Hne].
    + by rewrite lookup_insert_eq.
    + rewrite lookup_insert_ne by done. apply Hf.
Qed.

(** X20.  [fs_write] and [fs_append] make the directories of a name.
    With the write directory [base/?] over an existing directory and a
    name [s1/.../sn/leaf] whose first segment does not exist yet, either
    call creates [base/s1], ..., [base/s1/.../sn] and then the file, which
    holds the payload; every other entry is as it was. *)
Theorem write_creates_directories (w : world) (base : cstring) (D : loc) (tD : Z)
    (s : cstring) (segs : list cstring) (leaf : cstring) (d : fs_write_desc) :
  _fs_write_dir w = base ++ cs "/?" ->
  strchr base "?" = None ->
  resolve (files w) (cwd w) base = Found D (Dir tD) ->
  wf (files w) ->
  Forall segment (s :: segs) -> segment leaf ->
  files w !! (s :: D) = None ->
  length (join base ((s :: segs) ++ [leaf])) < FS_MAX_PATH ->
  strstr (join base ((s :: segs) ++ [leaf])) (cs "..") = None ->
  desc_size d <= length (desc_data d) ->
  (Z.of_nat (desc_size d) <= INT_MAX)%Z ->
  desc_size d <= disk_free w ->
  (result (fs_write (path_of ((s :: segs) ++ [leaf])) d) w = Ret FS_ESUCCESS /\
   forall l,
     files (after (fs_write (path_of ((s :: segs) ++ [leaf])) d) w) !! l =
     if decide (l = leaf :: descend D (s :: segs))
     then Some (File (now w) (take (desc_size d) (desc_data d)))
     else if decide (l ∈ trail_locs D (s :: segs)) then Some (Dir (now w))
     else files w !! l) /\
  (result (fs_append (path_of ((s :: segs) ++ [leaf])) d) w = Ret FS_ESUCCESS /\
   forall l,
     files (after (fs_append (path_of ((s :: segs) ++ [leaf])) d) w) !! l =
     if decide (l = leaf :: descend D (s :: segs))
     then Some (File (now w) (take (desc_size d) (desc_data d)))
     else if decide (l ∈ trail_locs D (s :: segs)) then Some (Dir (now w))
     else files w !! l).
Proof.
  intros. split.
  - rewrite fs_write_pipeline. by eapply write_pipeline_creates_directories.
  - rewrite fs_append_pipeline. by eapply write_pipeline_creates_directories.
Qed.

Lemma write_creates_directories_witness :
  (result (fs_write (path_of ([cs "foo"] ++ [cs "example.txt"])) (payload "quick brown fox"))
     configured = Ret FS_ESUCCESS /\
   forall l,
     files (after (fs_write (path_of ([cs "foo"] ++ [cs "example.txt"]))
                     (payload "quick brown fox")) configured) !! l =
     if decide (l = cs "example.txt" :: descend [cs "sandbox"] [cs "foo"])
     then Some (File (now configured)
                  (take (desc_size (payload "quick brown fox"))
                        (desc_data (payload "quick brown fox"))))
     else if decide (l ∈ trail_locs [cs "sandbox"] [cs "foo"])
          then Some (Dir (now configured))
          else files configured !! l) /\
  (result (fs_append (path_of ([cs "foo"] ++ [cs "example.txt"])) (payload "quick brown fox"))
     configured = Ret FS_ESUCCESS /\
   forall l,
     files (after (fs_append (path_of ([cs "foo"] ++ [cs "example.txt"]))
                     (payload "quick brown fox")) configured) !! l =
     if decide (l = cs "example.txt" :: descend [cs "sandbox"] [cs "foo"])
     then Some (File (now configured)
                  (take (desc_size (payload "quick brown fox"))
                        (desc_data (payload "quick brown fox"))))
     else if decide (l ∈ trail_locs [cs "sandbox"] [cs "foo"])
          then Some (Dir (now configured))
          else files configured !! l).
Proof.
  apply (write_creates_directories configured (cs ".") [cs "sandbox"] 0%Z (cs "foo") []
           (cs "example.txt") (payload "quick brown fox")).
  - reflexivity.
  - reflexivity.
  - vm_compute. reflexivity.
  - apply (bool_decide_unpack _). vm_compute. exact I.
  - repeat constructor; (vm_compute; discriminate).
  - repeat constructor; (vm_compute; discriminate).
  - vm_compute. reflexivity.
  - vm_compute. lia.
  - vm_compute. reflexivity.
  - vm_compute. lia.
  - vm_compute. discriminate.
  - vm_compute. lia.
Defined.

(** ** Writing where a directory is *)

(** X21.  [fs_write] and [fs_append] on a name whose path is a directory
    return WriteFail and leave the files as they were. *)
Theorem write_to_directory_fails (w : world) (name : cstring) (d : fs_write_desc)
    (l : loc) (t : Z) :
  _fs_write_dir w <> [] ->
  length (expand (_fs_write_dir w) name) < FS_MAX_PATH ->
  resolve (files w) (cwd w) (expand (_fs_write_dir w) name) = Found l (Dir t) ->
  result (fs_write name d) w = Ret FS_EWRITEFAIL /\
  files (after (fs_write name d) w) = files w /\
  result (fs_append name d) w = Ret FS_EWRITEFAIL /\
  files (after (fs_append name d) w) = files w.
Proof.
  intros Hwd Hfit Hres.
  assert (H : forall mode, mode <> _FS_MREAD ->
            exists w', write_pipeline mode name d w = Ret (FS_EWRITEFAIL, w') /\
                       files w' = files w).
  { intros mode Hmode. unfold write_pipeline.
    rewrite bind_run. cbn [get_world]. rewrite decide_False by done. rewrite bind_run.
    pose proof (concat_path_spec (char_array FS_MAX_PATH) (_fs_write_dir w) name
                  (char_array_length _)) as Hc.
    destruct (_fs_concat_path _ _ _) as [[e buf]|f]; [|destruct Hc; lia].
    destruct Hc as [_ [(-> & _ & Hcs)|(_ & ?)]]; [|lia]. cbn [lift].
    rewrite decide_False by (intros ?; done). rewrite bind_run.
    pose proof Hres as (dir & Hdir & _)%resolve_Found.
    destruct (create_dir_tree_existing buf _ w dir Hcs Hdir) as (w1 & -> & Hg & Hf).
    rewrite bind_run, Hcs. cbn [lift]. unfold _fs_write_to_file_ext.
    destruct (strstr _ _); [by exists w1|].
    unfold fopen. msimpl. rewrite Hf, (grows_cwd _ _ Hg), Hres.
    destruct mode; [done|..]; msimpl; by eexists. }
  destruct (H _FS_MWRITE) as (w1 & H1 & Hf1); [done|].
  destruct (H _FS_MAPPEND) as (w2 & H2 & Hf2); [done|].
  rewrite fs_write_pipeline, fs_append_pipeline. unfold result, after.
  by rewrite H1, H2.
Qed.

Lemma write_to_directory_fails_witness :
  result (fs_write (cs "foo") (payload "x")) with_foo = Ret FS_EWRITEFAIL /\
  files (after (fs_write (cs "foo") (payload "x")) with_foo) = files with_foo /\
  result (fs_append (cs "foo") (payload "x")) with_foo = Ret FS_EWRITEFAIL /\
  files (after (fs_append (cs "foo") (payload "x")) with_foo) = files with_foo.
Proof.
  apply (write_to_directory_fails with_foo (cs "foo") (payload "x") [cs "foo"; cs "sandbox"]
           1%Z).
  - vm_compute. discriminate.
  - vm_compute. lia.
  - vm_compute. reflexivity.
Defined.

(** ** What the write side leaves alone *)

Lemma make_dirs_keeps (p : cstring) : keeps (unchanged configuration) (_fs_make_dirs p).
Proof.
  intros w r w' H. unfold _fs_make_dirs in H.
  destruct (make_dirs_rec_grows (strlen p) p w) as (r' & w'' & H' & Hg); [done|].
  rewrite H in H'. injection H' as <- <-. unfold unchanged, configuration.
  by rewrite (grows_search_path _ _ Hg), (grows_write_dir _ _ Hg), (grows_cwd _ _ Hg),
    (grows_heap_free _ _ Hg).
Qed.

Lemma write_pipeline_keeps (mode : fmode) (name : cstring) (d : fs_write_desc) :
  keeps (unchanged configuration) (write_pipeline mode name d).
Proof.
  unfold write_pipeline, _FS_CREATE_DIR_TREE, _fs_write_to_file_ext.
  unfold fopen, open_stream, fwrite, fclose. keeps_go.
  all: apply make_dirs_keeps.
Qed.

Lemma fs_mkdir_keeps (name : cstring) : keeps (unchanged configuration) (fs_mkdir name).
Proof. unfold fs_mkdir. keeps_go. apply make_dirs_keeps. Qed.

Lemma fs_delete_keeps (name : cstring) : keeps (unchanged configuration) (fs_delete name).
Proof. unfold fs_delete, remove. keeps_go. Qed.

(** X22.  The write side leaves the configuration alone.  Whatever they
    return, [fs_write], [fs_append], [fs_mkdir] and [fs_delete] leave the
    search path, the write directory, the working directory and the heap
    as they were; with the read side read-only, only the setters change
    the two configured strings. *)
Theorem write_side_keeps_configuration (w : world) (name : cstring) (d : fs_write_desc) :
  configuration (after (fs_write name d) w) = configuration w /\
  configuration (after (fs_append name d) w) = configuration w /\
  configuration (after (fs_mkdir name) w) = configuration w /\
  configuration (after (fs_delete name) w) = configuration w.
Proof.
  split_and!.
  - apply (keeps_after (unchanged configuration)), (write_pipeline_keeps _FS_MWRITE).
  - apply (keeps_after (unchanged configuration)), (write_pipeline_keeps _FS_MAPPEND).
  - apply (keeps_after (unchanged configuration)), fs_mkdir_keeps.
  - apply (keeps_after (unchanged configuration)), fs_delete_keeps.
Qed.

(** ** The search path, as the public calls see it *)

Lemma fs_read_missing (w : world) (name : cstring) (size0 : option nat) :
  _fs_search_path w <> [] ->
  strlen (_fs_search_path w) < FS_MAX_PATH ->
  (forall q, q ∈ candidates (_fs_search_path w) name ->
             length q < FS_MAX_PATH /\ probe (files w) (cwd w) q = None) ->
  result (fs_read name size0) w = Ret (None, size0).
Proof.
  intros Hne Hlen Hall. unfold result, fs_read. rewrite bind_run.
  destruct (check_search_path_spec w name (char_array FS_MAX_PATH) None Hne Hlen
              (char_array_length _)) as (e & buf' & fstat' & w' & -> & _ & _ & Hm).
  { intros p Hp%tried_subseteq. by apply Hall. }
  rewrite first_existing_miss in Hm by (intros q Hq; by apply Hall).
  destruct Hm as (-> & _). by rewrite decide_True by done.
Qed.

(** X23.  A file in an earlier directory of the search path shadows the
    later ones for every read-side call.  When the first candidate that
    exists is a regular file (the candidates before it and itself fitting
    the array), [fs_read] returns that file's contents, [fs_get_info] its
    size and time, and [fs_exists] succeeds, whatever the later candidates
    name; when no candidate exists, [fs_read] returns NULL with [size]
    untouched, [fs_get_info] fails with [info] untouched and [fs_exists]
    fails. *)
Theorem earlier_directory_shadows (w : world) (name : cstring) (info : option fs_info)
    (size0 : option nat) :
  _fs_search_path w <> [] ->
  strlen (_fs_search_path w) < FS_MAX_PATH ->
  (forall (pre post : list cstring) (p : cstring) (l : loc) (t : Z) (c : list byte),
     candidates (_fs_search_path w) name = pre ++ p :: post ->
     (forall q, q ∈ pre -> length q < FS_MAX_PATH /\ probe (files w) (cwd w) q = None) ->
     length p < FS_MAX_PATH ->
     resolve (files w) (cwd w) p = Found l (File t c) ->
     length c <= heap_free w ->
     result (fs_read name size0) w = Ret (Some (Some <$> c), Some (length c)) /\
     result (fs_get_info name info) w
       = Ret (FS_ESUCCESS,
              Some {| info_type := FS_FILETYPE_REG; info_size := length c;
                      info_modtime := t |}) /\
     result (fs_exists name) w = Ret FS_ESUCCESS) /\
  ((forall q, q ∈ candidates (_fs_search_path w) name ->
              length q < FS_MAX_PATH /\ probe (files w) (cwd w) q = None) ->
   result (fs_read name size0) w = Ret (None, size0) /\
   result (fs_get_info name info) w = Ret (FS_EFAILURE, info) /\
   result (fs_exists name) w = Ret FS_EFAILURE).
Proof.
  intros Hne Hlen. split.
  - intros pre post p l t c Hc Hpre Hp Hres Hheap.
    assert (Hprobe : probe (files w) (cwd w) p = Some (stat_of (File t c)))
      by (unfold probe; by rewrite Hres).
    assert (Hfirst : first_existing (files w) (cwd w) (candidates (_fs_search_path w) name)
                     = Some (p, stat_of (File t c))).
    { rewrite Hc. apply first_existing_hit; [|done]. intros q Hq. by apply Hpre. }
    assert (Htried : forall q, q ∈ tried (files w) (cwd w)
                                   (candidates (_fs_search_path w) name) ->
                               length q < FS_MAX_PATH).
    { rewrite Hc, (tried_hit _ _ _ _ _ _ (fun q Hq => proj2 (Hpre q Hq)) Hprobe).
      intros q [Hq|Hq%list_elem_of_singleton]%elem_of_app; [by apply Hpre|by subst]. }
    split; [by eapply fs_read_file|].
    rewrite fs_get_info_first_match, fs_exists_first_match by done.
    by rewrite Hfirst.
  - intros Hall.
    assert (Htried : forall q, q ∈ tried (files w) (cwd w)
                                   (candidates (_fs_search_path w) name) ->
                               length q < FS_MAX_PATH).
    { intros q Hq%tried_subseteq. by apply Hall. }
    split; [by apply fs_read_missing|].
    rewrite fs_get_info_first_match, fs_exists_first_match by done.
    by rewrite first_existing_miss by (intros q Hq; by apply Hall).
Qed.

Lemma earlier_directory_shadows_witness :
  (result (fs_read (cs "f.txt") None) two_copies
     = Ret (Some (Some <$> bytes "first"), Some (length (bytes "first"))) /\
   result (fs_get_info (cs "f.txt") None) two_copies
     = Ret (FS_ESUCCESS,
            Some {| info_type := FS_FILETYPE_REG; info_size := length (bytes "first");
                    info_modtime := 1 |}) /\
   result (fs_exists (cs "f.txt")) two_copies = Ret FS_ESUCCESS) /\
  (result (fs_read (cs "g.txt") None) two_copies = Ret (None, None) /\
   result (fs_get_info (cs "g.txt") None) two_copies = Ret (FS_EFAILURE, None) /\
   result (fs_exists (cs "g.txt")) two_copies = Ret FS_EFAILURE).
Proof.
  assert (Hne : _fs_search_path two_copies <> []) by (vm_compute; discriminate).
  assert (Hlen : strlen (_fs_search_path two_copies) < FS_MAX_PATH) by (vm_compute; lia).
  split.
  - destruct (earlier_directory_shadows two_copies (cs "f.txt") None None Hne Hlen)
      as [Hhit _].
    apply (Hhit [cs "./none/f.txt"] [cs "./b/f.txt"] (cs "./a/f.txt")
             [cs "f.txt"; cs "a"; cs "sandbox"] 1%Z (bytes "first")).
    + vm_compute. reflexivity.
    + intros q Hq. apply list_elem_of_singleton in Hq. subst q.
      split; [vm_compute; lia|vm_compute; reflexivity].
    + vm_compute. lia.
    + vm_compute. reflexivity.
    + vm_compute. lia.
  - destruct (earlier_directory_shadows two_copies (cs "g.txt") None None Hne Hlen)
      as [_ Hmiss].
    apply Hmiss.
    replace (candidates (_fs_search_path two_copies) (cs "g.txt"))
      with [cs "./none/g.txt"; cs "./a/g.txt"; cs "./b/g.txt"] by (vm_compute; reflexivity).
    apply (proj1 (Forall_forall
             (fun q => length q < FS_MAX_PATH /\
                       probe (files two_copies) (cwd two_copies) q = None) _)).
    repeat (constructor; [split; [vm_compute; lia|vm_compute; reflexivity]|]).
    constructor.
Defined.

(** ** A trailing slash *)

Lemma resolve_trailing_slash (fs : gmap loc node) cwd (q : cstring) d t :
  resolve fs cwd q = Found d (Dir t) -> resolve fs cwd (q ++ cs "/") = Found d (Dir t).
Proof.
  intros Hq. pose proof (walk_all _ _ _ _ _ Hq) as (Hne & Hstart & Hwalk).
  apply resolve_Found in Hq as (_ & _ & _ & Hd).
  apply resolve_Found. exists d.
  assert (Hsplit : split_on "/" (q ++ cs "/") = split_on "/" q ++ [[]])
    by apply split_on_app_sep.
  split_and!.
  - unfold path_dir. clear Hsplit. remember (q ++ cs "/") as p eqn:E.
    destruct p as [|a p]; [by destruct q|]. rewrite E.
    rewrite path_start_app by done. rewrite Hstart.
    assert (split_on "/" (q ++ cs "/") = split_on "/" q ++ [[]]) as ->
      by apply split_on_app_sep.
    by rewrite removelast_last.
  - unfold path_leaf. rewrite Hsplit, last_snoc. cbn [default from_option id]. unfold step.
    by rewrite decide_True by (by left).
  - done.
Qed.

(** X24.  A trailing slash makes [fs_mkdir] report failure for a
    directory it has created.  With a write directory that ends in its
    one marker, and a name that is free in an existing directory,
    [fs_mkdir] of the name followed by a slash creates the directory (the
    recursion of [_fs_make_dirs] on the path cut at its last slash does)
    and returns MkdirFail (the final [mkdir] then finds it there). *)
Theorem mkdir_trailing_slash (w : world) (pre name : cstring) (l : loc) :
  _fs_write_dir w = pre ++ cs "?" ->
  strchr pre "?" = None ->
  length (pre ++ name ++ cs "/") < FS_MAX_PATH ->
  resolve (files w) (cwd w) (pre ++ name) = Creatable l ->
  result (fs_mkdir (name ++ cs "/")) w = Ret FS_EMKDIRFAIL /\
  files (after (fs_mkdir (name ++ cs "/")) w) = <[l := Dir (now w)]> (files w).
Proof.
  intros Hwd Hpre Hfit Hres.
  assert (Hex : expand (_fs_write_dir w) (name ++ cs "/") = (pre ++ name) ++ cs "/").
  { rewrite Hwd. rewrite (proj2 (expand_single pre [] _ Hpre eq_refl)).
    by rewrite app_assoc. }
  assert (Hrun : exists w', fs_mkdir (name ++ cs "/") w = Ret (FS_EMKDIRFAIL, w') /\
                            files w' = <[l := Dir (now w)]> (files w)).
  { rewrite fs_mkdir_run; [|rewrite Hwd; by destruct pre|rewrite Hex, <- app_assoc; done].
    rewrite Hex. unfold _fs_make_dirs. rewrite make_dirs_rec_unfold by done.
    assert (strrchr ((pre ++ name) ++ cs "/") "/" = Some (length (pre ++ name))) as ->
      by (by apply (strrchr_app_sep _ [] "/")).
    rewrite take_app_length.
    replace (pred (strlen ((pre ++ name) ++ cs "/"))) with (strlen (pre ++ name))
      by (unfold strlen; rewrite (length_app (pre ++ name)); cbn; lia).
    destruct (make_dirs_in_existing _ _ _ Hres) as (w1 & Hrun1 & Hg & Hf).
    unfold _fs_make_dirs in Hrun1. rewrite bind_run, Hrun1, bind_run, mkdir_run.
    rewrite (resolve_trailing_slash _ _ _ l (now w)).
    - eexists. split; [done|]. done.
    - rewrite Hf, (grows_cwd _ _ Hg). by apply resolve_insert_dir. }
  destruct Hrun as (w' & Hrun & Hf). unfold result, after. by rewrite Hrun.
Qed.

Lemma mkdir_trailing_slash_witness :
  result (fs_mkdir (cs "foo" ++ cs "/")) configured = Ret FS_EMKDIRFAIL /\
  files (after (fs_mkdir (cs "foo" ++ cs "/")) configured)
    = <[ [cs "foo"; cs "sandbox"] := Dir (now configured) ]> (files configured).
Proof.
  apply (mkdir_trailing_slash configured (cs "./") (cs "foo") [cs "foo"; cs "sandbox"]).
  - reflexivity.
  - reflexivity.
  - vm_compute. lia.
  - vm_compute. reflexivity.
Defined.

(** ** Reading what is not a regular file *)

(** X25.  [fs_read] neither looks at the type of what it found nor at
    what [fread] returns.  Through a search path of one template, on a
    name whose path is a directory (which [fopen] opens for reading and
    [fread] reads nothing from), it returns a block of the size [stat]
    reported for the directory, not one byte of which was written, and
    reports that size. *)
Theorem read_of_directory (w : world) (name : cstring) (size0 : option nat)
    (l : loc) (t : Z) :
  _fs_search_path w <> [] ->
  strchr (_fs_search_path w) ";" = None ->
  strlen (_fs_search_path w) < FS_MAX_PATH ->
  length (expand (_fs_search_path w) name) < FS_MAX_PATH ->
  resolve (files w) (cwd w) (expand (_fs_search_path w) name) = Found l (Dir t) ->
  dir_size <= heap_free w ->
  result (fs_read name size0) w = Ret (Some (replicate dir_size None), Some dir_size).
Proof.
  intros Hne Hsep Hlen Hfit Hres Hheap.
  assert (Hc := candidates_single _ name Hne Hsep).
  unfold result, fs_read. rewrite bind_run.
  destruct (check_search_path_spec w name (char_array FS_MAX_PATH) None Hne Hlen
              (char_array_length _)) as (e & buf' & fstat' & w' & -> & Hg & Hf & Hm).
  { rewrite Hc. intros q Hq%tried_subseteq. by apply list_elem_of_singleton in Hq as ->. }
  rewrite Hc in Hm. cbn [first_existing] in Hm. unfold probe in Hm. rewrite Hres in Hm.
  destruct Hm as (-> & -> & Hcs).
  rewrite decide_False by (intros ?; done). rewrite bind_run, Hcs. cbn [lift].
  unfold fopen, open_stream, malloc, fread, fclose. msimpl.
  rewrite Hf, (grows_cwd _ _ Hg), Hres. msimpl. cbn [the_stat stat_of st_size]. msimpl.
  rewrite (grows_heap_free _ _ Hg). rewrite decide_True by done. msimpl.
  rewrite length_replicate. rewrite decide_False by lia.
  rewrite lookup_insert_eq. cbn [s_loc s_pos s_mode]. rewrite Hf.
  apply resolve_Found in Hres as (_ & _ & _ & ->). by msimpl.
Qed.

Lemma read_of_directory_witness :
  result (fs_read (cs "foo") None) with_foo
    = Ret (Some (replicate dir_size None), Some dir_size).
Proof.
  apply (read_of_directory with_foo (cs "foo") None [cs "foo"; cs "sandbox"] 1%Z).
  - vm_compute. discriminate.
  - vm_compute. reflexivity.
  - vm_compute. lia.
  - vm_compute. lia.
  - vm_compute. reflexivity.
  - vm_compute. lia.
Defined.

(** ** Payloads beyond the range of [int] *)

Lemma write_code_large (size : nat) :
  (INT_MAX < Z.of_nat size <= PTRDIFF_MAX)%Z -> write_code size size = FS_EWRITEFAIL.
Proof.
  unfold INT_MAX, PTRDIFF_MAX, write_code, size_t_of_int, int_of_size_t. intros Hsize.
  apply decide_False.
  pose proof (Z.mod_pos_bound (Z.of_nat size) (2 ^ 32) ltac:(lia)) as Hm.
  set (m := (Z.of_nat size mod 2 ^ 32)%Z) in *.
  destruct (Z.ltb_spec m (2 ^ 31)) as [Hlt|Hge].
  - rewrite Z.mod_small by lia. lia.
  - replace (m - 2 ^ 32)%Z with ((m - 2 ^ 32 + 2 ^ 64) + (-1) * 2 ^ 64)%Z by lia.
    rewrite Z.mod_add by lia. rewrite Z.mod_small by lia. lia.
Qed.

(** X26.  A payload larger than [INT_MAX] is reported as a failure even
    when every byte of it was written.  [_fs_write_to_file_ext] keeps the
    count [fwrite] returns in an [int]; for a payload of more than
    [INT_MAX] bytes (and at most [PTRDIFF_MAX], as every object is) that
    fits the disk, [fs_write] and [fs_append] write the whole payload to
    the file and return WriteFail. *)
Theorem large_write_reports_failure (w : world) (name : cstring) (d : fs_write_desc)
    (l : loc) (prior : list byte) :
  _fs_write_dir w <> [] ->
  length (expand (_fs_write_dir w) name) < FS_MAX_PATH ->
  strstr (expand (_fs_write_dir w) name) (cs "..") = None ->
  desc_size d <= length (desc_data d) ->
  (INT_MAX < Z.of_nat (desc_size d) <= PTRDIFF_MAX)%Z ->
  desc_size d <= disk_free w ->
  (writable (files w) (cwd w) (expand (_fs_write_dir w) name) _FS_MWRITE l prior ->
   result (fs_write name d) w = Ret FS_EWRITEFAIL /\
   files (after (fs_write name d) w)
     = <[l := File (now w) (take (desc_size d) (desc_data d))]> (files w)) /\
  (writable (files w) (cwd w) (expand (_fs_write_dir w) name) _FS_MAPPEND l prior ->
   result (fs_append name d) w = Ret FS_EWRITEFAIL /\
   files (after (fs_append name d) w)
     = <[l := File (now w) (prior ++ take (desc_size d) (desc_data d))]> (files w)).
Proof.
  intros Hwd Hfit Hdots Hle Hsize Hdisk.
  split; intros Hw.
  - destruct (write_pipeline_run _FS_MWRITE name d w l prior) as (w' & Hrun & Hf & _);
      try done.
    assert (prior = []) as -> by (by destruct Hw as [[_ ->]|(? & ? & _ & ->)]).
    rewrite fs_write_pipeline. unfold result, after. rewrite Hrun, Hf.
    rewrite Nat.min_l by done. by rewrite write_code_large.
  - destruct (write_pipeline_run _FS_MAPPEND name d w l prior) as (w' & Hrun & Hf & _);
      try done.
    rewrite fs_append_pipeline. unfold result, after. rewrite Hrun, Hf.
    rewrite Nat.min_l by done. by rewrite write_code_large.
Qed.

Lemma large_write_reports_failure_witness :
  result (fs_write (cs "example.txt") huge) roomy = Ret FS_EWRITEFAIL /\
  files (after (fs_write (cs "example.txt") huge) roomy)
    = <[ [cs "example.txt"; cs "sandbox"]
           := File (now roomy) (take (desc_size huge) (desc_data huge)) ]> (files roomy).
Proof.
  assert (H1 : _fs_write_dir roomy <> []) by (change (cs "./?" <> []); discriminate).
  assert (H2 : length (expand (_fs_write_dir roomy) (cs "example.txt")) < FS_MAX_PATH).
  { change (length (expand (cs "./?") (cs "example.txt")) < FS_MAX_PATH). vm_compute. lia. }
  assert (H3 : strstr (expand (_fs_write_dir roomy) (cs "example.txt")) (cs "..") = None).
  { change (strstr (expand (cs "./?") (cs "example.txt")) (cs "..") = None).
    vm_compute. reflexivity. }
  assert (H4 : desc_size huge <= length (desc_data huge)).
  { unfold huge. cbn [desc_size desc_data]. rewrite length_replicate. lia. }
  assert (H5 : (INT_MAX < Z.of_nat (desc_size huge) <= PTRDIFF_MAX)%Z).
  { unfold huge, two_gib, INT_MAX, PTRDIFF_MAX. cbn [desc_size]. rewrite Z2Nat.id; lia. }
  assert (H6 : desc_size huge <= disk_free roomy) by (change (two_gib <= two_gib); lia).
  destruct (large_write_reports_failure roomy (cs "example.txt") huge
              [cs "example.txt"; cs "sandbox"] [] H1 H2 H3 H4 H5 H6) as [Hw _].
  apply Hw. left. split; [|reflexivity].
  change (resolve (files configured) (cwd configured)
            (expand (_fs_write_dir configured) (cs "example.txt"))
          = Creatable [cs "example.txt"; cs "sandbox"]).
  vm_compute. reflexivity.
Defined.
